(** * sanhe_devops_tools.config_lib : a shallow embedding

    The development follows [src/sanhe_devops_tools/config_lib.py]:

    - [PyText]      Python [str] operations used by the library
                    ([split], [splitlines], [rstrip], [join], [upper], [lower])
                    and the quote-counting regular expression;
    - [Comments]    [strip_comment_line_with_symbol] and [strip_comments];
    - [Fields]      the [Field] / [Constant] / [Derivable] objects, kept in a
                    store shared by every class and instance that refers to them;
    - [Registry]    [_get_fields], [_get_fields_by_mro], [ConfigMeta.__new__];
    - [Config]      [BaseConfigClass]: construction, [from_dict], [update],
                    [to_dict], [validate], [to_cloudformation_config_data];
    - [Glue], [Inject], [Tags]
                    the functions of [read_json_value.py],
                    [get_cf_parameter_overrides.py] and [inject_template.py].

    Python [str] values are modelled as [string] over code points below 256.
    Upper case can leave that range, so its results are lists of code
    points. *)

From Stdlib Require Import String Ascii List Arith Bool Lia Sorted Permutation.
Import ListNotations.
Open Scope string_scope.
Open Scope list_scope.

(* ===================================================================== *)
(** ** Exceptions and results *)
(* ===================================================================== *)

(** The exceptions the library raises itself, the built-in ones its code can
    trigger, and [UserError] for anything a user callback raises. *)
Inductive PyExc : Type :=
| DeriableSetValueError
| DontDumpError
| AttributeError
| NotImplementedError
| TypeError
| IndexError
| ValueError
| UserError (msg : string).

Inductive Result (A : Type) : Type :=
| Ok (a : A)
| Raise (e : PyExc).
Arguments Ok {A} a.
Arguments Raise {A} e.

Definition is_DontDumpError (e : PyExc) : bool :=
  match e with DontDumpError => true | _ => false end.

Definition rbind {A B : Type} (r : Result A) (k : A -> Result B) : Result B :=
  match r with
  | Ok a => k a
  | Raise e => Raise e
  end.

Notation "'try!' x <- c1 ;; c2" := (rbind c1 (fun x => c2))
  (at level 61, x name, c1 at next level, right associativity).

(* ===================================================================== *)
(** ** Python text operations *)
(* ===================================================================== *)

Module PyText.

Definition dquote : ascii := "034"%char.
Definition backslash : ascii := "092"%char.
Definition LF : ascii := "010"%char.
Definition CR : ascii := "013"%char.

Definition is_dquote (c : ascii) : bool := Ascii.eqb c dquote.
Definition is_backslash (c : ascii) : bool := Ascii.eqb c backslash.

Definition chr1 (c : ascii) : string := String c EmptyString.

(** [str.isspace] for a single code point below 256. *)
Definition is_space (c : ascii) : bool :=
  let n := nat_of_ascii c in
  (((9 <=? n) && (n <=? 13)) || ((28 <=? n) && (n <=? 32))
   || (n =? 133) || (n =? 160))%nat.

(** [s.rstrip()] *)
Fixpoint rstrip (s : string) : string :=
  match s with
  | EmptyString => EmptyString
  | String c rest =>
      match rstrip rest with
      | EmptyString => if is_space c then EmptyString else chr1 c
      | r => String c r
      end
  end.

(** [sep.join(parts)] *)
Definition join (sep : string) (parts : list string) : string :=
  String.concat sep parts.

(** [s.split(sep)] for a non-empty separator: cut at every occurrence of
    [sep], scanning from the left, occurrences not overlapping. [skip] counts
    the characters of a separator still to be passed over and [cur] is the
    piece under construction. *)
Fixpoint split_from (sep : string) (skip : nat) (cur : string) (s : string)
  : list string :=
  match s with
  | EmptyString => [cur]
  | String c rest =>
      match skip with
      | S k => split_from sep k cur rest
      | O =>
          if String.prefix sep s
          then cur :: split_from sep (String.length sep - 1) EmptyString rest
          else split_from sep 0 (cur ++ chr1 c) rest
      end
  end.

(** [s.split(sep)]: an empty separator is a [ValueError]. *)
Definition split (sep : string) (s : string) : Result (list string) :=
  match sep with
  | EmptyString => Raise ValueError
  | _ => Ok (split_from sep 0 EmptyString s)
  end.

(** Line boundaries of [str.splitlines] among code points below 256. *)
Definition is_linebreak (c : ascii) : bool :=
  let n := nat_of_ascii c in
  (((10 <=? n) && (n <=? 13)) || ((28 <=? n) && (n <=? 30))
   || (n =? 133))%nat.

(** [s.splitlines()]: a CR LF pair is one boundary, and a final boundary
    opens no further line. *)
Fixpoint splitlines_from (cur : string) (s : string) : list string :=
  match s with
  | EmptyString =>
      match cur with
      | EmptyString => []
      | _ => [cur]
      end
  | String c rest =>
      if is_linebreak c then
        match rest with
        | String c2 rest2 =>
            if Ascii.eqb c CR && Ascii.eqb c2 LF
            then cur :: splitlines_from EmptyString rest2
            else cur :: splitlines_from EmptyString rest
        | EmptyString => [cur]
        end
      else splitlines_from (cur ++ chr1 c) rest
  end.

Definition splitlines (s : string) : list string :=
  splitlines_from EmptyString s.

(** A text whose code points can be of any size, as the list of them. *)
Definition WText : Type := list nat.

Definition code_points (s : string) : WText :=
  map nat_of_ascii (list_ascii_of_string s).

(** [c.upper()] for a code point below 256: the letters [a] to [z] and the
    accented letters 224 to 254 (the division sign 247 apart) go 32 down; the
    sharp s (223) becomes two capital S; the micro sign (181) and the y with
    diaeresis (255) have their capitals above 255, at 924 and 376. *)
Definition upper_char (c : ascii) : WText :=
  let n := nat_of_ascii c in
  (if (97 <=? n) && (n <=? 122) then [n - 32]
   else if n =? 181 then [924]
   else if n =? 223 then [83; 83]
   else if (224 <=? n) && (n <=? 254) && negb (n =? 247) then [n - 32]
   else if n =? 255 then [376]
   else [n])%nat.

(** [c.lower()] for a code point below 256: the letters [A] to [Z] and the
    accented capitals 192 to 222 (the multiplication sign 215 apart) go 32
    up; the result is below 256. *)
Definition lower_char (c : ascii) : ascii :=
  let n := nat_of_ascii c in
  if (((65 <=? n) && (n <=? 90))
      || ((192 <=? n) && (n <=? 222) && negb (n =? 215)))%nat
  then ascii_of_nat (n + 32) else c.

Fixpoint upper (s : string) : WText :=
  match s with
  | EmptyString => []
  | String c rest => upper_char c ++ upper rest
  end.

Fixpoint lower (s : string) : string :=
  match s with
  | EmptyString => EmptyString
  | String c rest => String (lower_char c) (lower rest)
  end.

(** *** The quote-counting regular expression

    The pattern of [strip_comment_line_with_symbol] is an alternation followed
    by a captured double quote: (start of text | one character that is neither
    a double quote nor a backslash | one or more two-character groups, each a
    doubled backslash or a backslash followed by a double quote). *)

(** Third alternative at the head of [s]: the longest run of groups that is
    followed by a quote (the repetition is greedy and gives groups back one
    at a time). The result is the length of the whole match. *)
Fixpoint esc_groups_then_quote (s : string) : option nat :=
  match s with
  | String c1 (String c2 rest) =>
      if is_backslash c1 && (is_backslash c2 || is_dquote c2) then
        match esc_groups_then_quote rest with
        | Some n => Some (2 + n)
        | None =>
            match rest with
            | String c3 _ => if is_dquote c3 then Some 3 else None
            | EmptyString => None
            end
        end
      else None
  | _ => None
  end.

(** Length of the match that starts at the head of [s], if there is one;
    [at_start] says whether the head of [s] is the start of the text. *)
Definition match_at (at_start : bool) (s : string) : option nat :=
  match s with
  | EmptyString => None
  | String c rest =>
      if is_dquote c then (if at_start then Some 1 else None)
      else if is_backslash c then esc_groups_then_quote s
      else
        match rest with
        | String c2 _ => if is_dquote c2 then Some 2 else None
        | EmptyString => None
        end
  end.

(** [len(re.findall(pattern, s))]: matches are searched from the left and do
    not overlap; [skip] counts the characters of the last match still to be
    passed over. *)
Fixpoint findall_count_from (skip : nat) (at_start : bool) (s : string) : nat :=
  match s with
  | EmptyString => 0
  | String _ rest =>
      match skip with
      | S k => findall_count_from k false rest
      | O =>
          match match_at at_start s with
          | Some n => S (findall_count_from (n - 1) false rest)
          | None => findall_count_from 0 false rest
          end
      end
  end.

Definition count_quotes (part : string) : nat :=
  findall_count_from 0 true part.

End PyText.

(* ===================================================================== *)
(** ** Comment stripping *)
(* ===================================================================== *)

Module Comments.
Import PyText.

(** The [for nr, count in enumerate(counts)] loop: the index of the first
    part at which the running total of quotes is even. *)
Fixpoint first_even_total (total nr : nat) (counts : list nat) : option nat :=
  match counts with
  | [] => None
  | count :: counts' =>
      let total' := total + count in
      if Nat.even total' then Some nr
      else first_even_total total' (S nr) counts'
  end.

Definition strip_comment_line_with_symbol (line start : string)
  : Result string :=
  try! parts <- split start line ;;
  let counts := map count_quotes parts in
  match first_even_total 0 0 counts with
  | Some nr => Ok (rstrip (join start (firstn (nr + 1) parts)))
  | None => Ok (rstrip line)
  end.

(** The inner loop of [strip_comments] over the comment symbols, in the
    order the set yields them. *)
Fixpoint strip_line (symbols : list string) (line : string) : Result string :=
  match symbols with
  | [] => Ok line
  | symbol :: symbols' =>
      try! line' <- strip_comment_line_with_symbol line symbol ;;
      strip_line symbols' line'
  end.

Fixpoint strip_lines (symbols : list string) (lines : list string)
  : Result (list string) :=
  match lines with
  | [] => Ok []
  | l :: ls =>
      try! l' <- strip_line symbols l ;;
      try! ls' <- strip_lines symbols ls ;;
      Ok (l' :: ls')
  end.

Definition strip_comments (text : string) (comment_symbols : list string)
  : Result string :=
  try! lines <- strip_lines comment_symbols (splitlines text) ;;
  Ok (join (chr1 LF) lines).

(** The two orders in which the default [frozenset(('#', '//'))] can be
    iterated. *)
Definition default_symbols_hash_first : list string := ["#"; "//"].
Definition default_symbols_slash_first : list string := ["//"; "#"].

End Comments.

(* ===================================================================== *)
(** ** Field objects and the store that holds them *)
(* ===================================================================== *)

Module Fields.

(** Values a field can hold (what a JSON scalar decodes to). *)
Inductive PyVal : Type :=
| VNone
| VBool (b : bool)
| VInt (n : nat)
| VStr (s : string).

Definition is_None (v : PyVal) : bool :=
  match v with VNone => true | _ => false end.

(** The three classes of the [Field] hierarchy. The class of an object is
    fixed when it is created, so it travels with the reference. *)
Inductive FieldClass : Type := Field | Constant | Derivable.

Definition FieldClass_eqb (a b : FieldClass) : bool :=
  match a, b with
  | Field, Field | Constant, Constant | Derivable, Derivable => true
  | _, _ => false
  end.

(** [isinstance(obj, cls)] for an object of class [c]: [Constant] and
    [Derivable] both derive from [Field]. *)
Definition isinstance (c cls : FieldClass) : bool :=
  match cls with
  | Field => true
  | _ => FieldClass_eqb c cls
  end.

(** A reference to a field object: its class and its identity. *)
Record FieldRef : Type := mkRef { ref_class : FieldClass; ref_id : nat }.

Definition FieldRef_eqb (a b : FieldRef) : bool :=
  FieldClass_eqb (ref_class a) (ref_class b) && Nat.eqb (ref_id a) (ref_id b).

(** Identity of a config instance. *)
Definition ObjId : Type := nat.

(** A getter receives the bound config object and reads the values of the
    fields it can reach from there; it returns or raises. *)
Definition Getter : Type := ObjId -> (FieldRef -> PyVal) -> Result PyVal.

(** A validator receives the value to check; it returns or raises. *)
Definition Validator : Type := PyVal -> Result PyVal.

(** The instance attributes of a field object, as [Field.__init__] creates
    them. *)
Record FieldObj : Type := mkField {
  value : PyVal;
  dont_dump : bool;
  printable : bool;
  _config_object : option ObjId;
  _creation_index : nat;
  _getter_method : option Getter;
  _validate_method : Validator
}.

Definition with_value (o : FieldObj) (v : PyVal) : FieldObj :=
  mkField v (dont_dump o) (printable o) (_config_object o)
          (_creation_index o) (_getter_method o) (_validate_method o).

Definition with_config_object (o : FieldObj) (c : option ObjId) : FieldObj :=
  mkField (value o) (dont_dump o) (printable o) c
          (_creation_index o) (_getter_method o) (_validate_method o).

Definition with_getter_method (o : FieldObj) (g : option Getter) : FieldObj :=
  mkField (value o) (dont_dump o) (printable o) (_config_object o)
          (_creation_index o) g (_validate_method o).

Definition with_validate_method (o : FieldObj) (m : Validator) : FieldObj :=
  mkField (value o) (dont_dump o) (printable o) (_config_object o)
          (_creation_index o) (_getter_method o) m.

(** The validator installed by [Field.__init__]: it returns [True]. *)
Definition default_validate_method : Validator := fun _ => Ok (VBool true).

(** [Field.__init__(value, default, dont_dump, printable)], given the current
    class-level counter [Field._creation_index]; returns the new object and
    the counter after the call. The two assignments to [self.value] are kept
    in the order of the source. *)
Definition Field_init (value_arg default : PyVal) (dont_dump_arg printable_arg : bool)
    (counter : nat) : FieldObj * nat :=
  let self0 :=
    mkField VNone dont_dump_arg printable_arg None counter None
            default_validate_method in
  let self1 := if is_None value_arg then with_value self0 default else self0 in
  let self2 := with_value self1 value_arg in
  (self2, S counter).

(** The store: every field object, by reference. Classes and instances hold
    references into it, so an update through one of them is seen by all. *)
Definition Store : Type := FieldRef -> FieldObj.

Definition store_set (st : Store) (r : FieldRef) (o : FieldObj) : Store :=
  fun r' => if FieldRef_eqb r' r then o else st r'.

(** Computations that read and update the store and may raise; the updates
    made before an exception stay. *)
Definition M (A : Type) : Type := Store -> Result A * Store.

Definition ret {A : Type} (a : A) : M A := fun st => (Ok a, st).

Definition raise {A : Type} (e : PyExc) : M A := fun st => (Raise e, st).

Definition bind {A B : Type} (m : M A) (k : A -> M B) : M B :=
  fun st =>
    match m st with
    | (Ok a, st') => k a st'
    | (Raise e, st') => (Raise e, st')
    end.

Notation "x <- c1 ;; c2" := (bind c1 (fun x => c2))
  (at level 61, c1 at next level, right associativity).
Notation "c1 ;;; c2" := (bind c1 (fun _ => c2))
  (at level 61, right associativity).

(** [field.set_value(value)]: [Constant] overrides the method of [Field],
    [Derivable] inherits it. *)
Definition set_value (r : FieldRef) (v : PyVal) : M unit :=
  match ref_class r with
  | Constant => fun st => (Ok tt, store_set st r (with_value (st r) v))
  | Field | Derivable => raise DeriableSetValueError
  end.

(** [field._config_object = obj] *)
Definition set_config_object (r : FieldRef) (obj : ObjId) : M unit :=
  fun st => (Ok tt, store_set st r (with_config_object (st r) (Some obj))).

(** [Derivable.getter(method)] and [Field.validator(method)] *)
Definition getter (r : FieldRef) (method : Getter) : M unit :=
  match ref_class r with
  | Derivable =>
      fun st => (Ok tt, store_set st r (with_getter_method (st r) (Some method)))
  | Field | Constant => raise AttributeError
  end.

Definition validator (r : FieldRef) (method : Validator) : M unit :=
  fun st => (Ok tt, store_set st r (with_validate_method (st r) method)).

Definition HIDDEN : PyVal := VStr "***HIDDEN***".

(** The view of the store a getter reads. *)
Definition values_of (st : Store) : FieldRef -> PyVal := fun r => value (st r).

(** [field.get_value(check_dont_dump, check_printable)] *)
Definition get_value (r : FieldRef) (check_dont_dump check_printable : bool)
    (st : Store) : Result PyVal :=
  let self := st r in
  match _config_object self with
  | None => Raise AttributeError
  | Some config_object =>
      if check_dont_dump && dont_dump self then Raise DontDumpError
      else if check_printable && negb (printable self) then Ok HIDDEN
      else
        match _getter_method self with
        | None => Ok (value self)
        | Some method => method config_object (values_of st)
        end
  end.

(** A config instance used as a condition: [BaseConfigClass] defines neither
    [__bool__] nor [__len__], so it is true. *)
Definition truthy (config_instance : ObjId) : bool := true.

(** [Constant.validate(self)] *)
Definition Constant_validate (r : FieldRef) (st : Store) : Result unit :=
  try! v <- get_value r false false st ;;
  try! _ <- _validate_method (st r) v ;;
  Ok tt.

(** [Derivable.validate(self, config_instance)]: the instance is the first
    positional argument of [get_value], which is [check_dont_dump]. *)
Definition Derivable_validate (r : FieldRef) (config_instance : ObjId)
    (st : Store) : Result unit :=
  try! v <- get_value r (truthy config_instance) false st ;;
  try! _ <- _validate_method (st r) v ;;
  Ok tt.

(** The call [field.validate()], by the class of [field]. *)
Definition call_validate0 (r : FieldRef) (st : Store) : Result unit :=
  match ref_class r with
  | Constant => Constant_validate r st
  | Derivable => Raise TypeError
  | Field => Raise NotImplementedError
  end.

(** The call [field.validate(config_instance)], by the class of [field]. *)
Definition call_validate1 (r : FieldRef) (config_instance : ObjId)
    (st : Store) : Result unit :=
  match ref_class r with
  | Derivable => Derivable_validate r config_instance st
  | Constant => Raise TypeError
  | Field => Raise NotImplementedError
  end.

End Fields.

(* ===================================================================== *)
(** ** Ordered dictionaries *)
(* ===================================================================== *)

Module ODict.

(** An [OrderedDict] (and a [dict], which keeps insertion order too) with
    text keys: the items in order. Setting an existing key replaces its value
    in place; a new key goes to the end. *)
Section WithValues.
Context {V : Type}.

Fixpoint od_set (k : string) (v : V) (d : list (string * V)) : list (string * V) :=
  match d with
  | [] => [(k, v)]
  | (k', v') :: d' =>
      if String.eqb k' k then (k', v) :: d' else (k', v') :: od_set k v d'
  end.

Fixpoint od_get (k : string) (d : list (string * V)) : option V :=
  match d with
  | [] => None
  | (k', v') :: d' => if String.eqb k' k then Some v' else od_get k d'
  end.

Definition od_contains (k : string) (d : list (string * V)) : bool :=
  match od_get k d with Some _ => true | None => false end.

Definition od_keys (d : list (string * V)) : list string := map fst d.

(** [OrderedDict(pairs)]: the pairs are set one after the other. *)
Definition od_update (d : list (string * V)) (pairs : list (string * V))
  : list (string * V) :=
  fold_left (fun acc kv => od_set (fst kv) (snd kv) acc) pairs d.

Definition OrderedDict (pairs : list (string * V)) : list (string * V) :=
  od_update [] pairs.

(** The pairs whose key is not in [d]. *)
Definition fresh (d : list (string * V)) (p : string * V) : bool :=
  negb (od_contains (fst p) d).

Fixpoint od_del (k : string) (d : list (string * V)) : list (string * V) :=
  match d with
  | [] => []
  | (k', v') :: d' => if String.eqb k' k then d' else (k', v') :: od_del k d'
  end.

End WithValues.

End ODict.

(* ===================================================================== *)
(** ** Field registry *)
(* ===================================================================== *)

Module Registry.
Import Fields ODict.

(** A class attribute: a field object or anything else. (An attribute that
    holds one of the field classes itself, which [is_instance_or_subclass]
    would also accept, is not represented.) *)
Inductive Attr : Type :=
| AttrField (r : FieldRef)
| AttrOther.

(** [list.sort(key=...)] is stable; on a list it is computed here by
    insertion from the right, an element going in front of the first one
    whose key is not smaller. *)
Section Sort.
Context {A : Type} (key : A -> nat).

Fixpoint insert_by (x : A) (l : list A) : list A :=
  match l with
  | [] => [x]
  | y :: l' => if Nat.leb (key x) (key y) then x :: l else y :: insert_by x l'
  end.

Fixpoint sort_by (l : list A) : list A :=
  match l with
  | [] => []
  | x :: l' => insert_by x (sort_by l')
  end.

Definition key_le (x y : A) : Prop := key x <= key y.

End Sort.

(** The comprehension of [_get_fields]: the items whose value is a field of
    class [field_class]. *)
Fixpoint select_fields (field_class : FieldClass) (attrs : list (string * Attr))
  : list (string * FieldRef) :=
  match attrs with
  | [] => []
  | (field_name, AttrField r) :: attrs' =>
      if isinstance (ref_class r) field_class
      then (field_name, r) :: select_fields field_class attrs'
      else select_fields field_class attrs'
  | (_, AttrOther) :: attrs' => select_fields field_class attrs'
  end.

(** [_get_fields(attrs, field_class, pop, ordered)]: the fields, and [attrs]
    as the call leaves it. *)
Definition _get_fields (st : Store) (attrs : list (string * Attr))
    (field_class : FieldClass) (pop ordered : bool)
  : list (string * FieldRef) * list (string * Attr) :=
  let fields := select_fields field_class attrs in
  let attrs' :=
    if pop then fold_left (fun a p => od_del (fst p) a) fields attrs else attrs in
  let fields' :=
    if ordered then sort_by (fun pair => _creation_index (st (snd pair))) fields
    else fields in
  (fields', attrs').

(** What the registry builder reads of a class: its [__dict__], and the
    [_declared_fields] attribute found on it or on one of its bases, if there
    is one. *)
Record ClassObj : Type := mkClass {
  cls_declared_fields : option (list (string * Attr));
  cls_dict : list (string * Attr)
}.

(** [getattr(base, _declared_fields, base.__dict__)], the name given as text. *)
Definition getattr_declared_fields (base : ClassObj) : list (string * Attr) :=
  match cls_declared_fields base with
  | Some d => d
  | None => cls_dict base
  end.

(** [_get_fields_by_mro(klass, field_class, ordered)], where [mro] is
    [inspect.getmro(klass)], the class itself first: the fields of
    [mro[:0:-1]], concatenated. *)
Definition _get_fields_by_mro (st : Store) (mro : list ClassObj)
    (field_class : FieldClass) (ordered : bool) : list (string * FieldRef) :=
  concat
    (map (fun base =>
            fst (_get_fields st (getattr_declared_fields base) field_class
                             false ordered))
         (rev (tl mro))).

(** The three registries [ConfigMeta.__new__] puts on a class. *)
Record Klass : Type := mkKlass {
  _declared_fields : list (string * FieldRef);
  _constant_fields : list (string * FieldRef);
  _deriable_fields : list (string * FieldRef)
}.

Definition fields_of_class (cls : FieldClass) (d : list (string * FieldRef))
  : list (string * FieldRef) :=
  filter (fun p => isinstance (ref_class (snd p)) cls) d.

(** [ConfigMeta.__new__(cls, name, bases, attrs)]; [mro_tail] is the method
    resolution order of the new class without the class itself. *)
Definition ConfigMeta_new (st : Store) (mro_tail : list ClassObj)
    (attrs : list (string * Attr)) : Klass :=
  let cls_fields := fst (_get_fields st attrs Field false true) in
  let klass := mkClass None attrs in
  let inherited_fields := _get_fields_by_mro st (klass :: mro_tail) Field true in
  let declared := OrderedDict (inherited_fields ++ cls_fields) in
  mkKlass declared
          (OrderedDict (fields_of_class Constant declared))
          (OrderedDict (fields_of_class Derivable declared)).

(** The class just built, as a later subclass sees it among its bases. *)
Definition as_base (attrs : list (string * Attr)) (k : Klass) : ClassObj :=
  mkClass (Some (map (fun p => (fst p, AttrField (snd p))) (_declared_fields k)))
          attrs.

(** [BaseConfigClass] itself: three empty registries. *)
Definition BaseConfigClass_obj : ClassObj := mkClass (Some []) [].

End Registry.

(* ===================================================================== *)
(** ** Config classes and instances *)
(* ===================================================================== *)

Module Config.
Import PyText Fields ODict Registry.

(** A config instance: its identity and its class. [__init__] gives it no
    attribute of its own; [self._declared_fields] and the two other
    registries are the attributes of the class. *)
Record ConfigObj : Type := mkConfig {
  self_id : ObjId;
  self_class : Klass
}.

(** The loop of [BaseConfigClass.__init__(self, **kwargs)]. *)
Fixpoint init_fields (self : ObjId) (kwargs : list (string * PyVal))
    (items : list (string * FieldRef)) : M unit :=
  match items with
  | [] => ret tt
  | (name, field) :: items' =>
      (match od_get name kwargs with
       | Some v => set_value field v
       | None => ret tt
       end) ;;;
      set_config_object field self ;;;
      init_fields self kwargs items'
  end.

Definition BaseConfigClass_init (self : ConfigObj) (kwargs : list (string * PyVal))
  : M unit :=
  init_fields (self_id self) kwargs (_declared_fields (self_class self)).

(** The call [cls(kw=...)]: a new object of identity [new_id] is made and
    initialised. *)
Definition construct (cls : Klass) (new_id : ObjId) (kwargs : list (string * PyVal))
  : M ConfigObj :=
  let self := mkConfig new_id cls in
  BaseConfigClass_init self kwargs ;;;
  ret self.

(** The loop shared by [from_dict] and [update]. *)
Fixpoint set_constants (constant_fields : list (string * FieldRef))
    (items : list (string * PyVal)) : M unit :=
  match items with
  | [] => ret tt
  | (key, v) :: items' =>
      (match od_get key constant_fields with
       | Some field => set_value field v
       | None => ret tt
       end) ;;;
      set_constants constant_fields items'
  end.

(** [self.update(dct)] *)
Definition update (self : ConfigObj) (dct : list (string * PyVal)) : M unit :=
  set_constants (_constant_fields (self_class self)) dct.

(** [cls.from_dict(dct)] *)
Definition from_dict (cls : Klass) (new_id : ObjId) (dct : list (string * PyVal))
  : M ConfigObj :=
  config <- construct cls new_id [] ;;
  set_constants (_constant_fields (self_class config)) dct ;;;
  ret config.

(** The loop of [to_dict], with the dictionary built so far. *)
Fixpoint to_dict_items (check_dont_dump check_printable : bool) (st : Store)
    (items : list (string * FieldRef)) (dct : list (string * PyVal))
  : Result (list (string * PyVal)) :=
  match items with
  | [] => Ok dct
  | (attr, field) :: items' =>
      match get_value field check_dont_dump check_printable st with
      | Ok v =>
          to_dict_items check_dont_dump check_printable st items' (od_set attr v dct)
      | Raise DontDumpError =>
          to_dict_items check_dont_dump check_printable st items' dct
      | Raise e => Raise e
      end
  end.

(** [self.to_dict(check_dont_dump, check_printable)] *)
Definition to_dict (self : ConfigObj) (check_dont_dump check_printable : bool)
    (st : Store) : Result (list (string * PyVal)) :=
  to_dict_items check_dont_dump check_printable st
                (_declared_fields (self_class self)) [].

(** The two loops of [validate]. *)
Fixpoint validate_constants (items : list (string * FieldRef)) (st : Store)
  : Result unit :=
  match items with
  | [] => Ok tt
  | (_, field) :: items' =>
      try! _ <- call_validate0 field st ;;
      validate_constants items' st
  end.

Fixpoint validate_deriables (self : ObjId) (items : list (string * FieldRef))
    (st : Store) : Result unit :=
  match items with
  | [] => Ok tt
  | (_, field) :: items' =>
      try! _ <- call_validate1 field self st ;;
      validate_deriables self items' st
  end.

(** [self.validate()] *)
Definition validate (self : ConfigObj) (st : Store) : Result unit :=
  try! _ <- validate_constants (_constant_fields (self_class self)) st ;;
  validate_deriables (self_id self) (_deriable_fields (self_class self)) st.

(** [word[0].upper() + word[1:].lower()] *)
Definition capitalize_word (word : string) : Result WText :=
  match word with
  | EmptyString => Raise IndexError
  | String c rest => Ok (upper (chr1 c) ++ code_points (lower rest))
  end.

Fixpoint capitalize_words (words : list string) : Result (list WText) :=
  match words with
  | [] => Ok []
  | w :: ws =>
      try! w' <- capitalize_word w ;;
      try! ws' <- capitalize_words ws ;;
      Ok (w' :: ws')
  end.

(** The local function [to_big_camel_case(text)]; the empty text joins the
    words. *)
Definition to_big_camel_case (text : string) : Result WText :=
  try! words <- split "_" text ;;
  try! words' <- capitalize_words words ;;
  Ok (concat words').

(** A dict whose keys are texts of any code points: a key is set as
    [od_set] sets it. *)
Fixpoint WText_eqb (a b : WText) : bool :=
  match a, b with
  | [], [] => true
  | x :: a', y :: b' => Nat.eqb x y && WText_eqb a' b'
  | _, _ => false
  end.

Fixpoint wd_set (k : WText) (v : PyVal) (d : list (WText * PyVal))
  : list (WText * PyVal) :=
  match d with
  | [] => [(k, v)]
  | (k', v') :: d' =>
      if WText_eqb k' k then (k', v) :: d' else (k', v') :: wd_set k v d'
  end.

(** The dict comprehension of [to_cloudformation_config_data]. *)
Fixpoint camel_case_items (items : list (string * PyVal))
    (out : list (WText * PyVal)) : Result (list (WText * PyVal)) :=
  match items with
  | [] => Ok out
  | (key, v) :: items' =>
      try! key' <- to_big_camel_case key ;;
      camel_case_items items' (wd_set key' v out)
  end.

(** [self.to_cloudformation_config_data()] *)
Definition to_cloudformation_config_data (self : ConfigObj) (st : Store)
  : Result (list (WText * PyVal)) :=
  try! dct <- to_dict self true false st ;;
  camel_case_items dct [].

End Config.

(* ===================================================================== *)
(** ** Reference functions the properties are stated with *)
(* ===================================================================== *)

Module Reference.
Import PyText Fields ODict Registry Config.

(** The pieces of [text] between underscores. *)
Definition segments (text : string) : list string :=
  split_from "_" 0 EmptyString text.

Definition has_empty_segment (text : string) : bool :=
  existsb (String.eqb EmptyString) (segments text).

(** [capitalize_word] made total, the empty word giving the empty text; the
    lemmas on the loop over the words are stated with it. *)
Definition capitalized (word : string) : WText :=
  match word with
  | EmptyString => []
  | String c rest => upper (chr1 c) ++ code_points (lower rest)
  end.

(** The letters below 256 that have both cases, as pairs of code points,
    lower case first: [a] to [z], and the accented letters on both sides of
    the division sign. *)
Definition case_pairs : list (nat * nat) :=
  combine (seq 97 26) (seq 65 26)
  ++ combine (seq 224 23) (seq 192 23)
  ++ combine (seq 248 7) (seq 216 7).

(** The three lower-case letters below 256 whose capital is not one code
    point below 256: micro sign, sharp s, y with diaeresis. *)
Definition special_capitals : list (nat * WText) :=
  [(181, [924]); (223, [83; 83]); (255, [376])].

Definition capital_of (n : nat) : WText :=
  match List.find (fun p => Nat.eqb (fst p) n) special_capitals with
  | Some p => snd p
  | None =>
      match List.find (fun p => Nat.eqb (fst p) n) case_pairs with
      | Some p => [snd p]
      | None => [n]
      end
  end.

Definition small_of (n : nat) : nat :=
  match List.find (fun p => Nat.eqb (snd p) n) case_pairs with
  | Some p => fst p
  | None => n
  end.

(** CamelCase read off a key in one pass: the underscores are dropped, the
    character at the start and the one after each underscore is put in upper
    case, every other character in lower case. *)
Fixpoint camel_scan (at_start : bool) (s : string) : WText :=
  match s with
  | EmptyString => []
  | String c rest =>
      if Ascii.eqb c "_"%char then camel_scan true rest
      else
        (if at_start then capital_of (nat_of_ascii c)
         else [small_of (nat_of_ascii c)])
        ++ camel_scan false rest
  end.

Definition big_camel_case (text : string) : WText := camel_scan true text.

(** The dict with each key in CamelCase: the items in order, a key that
    comes again taking the later value at the place of the first. *)
Definition camel_case_dict (dct : list (string * PyVal)) : list (WText * PyVal) :=
  fold_left (fun out kv => wd_set (big_camel_case (fst kv)) (snd kv) out) dct [].

(** The store after [__init__] without keywords: every listed field bound
    to [self]. *)
Definition bind_all (self : ObjId) (items : list (string * FieldRef)) (st : Store)
  : Store :=
  fold_left
    (fun s p => store_set s (snd p) (with_config_object (s (snd p)) (Some self)))
    items st.

(** The store after the loop of [from_dict] and [update], when no call of
    [set_value] raises. *)
Definition apply_constants (constant_fields : list (string * FieldRef))
    (items : list (string * PyVal)) (st : Store) : Store :=
  fold_left
    (fun s kv =>
       match od_get (fst kv) constant_fields with
       | Some f => store_set s f (with_value (s f) (snd kv))
       | None => s
       end)
    items st.

(** [validate] as the specification words it: every constant field checked
    with its own current value, then every derivable field checked with its
    computed value, the instance serving as the context of the getter and as
    nothing else. *)
Definition check_constant_as_specified (r : FieldRef) (st : Store) : Result unit :=
  try! _ <- _validate_method (st r) (value (st r)) ;;
  Ok tt.

Definition computed_value (r : FieldRef) (config_instance : ObjId) (st : Store)
  : Result PyVal :=
  match _getter_method (st r) with
  | Some method => method config_instance (values_of st)
  | None => Ok (value (st r))
  end.

Definition check_derivable_as_specified (r : FieldRef) (config_instance : ObjId)
    (st : Store) : Result unit :=
  try! v <- computed_value r config_instance st ;;
  try! _ <- _validate_method (st r) v ;;
  Ok tt.

Fixpoint check_all (check : FieldRef -> Store -> Result unit)
    (items : list (string * FieldRef)) (st : Store) : Result unit :=
  match items with
  | [] => Ok tt
  | (_, field) :: items' =>
      try! _ <- check field st ;;
      check_all check items' st
  end.

Definition validate_as_specified (self : ConfigObj) (st : Store) : Result unit :=
  try! _ <- check_all check_constant_as_specified
                      (_constant_fields (self_class self)) st ;;
  check_all (fun r => check_derivable_as_specified r (self_id self))
            (_deriable_fields (self_class self)) st.

End Reference.

(* ===================================================================== *)
(** ** Concrete schemas and texts used in examples *)
(* ===================================================================== *)

Module Scenario.
Import PyText Comments Fields ODict Registry Config.

Definition q : string := chr1 dquote.

(** A JSON object whose member [a] is the empty string, followed by the
    comment [# c]; and the same line without the comment. *)
Definition line_empty_string_comment : string :=
  ("{" ++ q ++ "a" ++ q ++ ": " ++ q ++ q ++ "} # c")%string.
Definition line_empty_string_plain : string :=
  ("{" ++ q ++ "a" ++ q ++ ": " ++ q ++ q ++ "}")%string.

(** A JSON array of two strings, the empty one and the one-character string
    [#]; and that line cut in front of the [#]. *)
Definition line_hash_in_string : string :=
  ("[" ++ q ++ q ++ ", " ++ q ++ "#" ++ q ++ "]")%string.
Definition line_hash_in_string_cut : string :=
  ("[" ++ q ++ q ++ ", " ++ q)%string.

(** Field objects of a small schema:
<<
    class Demo(ConfigClass):
        project_name = Constant()
        password = Constant(dont_dump=True)
        owner = Derivable()           # getter: the bound config object
        token = Derivable(dont_dump=True)   # getter: value of password
        vault = Derivable(dont_dump=True)   # getter: raises DontDumpError
>>
*)
Definition project_name : FieldRef := mkRef Constant 0.
Definition password : FieldRef := mkRef Constant 1.
Definition owner : FieldRef := mkRef Derivable 2.
Definition token : FieldRef := mkRef Derivable 3.
Definition vault : FieldRef := mkRef Derivable 4.
Definition region : FieldRef := mkRef Constant 5.
Definition project_name' : FieldRef := mkRef Constant 6.

Definition owner_getter : Getter := fun self _ => Ok (VInt self).
Definition token_getter : Getter := fun _ values => Ok (values password).
Definition vault_getter : Getter := fun _ _ => Raise DontDumpError.

(** The store after the class body has run: each field made by
    [Field.__init__] in turn, then the getters registered. *)
Definition blank : Store := fun _ => fst (Field_init VNone VNone false true 0).

Definition declare (r : FieldRef) (dont_dump_arg : bool) : M unit :=
  fun st =>
    (Ok tt, store_set st r (fst (Field_init VNone VNone dont_dump_arg true (ref_id r)))).

Definition demo_body : M unit :=
  declare project_name false ;;;
  declare password true ;;;
  declare owner false ;;;
  declare token true ;;;
  declare vault true ;;;
  declare region false ;;;
  declare project_name' false ;;;
  getter owner owner_getter ;;;
  getter token token_getter ;;;
  getter vault vault_getter.

Definition st_demo : Store := snd (demo_body blank).

Definition demo_attrs : list (string * Attr) :=
  [("project_name", AttrField project_name);
   ("password", AttrField password);
   ("owner", AttrField owner)].

Definition Demo : Klass := ConfigMeta_new st_demo [BaseConfigClass_obj] demo_attrs.

(** [class WithToken(Demo): token = ...] and [class WithVault(Demo): vault = ...] *)
Definition WithToken : Klass :=
  ConfigMeta_new st_demo [as_base demo_attrs Demo; BaseConfigClass_obj]
                 [("token", AttrField token)].


(** A subclass that adds a field and declares [project_name] again:
<<
    class Regional(Demo):
        region = Constant()
        project_name = Constant()
>>
*)
Definition regional_attrs : list (string * Attr) :=
  [("project_name", AttrField project_name'); ("region", AttrField region)].

Definition Regional : Klass :=
  ConfigMeta_new st_demo [as_base demo_attrs Demo; BaseConfigClass_obj]
                 regional_attrs.

(** [class Private(ConfigClass): _region = Constant()] *)
Definition Private : Klass :=
  ConfigMeta_new st_demo [BaseConfigClass_obj] [("_region", AttrField region)].

(** Instances, and the store after each construction. *)
Definition demo1 : ConfigObj := mkConfig 1 Demo.
Definition st_demo1 : Store :=
  snd (construct Demo 1 [("project_name", VStr "app")] st_demo).

Definition demo2 : ConfigObj := mkConfig 2 Demo.
Definition st_demo2 : Store :=
  snd (construct Demo 2 [("project_name", VStr "web")] st_demo1).

Definition with_token1 : ConfigObj := mkConfig 1 WithToken.
Definition st_with_token1 : Store :=
  snd (construct WithToken 1 [("password", VStr "pw")] st_demo).


Definition private1 : ConfigObj := mkConfig 1 Private.
Definition st_private1 : Store := snd (construct Private 1 [] st_demo).

End Scenario.

(* ===================================================================== *)
(** ** More Python text operations, used to state properties *)
(* ===================================================================== *)

Module TextRef.
Import PyText.

(** [s.find(sep)]: the index of the first occurrence, if there is one. *)
Fixpoint find (sep s : string) : option nat :=
  match s with
  | EmptyString =>
      match sep with
      | EmptyString => Some 0
      | _ => None
      end
  | String _ rest =>
      if String.prefix sep s then Some 0 else option_map S (find sep rest)
  end.

(** The slices [s[:n]] and [s[n:]]. *)
Fixpoint take (n : nat) (s : string) : string :=
  match n, s with
  | S k, String c rest => String c (take k rest)
  | _, _ => EmptyString
  end.

Fixpoint drop (n : nat) (s : string) : string :=
  match n, s with
  | S k, String _ rest => drop k rest
  | _, _ => s
  end.

(** No double quote anywhere in [s]. *)
Fixpoint no_dquote (s : string) : bool :=
  match s with
  | EmptyString => true
  | String c rest => negb (is_dquote c) && no_dquote rest
  end.

(** [s.startswith(p)] and [part in s] *)
Definition startswith (s p : string) : bool := String.prefix p s.

Definition is_substring (part s : string) : bool :=
  match find part s with
  | Some _ => true
  | None => false
  end.

(** [s.replace(old, new, 1)] *)
Definition replace_first (old new s : string) : string :=
  match find old s with
  | Some i => (take i s ++ new ++ drop (i + String.length old) s)%string
  | None => s
  end.

End TextRef.

(* ===================================================================== *)
(** ** More reference functions for the config classes *)
(* ===================================================================== *)

Module ConfigRef.
Import Fields ODict Registry Config Scenario.

(** The items [to_dict] collects when no [get_value] aborts it: the fields
    whose [get_value] returns, in the order of the registry. *)
Fixpoint dumped (check_dont_dump check_printable : bool) (st : Store)
    (items : list (string * FieldRef)) : list (string * PyVal) :=
  match items with
  | [] => []
  | (attr, field) :: items' =>
      match get_value field check_dont_dump check_printable st with
      | Ok v => (attr, v) :: dumped check_dont_dump check_printable st items'
      | Raise _ => dumped check_dont_dump check_printable st items'
      end
  end.

(** The first exception other than [DontDumpError] that a [get_value]
    raises, going through the registry in order. *)
Fixpoint first_failure (check_dont_dump check_printable : bool) (st : Store)
    (items : list (string * FieldRef)) : option PyExc :=
  match items with
  | [] => None
  | (_, field) :: items' =>
      match get_value field check_dont_dump check_printable st with
      | Ok _ => first_failure check_dont_dump check_printable st items'
      | Raise e =>
          if is_DontDumpError e
          then first_failure check_dont_dump check_printable st items'
          else Some e
      end
  end.

(** The value of the last item of a mapping whose key names the field [r]
    in the constant registry. *)
Fixpoint last_write (constant_fields : list (string * FieldRef))
    (items : list (string * PyVal)) (r : FieldRef) : option PyVal :=
  match items with
  | [] => None
  | (k, v) :: items' =>
      match last_write constant_fields items' r with
      | Some w => Some w
      | None =>
          match od_get k constant_fields with
          | Some f => if FieldRef_eqb f r then Some v else None
          | None => None
          end
      end
  end.

(** The field found under a name in what the registry builder reads of the
    bases, the first base in method resolution order that has the name
    winning. What it reads of a base is the base's whole registry when the
    base has one, inherited names included, and the base's [__dict__] only
    otherwise: this is not the lookup of the attribute [name] on the class,
    which goes through the [__dict__] of each base. *)
Fixpoint lookup_mro (name : string) (bases : list ClassObj) : option FieldRef :=
  match bases with
  | [] => None
  | base :: bases' =>
      match od_get name (select_fields Field (getattr_declared_fields base)) with
      | Some r => Some r
      | None => lookup_mro name bases'
      end
  end.

(** For the field [r], [get_value] returns and the validator, given that
    value, returns. *)
Definition checks_pass (check_dont_dump : bool) (st : Store) (r : FieldRef) : Prop :=
  exists v w,
    get_value r check_dont_dump false st = Ok v
    /\ _validate_method (st r) v = Ok w.

(** The key of the sort in [_get_fields]. *)
Definition creation_index_of (st : Store) (pair : string * FieldRef) : nat :=
  _creation_index (st (snd pair)).

(** A validator that returns [False] and one that raises. *)
Definition rejecting_by_value : Validator := fun _ => Ok (VBool false).
Definition rejecting_by_raise : Validator := fun _ => Raise (UserError "invalid").

(** The store of instance 1 of [Demo] after
    [Demo.project_name.validator(...)] with each of them. *)
Definition st_demo1_returning_false : Store :=
  snd (validator project_name rejecting_by_value st_demo1).
Definition st_demo1_raising : Store :=
  snd (validator project_name rejecting_by_raise st_demo1).

(** [password] declared non-printable, in the store of instance 1. *)
Definition st_demo1_secret : Store :=
  store_set st_demo1 password
            (mkField (VStr "pw") false false (Some 1) 1 None default_validate_method).

(** The attributes of [Demo] as a class body would yield them in another
    order. *)
Definition demo_attrs_shuffled : list (string * Attr) :=
  [("owner", AttrField owner);
   ("helper", AttrOther);
   ("project_name", AttrField project_name);
   ("password", AttrField password)].

(** A plain mix-in class with one field, and a class with two bases:
<<
    class Mixin(object):
        region = Constant()
    class Both(Regional, Mixin): pass        # Regional, Demo, ..., Mixin
>>
*)
Definition Mixin_obj : ClassObj :=
  mkClass None [("region", AttrField vault); ("zone", AttrField token)].

Definition both_mro_tail : list ClassObj :=
  [as_base regional_attrs Regional; as_base demo_attrs Demo;
   BaseConfigClass_obj; Mixin_obj].

Definition Both : Klass := ConfigMeta_new st_demo both_mro_tail [].

(** The value of the last item of the registry, in its order, whose field
    is [r] and whose name is a keyword: what the constructor loop writes to
    [r] last. *)
Fixpoint last_keyword (declared : list (string * FieldRef))
    (kwargs : list (string * PyVal)) (r : FieldRef) : option PyVal :=
  match declared with
  | [] => None
  | (name, field) :: declared' =>
      match last_keyword declared' kwargs r with
      | Some v => Some v
      | None => if FieldRef_eqb field r then od_get name kwargs else None
      end
  end.

(** The field object [r] is one of the registry. *)
Definition is_declared (declared : list (string * FieldRef)) (r : FieldRef)
  : bool :=
  existsb (FieldRef_eqb r) (map snd declared).

(** A field object after a write, if there was one. *)
Definition written (w : option PyVal) (o : FieldObj) : FieldObj :=
  match w with
  | Some v => with_value o v
  | None => o
  end.

(** The field object [r] after a construction of the instance [self]: bound
    to it when [r] is in the registry, as it was otherwise. *)
Definition bound_to (declared : list (string * FieldRef)) (self : ObjId)
    (r : FieldRef) (o : FieldObj) : FieldObj :=
  if is_declared declared r then with_config_object o (Some self) else o.

(** What [get_value] returns for a bound field, from the attributes of the
    field: the flag checks, then the getter run on the bound object, or the
    stored value. *)
Definition read_field (o : FieldObj) (config_object : ObjId)
    (check_dont_dump check_printable : bool) (values : FieldRef -> PyVal)
  : Result PyVal :=
  if check_dont_dump && dont_dump o then Raise DontDumpError
  else if check_printable && negb (printable o) then Ok HIDDEN
  else
    match _getter_method o with
    | None => Ok (value o)
    | Some method => method config_object values
    end.

(** The attribute [name] of a class, looked up as Python does it: in the
    [__dict__] of each class of the method resolution order in turn, the
    class itself first. *)
Fixpoint class_getattr (name : string) (mro : list ClassObj) : option Attr :=
  match mro with
  | [] => None
  | base :: mro' =>
      match od_get name (cls_dict base) with
      | Some a => Some a
      | None => class_getattr name mro'
      end
  end.

End ConfigRef.

(* ===================================================================== *)
(** ** A schema with two bases that share a base *)
(* ===================================================================== *)

Module Diamond.
Import Fields ODict Registry Config Scenario ConfigRef.

(** The classes, in the order they are written:
<<
    class A(ConfigClass):
        a = Constant()
        x = Constant()
    class B(A):
        b = Constant()
    class C(A):
        x = Constant()
        c = Constant()
    class D(B, C):
        pass
>>
    The method resolution order of [D] is [D, B, C, A, ConfigClass,
    BaseConfigClass, object]. *)
Definition A_a : FieldRef := mkRef Constant 10.
Definition A_x : FieldRef := mkRef Constant 11.
Definition B_b : FieldRef := mkRef Constant 12.
Definition C_x : FieldRef := mkRef Constant 13.
Definition C_c : FieldRef := mkRef Constant 14.

(** The store after the four class bodies have run. *)
Definition st_diamond : Store :=
  snd ((declare A_a false ;;; declare A_x false ;;; declare B_b false ;;;
        declare C_x false ;;; declare C_c false) blank).

(** [object] has no registry and no field in its [__dict__]; [ConfigClass]
    and [BaseConfigClass] have an empty registry. *)
Definition object_obj : ClassObj := mkClass None [].
Definition ConfigClass_obj : ClassObj := mkClass (Some []) [].

Definition root_mro : list ClassObj :=
  [ConfigClass_obj; BaseConfigClass_obj; object_obj].

Definition A_attrs : list (string * Attr) :=
  [("a", AttrField A_a); ("x", AttrField A_x)].
Definition B_attrs : list (string * Attr) := [("b", AttrField B_b)].
Definition C_attrs : list (string * Attr) :=
  [("x", AttrField C_x); ("c", AttrField C_c)].
Definition D_attrs : list (string * Attr) := [].

Definition A : Klass := ConfigMeta_new st_diamond root_mro A_attrs.
Definition A_obj : ClassObj := as_base A_attrs A.

Definition B : Klass := ConfigMeta_new st_diamond (A_obj :: root_mro) B_attrs.
Definition B_obj : ClassObj := as_base B_attrs B.

Definition C : Klass := ConfigMeta_new st_diamond (A_obj :: root_mro) C_attrs.
Definition C_obj : ClassObj := as_base C_attrs C.

Definition D_mro_tail : list ClassObj := B_obj :: C_obj :: A_obj :: root_mro.

Definition D : Klass := ConfigMeta_new st_diamond D_mro_tail D_attrs.
Definition D_obj : ClassObj := as_base D_attrs D.

(** The store after [D()] has made the instance 1. *)
Definition st_D1 : Store := snd (construct D 1 [] st_diamond).

End Diamond.

(* ===================================================================== *)
(** ** The command-line scripts: parsed JSON and what they do with it *)
(* ===================================================================== *)

Module Glue.
Import PyText TextRef ODict.

(** What [json.loads] returns. An object is the list of its items in order,
    with distinct keys; a number is kept as its text, the scripts doing no
    arithmetic. *)
#[warnings="-register-all"]
Inductive Json : Type :=
| JNull
| JBool (b : bool)
| JNum (text : string)
| JStr (s : string)
| JList (items : list Json)
| JDict (items : list (string * Json)).

(** The exceptions of the scripts: [KeyError] and the built-in ones named
    before. *)
Inductive GlueExc : Type :=
| KeyError
| Builtin (e : PyExc).

Inductive Outcome (A : Type) : Type :=
| Done (a : A)
| Fail (e : GlueExc).
Arguments Done {A} a.
Arguments Fail {A} e.

Definition obind {A B : Type} (o : Outcome A) (k : A -> Outcome B) : Outcome B :=
  match o with
  | Done a => k a
  | Fail e => Fail e
  end.

Definition is_JStr (part : string) (x : Json) : bool :=
  match x with
  | JStr s => String.eqb s part
  | _ => false
  end.

(** [part in value], for a text [part]: a key of a dict, an element of a
    list, a piece of a text; anything else is not a container. *)
Definition py_contains (part : string) (value : Json) : Outcome bool :=
  match value with
  | JDict items => Done (od_contains part items)
  | JList items => Done (existsb (is_JStr part) items)
  | JStr s => Done (is_substring part s)
  | JNull | JBool _ | JNum _ => Fail (Builtin TypeError)
  end.

(** [value[part]], for a text [part]. *)
Definition py_getitem (value : Json) (part : string) : Outcome Json :=
  match value with
  | JDict items =>
      match od_get part items with
      | Some v => Done v
      | None => Fail KeyError
      end
  | _ => Fail (Builtin TypeError)
  end.

(** [value.get(key, default)] and [list(value.keys())] *)
Definition py_get (value : Json) (key : string) (default : Json) : Outcome Json :=
  match value with
  | JDict items =>
      match od_get key items with
      | Some v => Done v
      | None => Done default
      end
  | _ => Fail (Builtin AttributeError)
  end.

Definition py_keys (value : Json) : Outcome (list string) :=
  match value with
  | JDict items => Done (od_keys items)
  | _ => Fail (Builtin AttributeError)
  end.

Section Scripts.

(** Reading a file: the path made absolute from the working directory, the
    file opened, decoded, its comments stripped and the text parsed; or the
    failure of one of these steps. *)
Variable read_json_data : string -> Outcome Json.

(** *** [read_json_value.py] *)

(** The first lines of [get_json_value]: a leading [$.] is removed. *)
Definition fix_json_path (json_path : string) : string :=
  if startswith json_path "$." then replace_first "$." EmptyString json_path
  else json_path.

(** The loop of [get_json_value]. *)
Fixpoint descend (parts : list string) (value : Json) : Outcome Json :=
  match parts with
  | [] => Done value
  | part :: parts' =>
      match py_contains part value with
      | Fail e => Fail e
      | Done true => obind (py_getitem value part) (descend parts')
      | Done false => Fail (Builtin ValueError)
      end
  end.

Definition get_json_value (file_path json_path : string) : Outcome Json :=
  let json_path := fix_json_path json_path in
  obind (read_json_data file_path)
        (descend (split_from "." 0 EmptyString json_path)).

(** *** [get_cf_parameter_overrides.py] *)

(** The loop of [get_parameters_data], with the dictionary built so far. *)
Fixpoint collect_parameters (required : list string) (full : Json)
    (parameters : list (string * Json)) : Outcome (list (string * Json)) :=
  match required with
  | [] => Done parameters
  | key :: required' =>
      match py_contains key full with
      | Fail e => Fail e
      | Done true =>
          obind (py_getitem full key)
                (fun v => collect_parameters required' full (od_set key v parameters))
      | Done false => Fail (Builtin ValueError)
      end
  end.

Definition get_parameters_data (template_path json_file : string)
  : Outcome (list (string * Json)) :=
  obind (read_json_data template_path) (fun template =>
  obind (py_get template "Parameters" (JDict [])) (fun declared =>
  obind (py_keys declared) (fun required_parameters =>
  obind (read_json_data json_file) (fun full =>
  collect_parameters required_parameters full [])))).

End Scripts.

(** A file system with two files, for the examples. *)
Definition example_template : Json :=
  JDict [("AWSTemplateFormatVersion", JStr "2010-09-09");
         ("Parameters",
          JDict [("ProjectName", JDict [("Type", JStr "String")]);
                 ("Stage", JDict [("Type", JStr "String")])])].

Definition example_config : Json :=
  JDict [("Stage", JStr "dev");
         ("ProjectName", JStr "config_lib");
         ("profile", JDict [("first name", JStr "obama"); ("age", JNum "58")])].

Definition example_files (path : string) : Outcome Json :=
  if String.eqb path "master-tier.json" then Done example_template
  else if String.eqb path "config.json" then Done example_config
  else Fail (Builtin (UserError "IOError")).

End Glue.

(* ===================================================================== *)
(** ** [inject_template.py]: placeholders in a template text *)
(* ===================================================================== *)

Module Inject.
Import PyText TextRef ODict Glue.

Definition lbrace : ascii := "{"%char.
Definition rbrace : ascii := "}"%char.
Definition rparen : ascii := ")"%char.

(** The character [c] occurs nowhere in [s]. *)
Fixpoint lacks (c : ascii) (s : string) : bool :=
  match s with
  | EmptyString => true
  | String a rest => negb (Ascii.eqb a c) && lacks c rest
  end.

(** [s.lstrip()] and [s.strip()] *)
Fixpoint lstrip (s : string) : string :=
  match s with
  | EmptyString => EmptyString
  | String c rest => if is_space c then lstrip rest else s
  end.

Definition strip (s : string) : string := rstrip (lstrip s).

(** The group of the pattern, read after the two opening braces: the
    shortest non-empty run of characters other than a closing parenthesis
    that two closing braces follow. [acc] is the run so far. *)
Fixpoint lazy_group (acc : string) (s : string) : option string :=
  match s with
  | EmptyString => None
  | String c rest =>
      if Ascii.eqb c rparen then None
      else if String.prefix "}}" rest then Some (acc ++ chr1 c)%string
      else lazy_group (acc ++ chr1 c)%string rest
  end.

(** A match of the pattern at the head of [s], as its group. *)
Definition match_here (s : string) : option string :=
  if String.prefix "{{" s then lazy_group EmptyString (drop 2 s) else None.

(** [re.findall(pattern, s)]: the groups of the matches from left to right,
    the search going on after the end of each match. [skip] counts the
    characters of a match still to be passed over. *)
Fixpoint findall_from (skip : nat) (s : string) : list string :=
  match s with
  | EmptyString => []
  | String c rest =>
      match skip with
      | S k => findall_from k rest
      | O =>
          match match_here s with
          | Some g => g :: findall_from (String.length g + 3) rest
          | None => findall_from 0 rest
          end
      end
  end.

Definition findall (s : string) : list string := findall_from 0 s.

(** [s.replace(old, new)]: every occurrence of [old] from the left,
    occurrences not overlapping; an empty [old] is found before every
    character and at the end. *)
Fixpoint replace_from (old new : string) (skip : nat) (s : string) : string :=
  match s with
  | EmptyString => EmptyString
  | String c rest =>
      match skip with
      | S k => replace_from old new k rest
      | O =>
          if String.prefix old s
          then (new ++ replace_from old new (String.length old - 1) rest)%string
          else String c (replace_from old new 0 rest)
      end
  end.

Fixpoint interleave (new : string) (s : string) : string :=
  match s with
  | EmptyString => new
  | String c rest => (new ++ String c (interleave new rest))%string
  end.

Definition replace (old new : string) (s : string) : string :=
  match old with
  | EmptyString => interleave new s
  | _ => replace_from old new 0 s
  end.

(** The first loop of [inject_variable], over the names found in the text it
    was given. A value of [data] that is not a text cannot be the second
    argument of [replace]. *)
Fixpoint substitute (names : list string) (data : list (string * Json))
    (text : string) : Outcome string :=
  match names with
  | [] => Done text
  | var_name :: names' =>
      let key := strip var_name in
      let var_name := ("{{" ++ var_name ++ "}}")%string in
      if negb (od_contains key data) then Fail (Builtin ValueError)
      else
        match od_get key data with
        | Some (JStr value) => substitute names' data (replace var_name value text)
        | Some _ => Fail (Builtin TypeError)
        | None => Fail KeyError
        end
  end.

Definition inject_variable (text : string) (data : list (string * Json))
  : Outcome string :=
  obind (substitute (findall text) data text) (fun text =>
  match findall text with
  | [] => Done text
  | _ :: _ => Fail (Builtin ValueError)
  end).

End Inject.

(* ===================================================================== *)
(** ** [inject_template.py]: common tags on the resources of a template *)
(* ===================================================================== *)

Module Tags.
Import PyText TextRef ODict Glue.

(** A common tag, typed as the function documents it: a dictionary from text
    to text, such as [Key: Name, Value: my-project]. *)
Definition Tag : Type := list (string * string).

(** The tag as a value inside the template. *)
Definition tag_json (dct : Tag) : Json :=
  JDict (map (fun kv => (fst kv, JStr (snd kv))) dct).

(** Lists and dictionaries cannot be members of a set. *)
Definition is_hashable (value : Json) : bool :=
  match value with
  | JList _ | JDict _ => false
  | _ => true
  end.

(** [value in names], for a set of texts. *)
Definition in_text_set (value : Json) (names : list string) : Outcome bool :=
  match value with
  | JStr s => Done (existsb (String.eqb s) names)
  | JList _ | JDict _ => Fail (Builtin TypeError)
  | JNull | JBool _ | JNum _ => Done false
  end.

(** What [for dct in value] runs over. *)
Definition py_iter (value : Json) : Outcome (list Json) :=
  match value with
  | JList items => Done items
  | JDict items => Done (map JStr (od_keys items))
  | JStr s => Done (map (fun c => JStr (chr1 c)) (list_ascii_of_string s))
  | JNull | JBool _ | JNum _ => Fail (Builtin TypeError)
  end.

(** The set of the keys of the tags a resource has: each element is asked
    for its [Key], which then has to be hashable. *)
Fixpoint tag_keys (elements : list Json) : Outcome (list Json) :=
  match elements with
  | [] => Done []
  | dct :: rest =>
      obind (py_getitem dct "Key") (fun k =>
      if is_hashable k
      then obind (tag_keys rest) (fun ks => Done (k :: ks))
      else Fail (Builtin TypeError))
  end.

(** The inner loop: a common tag whose key the resource does not have is
    appended to the resource's tags. The result is the tags as the loop
    leaves them, and the exception if it was left by one. *)
Fixpoint append_missing (common_tags : list Tag) (existing_tag_keys : list Json)
    (tags : Json) : Json * option GlueExc :=
  match common_tags with
  | [] => (tags, None)
  | dct :: rest =>
      match od_get "Key" dct with
      | None => (tags, Some KeyError)
      | Some k =>
          if existsb (is_JStr k) existing_tag_keys
          then append_missing rest existing_tag_keys tags
          else
            match tags with
            | JList items =>
                append_missing rest existing_tag_keys
                  (JList (items ++ [tag_json dct]))
            | _ => (tags, Some (Builtin AttributeError))
            end
      end
  end.

(** The resource with its [Properties] replaced, as the assignments through
    [r_properties] leave it. *)
Definition with_properties (r_data : Json) (r_properties : Json) : Json :=
  match r_data with
  | JDict items => JDict (od_set "Properties" r_properties items)
  | _ => r_data
  end.

Definition with_tags (r_properties : Json) (tags : Json) : Json :=
  match r_properties with
  | JDict items => JDict (od_set "Tags" tags items)
  | _ => r_properties
  end.

(** The body of the outer loop, for one resource. *)
Definition tag_resource (common_tags : list Tag)
    (resources_with_common_tags : list string) (r_data : Json)
  : Json * option GlueExc :=
  match py_getitem r_data "Type" with
  | Fail e => (r_data, Some e)
  | Done type =>
  match in_text_set type resources_with_common_tags with
  | Fail e => (r_data, Some e)
  | Done false => (r_data, None)
  | Done true =>
  match py_getitem r_data "Properties" with
  | Fail e => (r_data, Some e)
  | Done r_properties =>
  match py_contains "Tags" r_properties with
  | Fail e => (r_data, Some e)
  | Done false =>
      match r_properties with
      | JDict _ =>
          (with_properties r_data
             (with_tags r_properties (JList (map tag_json common_tags))),
           None)
      | _ => (r_data, Some (Builtin TypeError))
      end
  | Done true =>
  match py_getitem r_properties "Tags" with
  | Fail e => (r_data, Some e)
  | Done tags =>
  match obind (py_iter tags) tag_keys with
  | Fail e => (r_data, Some e)
  | Done existing_tag_keys =>
      let (tags', exc) := append_missing common_tags existing_tag_keys tags in
      (with_properties r_data (with_tags r_properties tags'), exc)
  end end end end end end.

(** The outer loop: the resources in order, up to the first failure. *)
Fixpoint tag_resources (common_tags : list Tag)
    (resources_with_common_tags : list string)
    (resources : list (string * Json)) : list (string * Json) * option GlueExc :=
  match resources with
  | [] => ([], None)
  | (r_name, r_data) :: rest =>
      match tag_resource common_tags resources_with_common_tags r_data with
      | (r_data', Some e) => ((r_name, r_data') :: rest, Some e)
      | (r_data', None) =>
          let (rest', exc) :=
            tag_resources common_tags resources_with_common_tags rest in
          ((r_name, r_data') :: rest', exc)
      end
  end.

(** [apply_common_tag] changes the template it is given and returns
    nothing: the result here is the template after the call, and the
    exception if there was one. *)
Definition apply_common_tag (json_data : Json) (common_tags : list Tag)
    (resources_with_common_tags : list string) : Json * option GlueExc :=
  match json_data with
  | JDict items =>
      match od_get "Resources" items with
      | None => (json_data, None)
      | Some (JDict resources) =>
          let (resources', exc) :=
            tag_resources common_tags resources_with_common_tags resources in
          (JDict (od_set "Resources" (JDict resources') items), exc)
      | Some _ => (json_data, Some (Builtin AttributeError))
      end
  | _ => (json_data, Some (Builtin AttributeError))
  end.

(** The common tag has a [Key], and it is none of the keys at hand. *)
Definition is_new_tag (existing_tag_keys : list Json) (dct : Tag) : bool :=
  match od_get "Key" dct with
  | Some k => negb (existsb (is_JStr k) existing_tag_keys)
  | None => false
  end.

Definition has_key (dct : Tag) : bool := od_contains "Key" dct.

(** The template and the tags of the test. *)
Definition vpc_template : Json :=
  JDict [("AWSTemplateFormatVersion", JStr "2010-09-09");
         ("Resources",
          JDict [("VPC",
                  JDict [("Type", JStr "AWS::EC2::VPC");
                         ("Properties",
                          JDict [("CidrBlock", JStr "10.0.0.1:16");
                                 ("EnableDnsHostnames", JBool true)])]);
                 ("Subnet",
                  JDict [("Type", JStr "AWS::EC2::Subnet");
                         ("Properties",
                          JDict [("Tags",
                                  JList [JDict [("Key", JStr "Name");
                                                ("Value", JStr "public")]])])]);
                 ("Topic",
                  JDict [("Type", JStr "AWS::SNS::Topic")])])].

Definition test_common_tags : list Tag :=
  [[("Key", "Name"); ("Value", "my-project")];
   [("Key", "Stage"); ("Value", "dev")]].

Definition test_resources_with_common_tags : list string :=
  ["AWS::EC2::VPC"; "AWS::EC2::Subnet"].

End Tags.

(* ===================================================================== *)
(** ** Properties of field objects *)
(* ===================================================================== *)

Module FieldFacts.
Import Fields ODict Registry Config.

Lemma FieldClass_eqb_eq (a b : FieldClass) : FieldClass_eqb a b = true <-> a = b.
Proof. destruct a, b; simpl; split; congruence. Qed.

Lemma FieldRef_eqb_eq (a b : FieldRef) : FieldRef_eqb a b = true <-> a = b.
Proof.
  destruct a as [ca ia], b as [cb ib]; unfold FieldRef_eqb; simpl.
  rewrite andb_true_iff, FieldClass_eqb_eq, Nat.eqb_eq.
  split; [intros [-> ->]; reflexivity | intros H; inversion H; auto].
Qed.

Lemma FieldRef_eqb_refl (a : FieldRef) : FieldRef_eqb a a = true.
Proof. apply FieldRef_eqb_eq; reflexivity. Qed.

Lemma FieldRef_eqb_neq (a b : FieldRef) : a <> b -> FieldRef_eqb a b = false.
Proof.
  intros H. destruct (FieldRef_eqb a b) eqn:E; [|reflexivity].
  apply FieldRef_eqb_eq in E. contradiction.
Qed.

Lemma FieldRef_eq_dec (a b : FieldRef) : {a = b} + {a <> b}.
Proof.
  destruct (FieldRef_eqb a b) eqn:E.
  - left. apply FieldRef_eqb_eq. exact E.
  - right. intros ->. rewrite FieldRef_eqb_refl in E. discriminate.
Qed.

Lemma store_set_same (st : Store) r o : store_set st r o r = o.
Proof. unfold store_set. rewrite FieldRef_eqb_refl. reflexivity. Qed.

Lemma store_set_other (st : Store) r o r' : r' <> r -> store_set st r o r' = st r'.
Proof. intros H. unfold store_set. rewrite FieldRef_eqb_neq; auto. Qed.

Lemma set_value_Constant r v st :
  ref_class r = Constant ->
  set_value r v st = (Ok tt, store_set st r (with_value (st r) v)).
Proof. intros H. unfold set_value. rewrite H. reflexivity. Qed.

Lemma set_value_not_Constant r v st :
  ref_class r <> Constant ->
  set_value r v st = (Raise DeriableSetValueError, st).
Proof.
  intros H. unfold set_value, raise. destruct (ref_class r); congruence.
Qed.

(** [set_value] either succeeds or raises [DeriableSetValueError]. *)
Lemma set_value_cases r v st :
  (ref_class r = Constant /\
   set_value r v st = (Ok tt, store_set st r (with_value (st r) v))) \/
  (ref_class r <> Constant /\
   set_value r v st = (Raise DeriableSetValueError, st)).
Proof.
  destruct (ref_class r) eqn:E.
  - right. split; [congruence | apply set_value_not_Constant; congruence].
  - left. split; [reflexivity | apply set_value_Constant; assumption].
  - right. split; [congruence | apply set_value_not_Constant; congruence].
Qed.

(** Whatever the fields in front of it, a keyword that names a field which
    is not a [Constant] makes the constructor loop raise. *)
Lemma init_fields_keyword_on_derived items :
  forall self kwargs st name r v,
    In (name, r) items ->
    ref_class r <> Constant ->
    od_get name kwargs = Some v ->
    fst (init_fields self kwargs items st) = Raise DeriableSetValueError.
Proof.
  induction items as [|[n f] items IH]; intros self kwargs st name r v Hin Hc Hk.
  - destruct Hin.
  - simpl. unfold bind at 1. unfold bind at 1.
    destruct Hin as [Heq | Hin].
    + inversion Heq; subst n f. rewrite Hk.
      rewrite (set_value_not_Constant r v st Hc). reflexivity.
    + destruct (od_get n kwargs) as [w|].
      * destruct (set_value_cases f w st) as [[_ ->] | [_ ->]]; [|reflexivity].
        unfold set_config_object at 1. eapply IH; eauto.
      * unfold ret at 1. unfold set_config_object at 1. eapply IH; eauto.
Qed.

End FieldFacts.

(* ===================================================================== *)
(** ** Construction of fields and [set_value] *)
(* ===================================================================== *)

Module FieldClaims.
Import Fields ODict Registry Config Scenario FieldFacts.

(** [Field.__init__] stores the [value] argument whatever [default] is. *)
Lemma Field_init_value value_arg default dd p counter :
  value (fst (Field_init value_arg default dd p counter)) = value_arg.
Proof. unfold Field_init. simpl. reflexivity. Qed.

(** C9. A field constructed with [value=None] and any [default] holds [None]:
    the assignment of [default] is overwritten by the assignment of [value]
    that follows it, so [default] never takes effect. [Constant] and
    [Derivable] inherit this constructor unchanged. *)
Theorem Field_init_default_never_used :
  forall (default : PyVal) (dont_dump_arg printable_arg : bool) (counter : nat),
    value (fst (Field_init VNone default dont_dump_arg printable_arg counter))
    = VNone
    /\ (forall default',
          Field_init VNone default dont_dump_arg printable_arg counter
          = Field_init VNone default' dont_dump_arg printable_arg counter).
Proof.
  intros default dd p counter. split.
  - apply Field_init_value.
  - intros default'. reflexivity.
Qed.

Example Field_init_default_example :
  value (fst (Field_init VNone (VStr "app") false true 0)) = VNone.
Proof. reflexivity. Qed.

(** C5. [set_value] on a [Derivable] field raises [DeriableSetValueError]
    for every value, the store being left as it was; constructing an
    instance with a keyword that names a [Derivable] field raises the same
    error; [set_value] on a [Constant] stores any value, unchecked. *)
Theorem Derivable_set_value_always_raises :
  forall (cls : Klass) (new_id : ObjId) (kwargs : list (string * PyVal))
         (st : Store) (name : string) (d c : FieldRef) (v w : PyVal),
    ref_class d = Derivable ->
    ref_class c = Constant ->
    In (name, d) (_declared_fields cls) ->
    od_get name kwargs = Some v ->
    set_value d w st = (Raise DeriableSetValueError, st)
    /\ fst (construct cls new_id kwargs st) = Raise DeriableSetValueError
    /\ set_value c w st = (Ok tt, store_set st c (with_value (st c) w))
    /\ value (snd (set_value c w st) c) = w.
Proof.
  intros cls new_id kwargs st name d c v w Hd Hc Hin Hk.
  assert (Hnc : ref_class d <> Constant) by congruence.
  repeat split.
  - apply set_value_not_Constant. exact Hnc.
  - unfold construct, BaseConfigClass_init, bind. simpl.
    pose proof (init_fields_keyword_on_derived
                  (_declared_fields cls) new_id kwargs st name d v Hin Hnc Hk) as H.
    destruct (init_fields new_id kwargs (_declared_fields cls) st) as [[u|e] st'];
      simpl in *; congruence.
  - apply set_value_Constant. exact Hc.
  - rewrite (set_value_Constant c w st Hc). simpl.
    rewrite store_set_same. reflexivity.
Qed.

Lemma Derivable_set_value_always_raises_witness :
  ref_class owner = Derivable
  /\ ref_class project_name = Constant
  /\ In ("owner", owner) (_declared_fields Demo)
  /\ od_get "owner" [("owner", VStr "me")] = Some (VStr "me")
  /\ set_value owner (VInt 3) st_demo = (Raise DeriableSetValueError, st_demo)
  /\ fst (construct Demo 1 [("owner", VStr "me")] st_demo)
     = Raise DeriableSetValueError
  /\ set_value project_name (VInt 3) st_demo
     = (Ok tt, store_set st_demo project_name
                         (with_value (st_demo project_name) (VInt 3)))
  /\ value (snd (set_value project_name (VInt 3) st_demo) project_name) = VInt 3.
Proof.
  assert (H1 : ref_class owner = Derivable) by reflexivity.
  assert (H2 : ref_class project_name = Constant) by reflexivity.
  assert (H3 : In ("owner", owner) (_declared_fields Demo))
    by (vm_compute; tauto).
  assert (H4 : od_get "owner" [("owner", VStr "me")] = Some (VStr "me"))
    by reflexivity.
  repeat (split; [assumption|]).
  exact (Derivable_set_value_always_raises
           Demo 1 [("owner", VStr "me")] st_demo "owner" owner project_name
           (VStr "me") (VInt 3) H1 H2 H3 H4).
Defined.

End FieldClaims.

(* ===================================================================== *)
(** ** The CloudFormation key rewrite *)
(* ===================================================================== *)

Module CamelCase.
Import PyText Fields ODict Registry Config Reference Scenario.

Lemma has_empty_segment_In text :
  has_empty_segment text = true <-> In EmptyString (segments text).
Proof.
  unfold has_empty_segment. rewrite existsb_exists. split.
  - intros [w [Hin Hw]]. apply String.eqb_eq in Hw. subst w. exact Hin.
  - intros Hin. exists EmptyString. split; [exact Hin | apply String.eqb_refl].
Qed.

Lemma capitalize_word_nonempty w :
  w <> EmptyString -> capitalize_word w = Ok (capitalized w).
Proof. destruct w; [congruence | reflexivity]. Qed.

Lemma capitalize_words_empty words :
  In EmptyString words -> capitalize_words words = Raise IndexError.
Proof.
  induction words as [|w ws IH]; intros Hin; [destruct Hin|].
  simpl. destruct w as [|c rest].
  - reflexivity.
  - destruct Hin as [Heq | Hin]; [discriminate|].
    simpl. rewrite (IH Hin). reflexivity.
Qed.

Lemma capitalize_words_total words :
  ~ In EmptyString words -> capitalize_words words = Ok (map capitalized words).
Proof.
  induction words as [|w ws IH]; intros Hn; [reflexivity|].
  simpl. rewrite capitalize_word_nonempty.
  - simpl. rewrite IH; [reflexivity|]. intros H. apply Hn. right. exact H.
  - intros ->. apply Hn. left. reflexivity.
Qed.

Lemma prefix_underscore_head rest :
  String.prefix "_" (String "_" rest) = true.
Proof. destruct rest; reflexivity. Qed.

Lemma split_from_underscore_head cur rest :
  split_from "_" 0 cur (String "_" rest)
  = cur :: split_from "_" 0 EmptyString rest.
Proof.
  cbn [split_from]. rewrite prefix_underscore_head. reflexivity.
Qed.

(** The two case conversions agree with the table of letters. *)
Lemma upper_char_table (c : ascii) : upper_char c = capital_of (nat_of_ascii c).
Proof.
  destruct c as [[] [] [] [] [] [] [] []]; vm_compute; reflexivity.
Qed.

Lemma lower_char_table (c : ascii) :
  nat_of_ascii (lower_char c) = small_of (nat_of_ascii c).
Proof.
  destruct c as [[] [] [] [] [] [] [] []]; vm_compute; reflexivity.
Qed.

Lemma code_points_app (a b : string) :
  code_points (a ++ b) = code_points a ++ code_points b.
Proof.
  unfold code_points. induction a as [|c a IH]; [reflexivity|].
  cbn [append list_ascii_of_string map app]. rewrite IH. reflexivity.
Qed.

Lemma lower_app (a b : string) : lower (a ++ b) = (lower a ++ lower b)%string.
Proof.
  induction a as [|c a IH]; [reflexivity|].
  cbn [append lower]. rewrite IH. reflexivity.
Qed.

Lemma capitalized_snoc (cur : string) (c : ascii) :
  cur <> EmptyString ->
  capitalized (cur ++ chr1 c)
  = capitalized cur ++ [small_of (nat_of_ascii c)].
Proof.
  destruct cur as [|a r]; [congruence|]. intros _.
  change (String a r ++ chr1 c)%string with (String a (r ++ chr1 c)).
  cbn [capitalized]. rewrite lower_app, code_points_app, <- app_assoc.
  do 2 f_equal. unfold chr1 at 1. cbn [lower code_points list_ascii_of_string map].
  rewrite lower_char_table. reflexivity.
Qed.

Lemma append_chr1_nonempty (cur : string) (c : ascii) :
  (cur ++ chr1 c)%string <> EmptyString.
Proof. destruct cur; discriminate. Qed.

(** Splitting at the underscores and capitalising each piece is the one-pass
    reading of the key; [cur] is the piece under construction. *)
Lemma capitalized_pieces_scan (s : string) :
  forall cur,
    concat (map capitalized (split_from "_" 0 cur s))
    = match cur with
      | EmptyString => camel_scan true s
      | _ => capitalized cur ++ camel_scan false s
      end.
Proof.
  induction s as [|c s IH]; intros cur.
  - cbn [split_from map concat camel_scan]. rewrite !app_nil_r.
    destruct cur; reflexivity.
  - cbn [camel_scan]. destruct (Ascii.eqb c "_") eqn:Ec.
    + apply Ascii.eqb_eq in Ec. subst c.
      rewrite split_from_underscore_head. cbn [map concat].
      rewrite (IH EmptyString). destruct cur; reflexivity.
    + assert (Hp : String.prefix "_" (String c s) = false).
      { cbn [String.prefix]. destruct (ascii_dec "_" c) as [E|E]; [|reflexivity].
        subst c. discriminate. }
      cbn [split_from]. rewrite Hp, (IH (cur ++ chr1 c)%string).
      pose proof (append_chr1_nonempty cur c) as Hne.
      destruct (cur ++ chr1 c)%string as [|a r] eqn:E; [congruence|].
      rewrite <- E. destruct cur as [|a0 r0].
      * cbn [append chr1 capitalized upper lower code_points
             list_ascii_of_string map].
        rewrite upper_char_table, !app_nil_r. reflexivity.
      * rewrite capitalized_snoc by discriminate.
        rewrite <- app_assoc. reflexivity.
Qed.

Lemma big_camel_case_pieces (text : string) :
  concat (map capitalized (segments text)) = big_camel_case text.
Proof. apply (capitalized_pieces_scan text EmptyString). Qed.

(** [to_big_camel_case] fails exactly on the keys with an empty piece. *)
Lemma to_big_camel_case_cases text :
  to_big_camel_case text =
  if has_empty_segment text then Raise IndexError else Ok (big_camel_case text).
Proof.
  unfold to_big_camel_case. simpl.
  fold (segments text).
  destruct (has_empty_segment text) eqn:E.
  - apply has_empty_segment_In in E.
    rewrite (capitalize_words_empty _ E). reflexivity.
  - rewrite capitalize_words_total.
    + simpl. rewrite big_camel_case_pieces. reflexivity.
    + intros H. apply has_empty_segment_In in H. congruence.
Qed.

Lemma camel_case_items_total items :
  forall out,
    (forall key, In key (od_keys items) -> has_empty_segment key = false) ->
    camel_case_items items out
    = Ok (fold_left
            (fun out kv => wd_set (big_camel_case (fst kv)) (snd kv) out)
            items out).
Proof.
  induction items as [|[k v] items IH]; intros out H; [reflexivity|].
  simpl. rewrite to_big_camel_case_cases, (H k (or_introl eq_refl)). simpl.
  apply IH. intros key Hk. apply H. right. exact Hk.
Qed.

Lemma camel_case_items_partial items :
  forall out key,
    In key (od_keys items) -> has_empty_segment key = true ->
    camel_case_items items out = Raise IndexError.
Proof.
  induction items as [|[k v] items IH]; intros out key Hin He; [destruct Hin|].
  simpl. rewrite to_big_camel_case_cases.
  destruct (has_empty_segment k) eqn:Ek; [reflexivity|].
  simpl. destruct Hin as [Heq | Hin].
  - simpl in Heq. subst k. congruence.
  - eapply IH; eauto.
Qed.

(** The four shapes of a key with an empty piece. *)
Lemma segments_trailing s :
  forall cur, In EmptyString (split_from "_" 0 cur (s ++ "_")).
Proof.
  induction s as [|c s IH]; intros cur.
  - simpl. right. left. reflexivity.
  - cbn [append split_from].
    destruct (String.prefix "_" (String c (s ++ "_"))).
    + right. apply IH.
    + apply IH.
Qed.

Lemma segments_doubled s t :
  forall cur, In EmptyString (split_from "_" 0 cur (s ++ "__" ++ t)).
Proof.
  induction s as [|c s IH]; intros cur.
  - cbn [append]. rewrite !split_from_underscore_head.
    apply in_cons, in_eq.
  - change (String c s ++ "__" ++ t)%string with (String c (s ++ "__" ++ t)).
    cbn [split_from].
    destruct (String.prefix "_" (String c (s ++ "__" ++ t))).
    + right. apply IH.
    + apply IH.
Qed.

Lemma empty_segment_shapes (s t : string) :
  has_empty_segment EmptyString = true
  /\ has_empty_segment ("_" ++ s) = true
  /\ has_empty_segment (s ++ "_") = true
  /\ has_empty_segment (s ++ "__" ++ t) = true.
Proof.
  split; [|split; [|split]]; apply has_empty_segment_In; unfold segments.
  - simpl. left. reflexivity.
  - cbn [append]. rewrite split_from_underscore_head. apply in_eq.
  - apply segments_trailing.
  - apply segments_doubled.
Qed.

(** C10. [to_cloudformation_config_data] is partial. When the exported dict
    has a key with an empty underscore-separated piece (the empty key, a
    leading or trailing underscore, two underscores in a row) the call raises
    [IndexError] instead of returning a dict; when every key has only
    non-empty pieces it returns the dict with each key in CamelCase: the
    underscores dropped, the character at the start and after each
    underscore in upper case and every other character in lower case, the
    two cases of a letter being those of the table [case_pairs] and
    [special_capitals] of the letters below 256. *)
Theorem to_cloudformation_config_data_partial :
  forall (self : ConfigObj) (st : Store) (dct : list (string * PyVal)),
    to_dict self true false st = Ok dct ->
    (forall key,
        In key (od_keys dct) -> has_empty_segment key = true ->
        to_cloudformation_config_data self st = Raise IndexError)
    /\ ((forall key, In key (od_keys dct) -> has_empty_segment key = false) ->
        to_cloudformation_config_data self st = Ok (camel_case_dict dct))
    /\ (forall text,
          to_big_camel_case text =
          if has_empty_segment text then Raise IndexError
          else Ok (big_camel_case text))
    /\ (forall s t,
          has_empty_segment EmptyString = true
          /\ has_empty_segment ("_" ++ s) = true
          /\ has_empty_segment (s ++ "_") = true
          /\ has_empty_segment (s ++ "__" ++ t) = true).
Proof.
  intros self st dct Hd. unfold to_cloudformation_config_data. rewrite Hd. simpl.
  split; [|split; [|split]].
  - intros key Hin He. eapply camel_case_items_partial; eauto.
  - intros H. unfold camel_case_dict, OrderedDict.
    apply camel_case_items_total. exact H.
  - apply to_big_camel_case_cases.
  - apply empty_segment_shapes.
Qed.

Lemma to_cloudformation_config_data_partial_witness :
  to_dict demo1 true false st_demo1
  = Ok [("project_name", VStr "app"); ("owner", VInt 1)]
  /\ to_cloudformation_config_data demo1 st_demo1
     = Ok [(code_points "ProjectName", VStr "app");
           (code_points "Owner", VInt 1)].
Proof.
  assert (H : to_dict demo1 true false st_demo1
              = Ok [("project_name", VStr "app"); ("owner", VInt 1)])
    by reflexivity.
  split; [exact H|].
  destruct (to_cloudformation_config_data_partial demo1 st_demo1 _ H)
    as [_ [Htotal _]].
  rewrite Htotal; [reflexivity|].
  intros key [<- | [<- | []]]; reflexivity.
Defined.

Example to_cloudformation_leading_underscore :
  to_dict private1 true false st_private1 = Ok [("_region", VNone)]
  /\ to_cloudformation_config_data private1 st_private1 = Raise IndexError.
Proof. split; reflexivity. Qed.

Example to_big_camel_case_examples :
  to_big_camel_case "project_name" = Ok (code_points "ProjectName")
  /\ to_big_camel_case "s3_bucket_name" = Ok (code_points "S3BucketName")
  /\ to_big_camel_case "stage" = Ok (code_points "Stage")
  /\ to_big_camel_case "aWS_REGION" = Ok (code_points "AwsRegion")
  /\ to_big_camel_case EmptyString = Raise IndexError
  /\ to_big_camel_case "a__b" = Raise IndexError
  /\ to_big_camel_case "name_" = Raise IndexError.
Proof. repeat split. Qed.

(** Keys with letters beyond [a] to [z]: an e with acute accent (233) gets
    its capital (201), a capital in the rest of a word is lowered (201 to
    233), the sharp s (223) at the head of a word becomes two capital S, and
    the capital of the y with diaeresis (255) is the code point 376. *)
Example to_big_camel_case_latin1 :
  to_big_camel_case (String "233" "cole")
  = Ok (201 :: code_points "cole")
  /\ to_big_camel_case (String "c" (String "201" "_t"))
     = Ok [67; 233; 84]
  /\ to_big_camel_case (String "223" "a") = Ok [83; 83; 97]
  /\ to_big_camel_case (String "255" EmptyString) = Ok [376].
Proof. repeat split. Qed.

End CamelCase.

(* ===================================================================== *)
(** ** Properties of ordered dictionaries *)
(* ===================================================================== *)

Module ODictFacts.
Import ODict.

Section WithValues.
Context {V : Type}.
Implicit Types (d : list (string * V)) (k : string) (v : V).

Lemma od_get_set_same k v d : od_get k (od_set k v d) = Some v.
Proof.
  induction d as [|[k' v'] d IH]; simpl.
  - rewrite String.eqb_refl. reflexivity.
  - destruct (String.eqb k' k) eqn:E; simpl; rewrite E; auto.
Qed.

Lemma od_get_set_other k k' v d :
  k <> k' -> od_get k (od_set k' v d) = od_get k d.
Proof.
  intros Hne. induction d as [|[k0 v0] d IH]; simpl.
  - destruct (String.eqb k' k) eqn:E; [|reflexivity].
    apply String.eqb_eq in E. congruence.
  - destruct (String.eqb k0 k') eqn:E; simpl.
    + apply String.eqb_eq in E. subst k0.
      destruct (String.eqb k' k) eqn:E'; [|reflexivity].
      apply String.eqb_eq in E'. congruence.
    + rewrite IH. reflexivity.
Qed.

Lemma od_contains_In k d : od_contains k d = true <-> In k (od_keys d).
Proof.
  unfold od_contains. induction d as [|[k' v'] d IH]; simpl.
  - split; [discriminate | tauto].
  - destruct (String.eqb k' k) eqn:E.
    + apply String.eqb_eq in E. split; auto.
    + apply String.eqb_neq in E. rewrite IH. split; [auto|].
      intros [H | H]; [contradiction | exact H].
Qed.

Lemma od_contains_false k d : od_contains k d = false <-> ~ In k (od_keys d).
Proof.
  rewrite <- od_contains_In. destruct (od_contains k d); split; congruence.
Qed.

Lemma od_contains_set_same k v d : od_contains k (od_set k v d) = true.
Proof. unfold od_contains. rewrite od_get_set_same. reflexivity. Qed.

Lemma od_contains_set_other k k' v d :
  k <> k' -> od_contains k (od_set k' v d) = od_contains k d.
Proof. intros H. unfold od_contains. rewrite od_get_set_other; auto. Qed.


Lemma od_get_In k v d : od_get k d = Some v -> In (k, v) d.
Proof.
  induction d as [|[k' v'] d IH]; simpl; [discriminate|].
  destruct (String.eqb k' k) eqn:E.
  - apply String.eqb_eq in E. intros H. inversion H; subst. left. reflexivity.
  - intros H. right. apply IH. exact H.
Qed.

Lemma In_od_get k v d :
  NoDup (od_keys d) -> In (k, v) d -> od_get k d = Some v.
Proof.
  induction d as [|[k' v'] d IH]; simpl; intros Hnd Hin; [destruct Hin|].
  inversion Hnd as [|? ? Hnotin Hnd']; subst.
  destruct Hin as [Heq | Hin].
  - inversion Heq; subst. rewrite String.eqb_refl. reflexivity.
  - destruct (String.eqb k' k) eqn:E.
    + apply String.eqb_eq in E. subst k'. exfalso. apply Hnotin.
      apply (in_map fst) in Hin. exact Hin.
    + apply IH; assumption.
Qed.

(** Setting a key keeps the order of the keys: an existing key stays where
    it is, a new one is added at the end. *)
Lemma od_keys_set k v d :
  od_keys (od_set k v d) = if od_contains k d then od_keys d else od_keys d ++ [k].
Proof.
  unfold od_contains, od_keys.
  induction d as [|[k' v'] d IH]; simpl; [reflexivity|].
  destruct (String.eqb k' k) eqn:E; simpl; [reflexivity|].
  rewrite IH. destruct (od_get k d); reflexivity.
Qed.

Lemma od_set_NoDup k v d : NoDup (od_keys d) -> NoDup (od_keys (od_set k v d)).
Proof.
  intros H. rewrite od_keys_set. destruct (od_contains k d) eqn:E; [exact H|].
  apply od_contains_false in E.
  apply NoDup_app; [exact H | repeat constructor; simpl; tauto |].
  intros x Hx [<- | []]. contradiction.
Qed.

Lemma od_update_NoDup pairs :
  forall d, NoDup (od_keys d) -> NoDup (od_keys (od_update d pairs)).
Proof.
  unfold od_update.
  induction pairs as [|[k v] pairs IH]; intros d H; simpl; [exact H|].
  apply IH. apply od_set_NoDup. exact H.
Qed.

Lemma OrderedDict_NoDup (pairs : list (string * V)) :
  NoDup (od_keys (OrderedDict pairs)).
Proof. apply od_update_NoDup. constructor. Qed.

Lemma od_update_app d p1 p2 :
  od_update d (p1 ++ p2) = od_update (od_update d p1) p2.
Proof. unfold od_update. apply fold_left_app. Qed.

Lemma In_od_set k v k0 v0 d :
  In (k, v) (od_set k0 v0 d) -> In (k, v) d \/ (k, v) = (k0, v0).
Proof.
  induction d as [|[k' v'] d IH]; simpl.
  - intros [H | []]. right. congruence.
  - destruct (String.eqb k' k0) eqn:E; simpl.
    + apply String.eqb_eq in E. subst k'.
      intros [H | H]; [right; congruence | left; right; exact H].
    + intros [H | H]; [left; left; exact H|].
      destruct (IH H) as [H' | H']; [left; right; exact H' | right; exact H'].
Qed.

Lemma In_od_update pairs :
  forall d k v, In (k, v) (od_update d pairs) -> In (k, v) d \/ In (k, v) pairs.
Proof.
  unfold od_update.
  induction pairs as [|[k0 v0] pairs IH]; intros d k v H; simpl in *; [auto|].
  destruct (IH _ _ _ H) as [H' | H']; [|right; right; exact H'].
  destruct (In_od_set _ _ _ _ _ H') as [H'' | H'']; [left; exact H''|].
  right. left. symmetry. exact H''.
Qed.

Lemma In_OrderedDict (pairs : list (string * V)) k v :
  In (k, v) (OrderedDict pairs) -> In (k, v) pairs.
Proof.
  intros H. destruct (In_od_update pairs [] k v H) as [[] | H']. exact H'.
Qed.

End WithValues.

End ODictFacts.

(* ===================================================================== *)
(** ** [to_dict] and the fields kept out of a dump *)
(* ===================================================================== *)

Module DumpClaims.
Import Fields ODict Registry Config Scenario ODictFacts.

Lemma is_DontDumpError_true e : is_DontDumpError e = true <-> e = DontDumpError.
Proof. destruct e; simpl; split; congruence. Qed.

Lemma is_DontDumpError_false e : is_DontDumpError e = false <-> e <> DontDumpError.
Proof. destruct e; simpl; split; congruence. Qed.

(** One round of the loop of [to_dict], with the two [except] clauses told
    apart by [is_DontDumpError]. *)
Lemma to_dict_items_cons cdd cp st attr field items dct :
  to_dict_items cdd cp st ((attr, field) :: items) dct =
  match get_value field cdd cp st with
  | Ok v => to_dict_items cdd cp st items (od_set attr v dct)
  | Raise e =>
      if is_DontDumpError e then to_dict_items cdd cp st items dct else Raise e
  end.
Proof.
  simpl. destruct (get_value field cdd cp st) as [v|e]; [reflexivity|].
  destruct e; reflexivity.
Qed.

Section Loop.
Variables (cdd cp : bool) (st : Store).






(** Any other failure of [get_value] aborts the dump. *)
Lemma to_dict_items_abort items :
  forall dct name r e,
    In (name, r) items ->
    get_value r cdd cp st = Raise e ->
    e <> DontDumpError ->
    exists e', to_dict_items cdd cp st items dct = Raise e' /\ e' <> DontDumpError.
Proof.
  induction items as [|[a f] items IH]; intros dct name r e Hin Hg He;
    [destruct Hin|].
  rewrite to_dict_items_cons. destruct Hin as [Heq | Hin].
  - inversion Heq; subst a f. rewrite Hg.
    apply is_DontDumpError_false in He. rewrite He.
    exists e. split; [reflexivity | apply is_DontDumpError_false; exact He].
  - destruct (get_value f cdd cp st) as [v|e0].
    + eapply IH; eauto.
    + destruct (is_DontDumpError e0) eqn:E.
      * eapply IH; eauto.
      * exists e0. split; [reflexivity | apply is_DontDumpError_false; exact E].
Qed.

End Loop.







End DumpClaims.

(* ===================================================================== *)
(** ** The registries of a class built by the metaclass *)
(* ===================================================================== *)

Module KlassFacts.
Import Fields ODict Registry Config ODictFacts FieldFacts.

Section Built.
Variables (st0 : Store) (mro_tail : list ClassObj) (attrs : list (string * Attr)).
Let cls := ConfigMeta_new st0 mro_tail attrs.

Lemma declared_fields_NoDup : NoDup (od_keys (_declared_fields cls)).
Proof. apply OrderedDict_NoDup. Qed.

Lemma fields_of_class_In c name r :
  od_get name (OrderedDict (fields_of_class c (_declared_fields cls))) = Some r ->
  In (name, r) (_declared_fields cls) /\ isinstance (ref_class r) c = true.
Proof.
  intros H. apply od_get_In, In_OrderedDict in H.
  unfold fields_of_class in H. apply filter_In in H. exact H.
Qed.

Lemma constant_fields_Constant name r :
  od_get name (_constant_fields cls) = Some r ->
  In (name, r) (_declared_fields cls) /\ ref_class r = Constant.
Proof.
  intros H. apply fields_of_class_In in H. destruct H as [Hin Hc].
  split; [exact Hin|]. simpl in Hc. apply FieldClass_eqb_eq. exact Hc.
Qed.

Lemma deriable_fields_Derivable name r :
  od_get name (_deriable_fields cls) = Some r ->
  In (name, r) (_declared_fields cls) /\ ref_class r = Derivable.
Proof.
  intros H. apply fields_of_class_In in H. destruct H as [Hin Hc].
  split; [exact Hin|]. simpl in Hc. apply FieldClass_eqb_eq. exact Hc.
Qed.

(** A name of the derivable registry is not a name of the constant one. *)
Lemma deriable_name_not_constant name r :
  od_get name (_deriable_fields cls) = Some r ->
  od_get name (_constant_fields cls) = None.
Proof.
  intros Hd. apply deriable_fields_Derivable in Hd. destruct Hd as [Hin Hc].
  destruct (od_get name (_constant_fields cls)) as [f|] eqn:E; [|reflexivity].
  apply constant_fields_Constant in E. destruct E as [Hin' Hc'].
  pose proof (In_od_get _ _ _ declared_fields_NoDup Hin) as G1.
  pose proof (In_od_get _ _ _ declared_fields_NoDup Hin') as G2.
  rewrite G1 in G2. inversion G2; subst f. congruence.
Qed.

End Built.

End KlassFacts.

(* ===================================================================== *)
(** ** Construction, [from_dict] and [update] on the shared store *)
(* ===================================================================== *)

Module InstanceFacts.
Import Fields ODict Registry Config Reference ODictFacts FieldFacts KlassFacts.

(** *** [__init__] without keywords *)

Lemma init_fields_no_keywords self items :
  forall st, init_fields self [] items st = (Ok tt, bind_all self items st).
Proof.
  induction items as [|[n f] items IH]; intros st; [reflexivity|].
  simpl. unfold bind at 1. unfold bind at 1. unfold ret at 1.
  unfold set_config_object at 1. apply IH.
Qed.

Lemma bind_all_other_attrs self items r :
  forall st,
    with_config_object (bind_all self items st r) None
    = with_config_object (st r) None.
Proof.
  unfold bind_all.
  induction items as [|[n f] items IH]; intros st; [reflexivity|].
  simpl. rewrite IH. destruct (FieldRef_eq_dec r f) as [-> | Hne].
  - rewrite store_set_same. reflexivity.
  - rewrite store_set_other; auto.
Qed.

Lemma bind_all_keeps_bound self items r :
  forall st,
    _config_object (st r) = Some self ->
    _config_object (bind_all self items st r) = Some self.
Proof.
  unfold bind_all.
  induction items as [|[n f] items IH]; intros st H; [exact H|].
  simpl. apply IH. destruct (FieldRef_eq_dec r f) as [-> | Hne].
  - rewrite store_set_same. reflexivity.
  - rewrite store_set_other; auto.
Qed.

Lemma bind_all_binds self items name r :
  forall st,
    In (name, r) items -> _config_object (bind_all self items st r) = Some self.
Proof.
  induction items as [|[n f] items IH]; intros st Hin; [destruct Hin|].
  destruct Hin as [Heq | Hin].
  - inversion Heq; subst n f. unfold bind_all. simpl.
    apply (bind_all_keeps_bound self items r). rewrite store_set_same. reflexivity.
  - unfold bind_all. simpl. apply (IH _ Hin).
Qed.

(** *** The loop of [from_dict] and [update] *)

Section Constants.
Variable constant_fields : list (string * FieldRef).
Hypothesis all_Constant :
  forall k f, od_get k constant_fields = Some f -> ref_class f = Constant.

Lemma set_constants_total items :
  forall st,
    set_constants constant_fields items st
    = (Ok tt, apply_constants constant_fields items st).
Proof.
  unfold apply_constants.
  induction items as [|[k v] items IH]; intros st; [reflexivity|].
  simpl. unfold bind at 1.
  destruct (od_get k constant_fields) as [f|] eqn:E.
  - rewrite (set_value_Constant f v st (all_Constant _ _ E)). apply IH.
  - unfold ret at 1. apply IH.
Qed.

End Constants.

Lemma apply_constants_filter cf items :
  forall st,
    apply_constants cf (filter (fun kv => od_contains (fst kv) cf) items) st
    = apply_constants cf items st.
Proof.
  unfold apply_constants.
  induction items as [|[k v] items IH]; intros st; [reflexivity|].
  simpl. unfold od_contains at 1.
  destruct (od_get k cf) as [f|] eqn:E; simpl.
  - rewrite E. apply IH.
  - apply IH.
Qed.

Lemma apply_constants_app cf pre post st :
  apply_constants cf (pre ++ post) st
  = apply_constants cf post (apply_constants cf pre st).
Proof. unfold apply_constants. apply fold_left_app. Qed.

Lemma apply_constants_skip cf key v pre post st :
  od_get key cf = None ->
  apply_constants cf (pre ++ (key, v) :: post) st
  = apply_constants cf (pre ++ post) st.
Proof.
  intros H. rewrite !apply_constants_app.
  unfold apply_constants at 1. simpl. rewrite H. reflexivity.
Qed.

(** Only the [value] attribute is written. *)
Lemma apply_constants_other_attrs cf items r :
  forall st,
    with_value (apply_constants cf items st r) VNone = with_value (st r) VNone.
Proof.
  unfold apply_constants.
  induction items as [|[k v] items IH]; intros st; [reflexivity|].
  simpl. rewrite IH. destruct (od_get k cf) as [f|]; [|reflexivity].
  destruct (FieldRef_eq_dec r f) as [-> | Hne].
  - rewrite store_set_same. reflexivity.
  - rewrite store_set_other; auto.
Qed.

(** A field no key of the mapping names through the constant registry is
    left as it was. *)
Lemma apply_constants_frame cf items r :
  forall st,
    (forall k v, In (k, v) items -> od_get k cf <> Some r) ->
    apply_constants cf items st r = st r.
Proof.
  unfold apply_constants.
  induction items as [|[k v] items IH]; intros st H; [reflexivity|].
  simpl. rewrite IH.
  - destruct (od_get k cf) as [f|] eqn:E; [|reflexivity].
    apply store_set_other. intros ->. apply (H k v); [left; reflexivity | exact E].
  - intros k' v' Hin. apply (H k' v'). right. exact Hin.
Qed.

(** *** [__init__] with keywords *)

(** One round of the constructor loop that does not raise: the field is
    bound to [self], it holds the keyword value if there is one, its getter
    is the one it had, and no other field is touched. *)
Lemma init_fields_round self kwargs n f items st st' :
  init_fields self kwargs ((n, f) :: items) st = (Ok tt, st') ->
  exists st1,
    init_fields self kwargs items st1 = (Ok tt, st')
    /\ _config_object (st1 f) = Some self
    /\ (forall r, r <> f -> st1 r = st r)
    /\ (forall w, od_get n kwargs = Some w -> value (st1 f) = w)
    /\ (forall r, _getter_method (st1 r) = _getter_method (st r)).
Proof.
  simpl. unfold bind at 1. unfold bind at 1.
  destruct (od_get n kwargs) as [w|].
  - destruct (set_value_cases f w st) as [[_ ->] | [_ ->]]; [|discriminate].
    unfold set_config_object at 1. intros H.
    eexists. split; [exact H|]. repeat split.
    + rewrite store_set_same. reflexivity.
    + intros r Hr. rewrite !store_set_other; auto.
    + intros w' Hw. inversion Hw; subst w'. rewrite !store_set_same. reflexivity.
    + intros r. destruct (FieldRef_eq_dec r f) as [-> | Hne].
      * rewrite !store_set_same. reflexivity.
      * rewrite !store_set_other; auto.
  - unfold ret at 1. unfold set_config_object at 1. intros H.
    eexists. split; [exact H|]. repeat split.
    + rewrite store_set_same. reflexivity.
    + intros r Hr. rewrite store_set_other; auto.
    + intros w Hw. discriminate.
    + intros r. destruct (FieldRef_eq_dec r f) as [-> | Hne].
      * rewrite store_set_same. reflexivity.
      * rewrite store_set_other; auto.
Qed.

Lemma init_fields_frame self kwargs items r :
  forall st st',
    ~ In r (map snd items) ->
    init_fields self kwargs items st = (Ok tt, st') ->
    st' r = st r.
Proof.
  induction items as [|[n f] items IH]; intros st st' Hn H.
  - inversion H. reflexivity.
  - apply init_fields_round in H. destruct H as [st1 [H [_ [Hother _]]]].
    simpl in Hn. rewrite (IH st1 st'); [|tauto|exact H].
    apply Hother. intros ->. tauto.
Qed.

Lemma init_fields_getter self kwargs items r :
  forall st st',
    init_fields self kwargs items st = (Ok tt, st') ->
    _getter_method (st' r) = _getter_method (st r).
Proof.
  induction items as [|[n f] items IH]; intros st st' H.
  - inversion H. reflexivity.
  - apply init_fields_round in H. destruct H as [st1 [H [_ [_ [_ Hg]]]]].
    rewrite (IH st1 st' H). apply Hg.
Qed.

Lemma init_fields_keeps_bound self kwargs items r :
  forall st st',
    init_fields self kwargs items st = (Ok tt, st') ->
    _config_object (st r) = Some self ->
    _config_object (st' r) = Some self.
Proof.
  induction items as [|[n f] items IH]; intros st st' H Hb.
  - inversion H; subst. exact Hb.
  - apply init_fields_round in H. destruct H as [st1 [H [Hf [Hother _]]]].
    apply (IH st1 st' H). destruct (FieldRef_eq_dec r f) as [-> | Hne].
    + exact Hf.
    + rewrite Hother; auto.
Qed.

Lemma init_fields_binds self kwargs items name r :
  forall st st',
    In (name, r) items ->
    init_fields self kwargs items st = (Ok tt, st') ->
    _config_object (st' r) = Some self.
Proof.
  induction items as [|[n f] items IH]; intros st st' Hin H; [destruct Hin|].
  apply init_fields_round in H. destruct H as [st1 [H [Hf _]]].
  destruct Hin as [Heq | Hin].
  - inversion Heq; subst n f. eapply init_fields_keeps_bound; eauto.
  - eapply IH; eauto.
Qed.

Lemma init_fields_value self kwargs items name r v :
  forall st st',
    NoDup (map snd items) ->
    In (name, r) items ->
    od_get name kwargs = Some v ->
    init_fields self kwargs items st = (Ok tt, st') ->
    value (st' r) = v.
Proof.
  induction items as [|[n f] items IH]; intros st st' Hnd Hin Hk H;
    [destruct Hin|].
  apply init_fields_round in H. destruct H as [st1 [H [_ [_ [Hv _]]]]].
  simpl in Hnd. inversion Hnd as [|? ? Hnotin Hnd']; subst.
  destruct Hin as [Heq | Hin].
  - inversion Heq; subst n f.
    rewrite (init_fields_frame _ _ _ _ _ _ Hnotin H). apply Hv. exact Hk.
  - eapply IH; eauto.
Qed.

Lemma construct_Ok cls new_id kwargs st b st' :
  construct cls new_id kwargs st = (Ok b, st') ->
  b = mkConfig new_id cls
  /\ init_fields new_id kwargs (_declared_fields cls) st = (Ok tt, st').
Proof.
  unfold construct, BaseConfigClass_init, bind, ret. simpl.
  destruct (init_fields new_id kwargs (_declared_fields cls) st) as [[[]|e] st1];
    intros H; inversion H; subst. split; reflexivity.
Qed.

(** The identity of the instance given to [validate] plays no part. *)
Lemma validate_deriables_any_instance a_id b_id items st :
  validate_deriables a_id items st = validate_deriables b_id items st.
Proof.
  induction items as [|[n f] items IH]; [reflexivity|].
  simpl. rewrite IH. unfold call_validate1. destruct (ref_class f); reflexivity.
Qed.

(** [from_dict] on a class whose constant registry holds constants: it
    returns, and its effect on the store is that of binding every declared
    field and then storing the values of the mapping. *)
Lemma from_dict_total cls new_id dct st :
  (forall k f, od_get k (_constant_fields cls) = Some f -> ref_class f = Constant) ->
  from_dict cls new_id dct st
  = (Ok (mkConfig new_id cls),
     apply_constants (_constant_fields cls) dct
                     (bind_all new_id (_declared_fields cls) st)).
Proof.
  intros Hc. unfold from_dict, construct, BaseConfigClass_init. simpl.
  unfold bind at 1. unfold bind at 1.
  rewrite init_fields_no_keywords. unfold ret at 1. simpl.
  unfold bind. rewrite (set_constants_total _ Hc). reflexivity.
Qed.

End InstanceFacts.

Module InstanceClaims.
Import Fields ODict Registry Config Reference Scenario.
Import ODictFacts FieldFacts KlassFacts InstanceFacts.

(** C1 as stated fails. Instance 1 is made with [project_name=app]; making
    instance 2 with [project_name=web], or [from_dict] for instance 3, or
    [update] on instance 2, changes what instance 1 holds, and the getter of
    its derivable field [owner] then receives the other instance. *)
Lemma construction_rebinds_earlier_instance :
  to_dict demo1 false false st_demo1
  = Ok [("project_name", VStr "app"); ("password", VNone); ("owner", VInt 1)]
  /\ to_dict demo1 false false st_demo2
     = Ok [("project_name", VStr "web"); ("password", VNone); ("owner", VInt 2)]
  /\ to_dict demo1 false false
       (snd (from_dict Demo 3 [("project_name", VStr "api")] st_demo1))
     = Ok [("project_name", VStr "api"); ("password", VNone); ("owner", VInt 3)]
  /\ to_dict demo1 false false
       (snd (update demo2 [("password", VStr "pw")] st_demo2))
     = Ok [("project_name", VStr "web"); ("password", VStr "pw");
           ("owner", VInt 2)].
Proof. repeat split. Qed.

End InstanceClaims.

(* ===================================================================== *)
(** ** [validate] *)
(* ===================================================================== *)

Module ValidateClaims.
Import Fields ODict Registry Config Reference Scenario FieldFacts.

(** A bound field without getter is validated with its own value. *)
Lemma Constant_validate_as_specified r st :
  _config_object (st r) <> None ->
  _getter_method (st r) = None ->
  Constant_validate r st = check_constant_as_specified r st.
Proof.
  intros Hb Hg. unfold Constant_validate, check_constant_as_specified, get_value.
  destruct (_config_object (st r)); [|congruence].
  simpl. rewrite Hg. reflexivity.
Qed.

(** A derivable field bound to the instance and not marked [dont_dump] is
    validated with its computed value. *)
Lemma Derivable_validate_as_specified r config_instance st :
  _config_object (st r) = Some config_instance ->
  dont_dump (st r) = false ->
  Derivable_validate r config_instance st
  = check_derivable_as_specified r config_instance st.
Proof.
  intros Hb Hd.
  unfold Derivable_validate, check_derivable_as_specified, computed_value, get_value.
  rewrite Hb, Hd. simpl. destruct (_getter_method (st r)); reflexivity.
Qed.

(** A bound derivable field marked [dont_dump] is never validated: the
    instance sits in the place of [check_dont_dump]. *)
Lemma Derivable_validate_dont_dump r config_instance c st :
  _config_object (st r) = Some c ->
  dont_dump (st r) = true ->
  Derivable_validate r config_instance st = Raise DontDumpError.
Proof.
  intros Hb Hd. unfold Derivable_validate, get_value. rewrite Hb, Hd. reflexivity.
Qed.

Lemma validate_constants_as_specified items st :
  (forall n r, In (n, r) items ->
               ref_class r = Constant /\ _config_object (st r) <> None
               /\ _getter_method (st r) = None) ->
  validate_constants items st = check_all check_constant_as_specified items st.
Proof.
  induction items as [|[n f] items IH]; intros H; [reflexivity|].
  simpl. destruct (H n f (or_introl eq_refl)) as [Hc [Hb Hg]].
  unfold call_validate0. rewrite Hc, (Constant_validate_as_specified f st Hb Hg).
  rewrite IH; [reflexivity|]. intros n' r' Hin. apply (H n' r'). right. exact Hin.
Qed.

Lemma validate_deriables_as_specified self items st :
  (forall n r, In (n, r) items ->
               ref_class r = Derivable /\ _config_object (st r) = Some self
               /\ dont_dump (st r) = false) ->
  validate_deriables self items st
  = check_all (fun r => check_derivable_as_specified r self) items st.
Proof.
  induction items as [|[n f] items IH]; intros H; [reflexivity|].
  simpl. destruct (H n f (or_introl eq_refl)) as [Hc [Hb Hd]].
  unfold call_validate1.
  rewrite Hc, (Derivable_validate_as_specified f self st Hb Hd).
  rewrite IH; [reflexivity|]. intros n' r' Hin. apply (H n' r'). right. exact Hin.
Qed.

(** Where no derivable field is marked [dont_dump], [validate] does what the
    specification says. *)
Lemma validate_as_specified_without_dont_dump self st :
  (forall n r, In (n, r) (_constant_fields (self_class self)) ->
               ref_class r = Constant /\ _config_object (st r) <> None
               /\ _getter_method (st r) = None) ->
  (forall n r, In (n, r) (_deriable_fields (self_class self)) ->
               ref_class r = Derivable /\ _config_object (st r) = Some (self_id self)
               /\ dont_dump (st r) = false) ->
  validate self st = validate_as_specified self st.
Proof.
  intros Hc Hd. unfold validate, validate_as_specified.
  rewrite (validate_constants_as_specified _ st Hc).
  rewrite (validate_deriables_as_specified _ _ st Hd). reflexivity.
Qed.

(** C4 at the failing input. [WithToken] declares the derivable field
    [token] with [dont_dump=True]; its getter returns the password and its
    validator accepts every value. The specified [validate] checks the
    computed value and returns; the code raises [DontDumpError] from
    [get_value] before any validator of [token] is called. *)
Theorem validate_skips_dont_dump_derivable :
  computed_value token (self_id with_token1) st_with_token1 = Ok (VStr "pw")
  /\ _validate_method (st_with_token1 token) (VStr "pw") = Ok (VBool true)
  /\ validate_as_specified with_token1 st_with_token1 = Ok tt
  /\ validate with_token1 st_with_token1 = Raise DontDumpError.
Proof. repeat split. Qed.

End ValidateClaims.

(* ===================================================================== *)
(** ** Comment stripping on lines with an empty string *)
(* ===================================================================== *)

Module CommentClaims.
Import PyText Comments Scenario.

(** The closing quote of an empty string is not counted: the pattern needs a
    character in front of a quote, and the opening quote is already part of
    the previous match. *)
Example count_quotes_empty_string :
  count_quotes (q ++ q) = 1 /\ count_quotes (q ++ "a" ++ q) = 2.
Proof. split; reflexivity. Qed.

(** C2 at the failing input. The line [line_empty_string_comment] (an object
    whose member [a] is the empty string, then [# c]) is well-formed JSON
    followed by a comment outside any string; with either order of the two
    symbols [strip_comments] returns it with the comment still in place, and
    not the comment-free text. *)
Theorem strip_comments_keeps_comment_after_empty_string :
  strip_comments line_empty_string_comment default_symbols_hash_first
  = Ok line_empty_string_comment
  /\ strip_comments line_empty_string_comment default_symbols_slash_first
     = Ok line_empty_string_comment
  /\ line_empty_string_comment <> line_empty_string_plain
  /\ strip_comments line_empty_string_plain default_symbols_hash_first
     = Ok line_empty_string_plain.
Proof.
  split; [reflexivity|]. split; [reflexivity|]. split; [|reflexivity].
  vm_compute. discriminate.
Qed.

(** C8 at the failing input. In the line [line_hash_in_string] (an array of
    the empty string and the string [#]) the [#] is inside the second
    string; with either order of the two symbols [strip_comments] cuts the
    line at that [#], inside the string. *)
Theorem strip_comments_truncates_inside_string :
  strip_comments line_hash_in_string default_symbols_hash_first
  = Ok line_hash_in_string_cut
  /\ strip_comments line_hash_in_string default_symbols_slash_first
     = Ok line_hash_in_string_cut
  /\ line_hash_in_string = (line_hash_in_string_cut ++ "#" ++ q ++ "]")%string.
Proof. repeat split. Qed.

(** Without an empty string in front, a symbol inside a string is kept. *)
Example strip_comments_keeps_symbol_in_string :
  strip_comments ("[" ++ q ++ "http://x#y" ++ q ++ "]  # c") default_symbols_hash_first
  = Ok ("[" ++ q ++ "http://x#y" ++ q ++ "]")%string.
Proof. reflexivity. Qed.

End CommentClaims.

(* ===================================================================== *)
(** ** The stable sort *)
(* ===================================================================== *)

Module SortFacts.
Import Registry.

Section Sort.
Context {A : Type} (key : A -> nat).

Lemma insert_by_head x l :
  Forall (key_le key x) l -> insert_by key x l = x :: l.
Proof.
  destruct l as [|y l]; intros H; [reflexivity|].
  simpl. inversion H as [|? ? Hxy _]; subst.
  apply Nat.leb_le in Hxy. rewrite Hxy. reflexivity.
Qed.

Lemma insert_by_perm x l : Permutation (insert_by key x l) (x :: l).
Proof.
  induction l as [|y l IH]; simpl; [reflexivity|].
  destruct (Nat.leb (key x) (key y)); [reflexivity|].
  rewrite IH. apply perm_swap.
Qed.

Lemma sort_by_perm l : Permutation (sort_by key l) l.
Proof.
  induction l as [|x l IH]; simpl; [reflexivity|].
  rewrite insert_by_perm, IH. reflexivity.
Qed.

Lemma insert_by_sorted x l :
  StronglySorted (key_le key) l -> StronglySorted (key_le key) (insert_by key x l).
Proof.
  induction l as [|y l IH]; intros H; simpl.
  - repeat constructor.
  - inversion H as [|? ? Hl Hy]; subst.
    destruct (Nat.leb (key x) (key y)) eqn:E.
    + apply Nat.leb_le in E. constructor; [exact H|].
      constructor; [exact E|].
      eapply Forall_impl; [|exact Hy]. unfold key_le. intros z Hz. lia.
    + apply Nat.leb_gt in E. constructor; [apply IH; exact Hl|].
      eapply Permutation_Forall; [symmetry; apply insert_by_perm|].
      constructor; [unfold key_le; lia | exact Hy].
Qed.

Lemma sort_by_sorted l : StronglySorted (key_le key) (sort_by key l).
Proof.
  induction l as [|x l IH]; simpl; [constructor|].
  apply insert_by_sorted. exact IH.
Qed.

(** Sorting a sorted list leaves it as it is. *)
Lemma sort_by_of_sorted l : StronglySorted (key_le key) l -> sort_by key l = l.
Proof.
  induction l as [|x l IH]; intros H; [reflexivity|].
  inversion H as [|? ? Hl Hx]; subst. simpl.
  rewrite (IH Hl). apply insert_by_head. exact Hx.
Qed.

Lemma Forall_filter (P : A -> Prop) p l : Forall P l -> Forall P (filter p l).
Proof.
  intros H. apply Forall_forall. intros x Hx. apply filter_In in Hx.
  rewrite Forall_forall in H. apply H. tauto.
Qed.

Lemma filter_insert_by p x l :
  StronglySorted (key_le key) l ->
  filter p (insert_by key x l)
  = if p x then insert_by key x (filter p l) else filter p l.
Proof.
  induction l as [|y l IH]; intros H.
  - simpl. destruct (p x); reflexivity.
  - inversion H as [|? ? Hl Hy]; subst. simpl.
    destruct (Nat.leb (key x) (key y)) eqn:E.
    + simpl. destruct (p x) eqn:Px; [|reflexivity].
      symmetry. apply Nat.leb_le in E.
      assert (Hall : Forall (key_le key x) (y :: l)).
      { constructor; [exact E|].
        eapply Forall_impl; [|exact Hy]. unfold key_le. intros z Hz. lia. }
      change (if p y then y :: filter p l else filter p l)
        with (filter p (y :: l)).
      apply insert_by_head. apply Forall_filter. exact Hall.
    + simpl. destruct (p y) eqn:Py.
      * rewrite (IH Hl). destruct (p x); [|reflexivity].
        simpl. rewrite E. reflexivity.
      * apply IH. exact Hl.
Qed.

(** The sort is stable, so it commutes with taking a sub-sequence. *)
Lemma filter_sort_by p l : filter p (sort_by key l) = sort_by key (filter p l).
Proof.
  induction l as [|x l IH]; [reflexivity|].
  simpl. rewrite filter_insert_by by apply sort_by_sorted.
  rewrite IH. destruct (p x); reflexivity.
Qed.

Lemma sort_by_In x l : In x (sort_by key l) <-> In x l.
Proof.
  split; apply Permutation_in; [|symmetry]; apply sort_by_perm.
Qed.

Lemma sort_by_NoDup_map {B : Type} (f : A -> B) l :
  NoDup (map f l) -> NoDup (map f (sort_by key l)).
Proof.
  apply Permutation_NoDup. apply Permutation_map. symmetry. apply sort_by_perm.
Qed.

End Sort.

End SortFacts.

(* ===================================================================== *)
(** ** Updating an ordered dictionary with a list of pairs *)
(* ===================================================================== *)

Module UpdateFacts.
Import ODict ODictFacts.

Section WithValues.
Context {V : Type}.
Implicit Types (d : list (string * V)) (k : string) (v : V).

Lemma od_contains_set k' k v d :
  od_contains k' (od_set k v d) = String.eqb k k' || od_contains k' d.
Proof.
  destruct (String.eqb k k') eqn:E.
  - apply String.eqb_eq in E. subst. apply od_contains_set_same.
  - apply String.eqb_neq in E. simpl. apply od_contains_set_other. congruence.
Qed.

Lemma od_set_fresh k v d : od_contains k d = false -> od_set k v d = d ++ [(k, v)].
Proof.
  unfold od_contains. induction d as [|[k' v'] d IH]; simpl; [reflexivity|].
  destruct (String.eqb k' k); [discriminate|].
  intros H. rewrite (IH H). reflexivity.
Qed.

Lemma fresh_after_set k v d ps :
  ~ In k (od_keys ps) ->
  filter (fresh (od_set k v d)) ps = filter (fresh d) ps.
Proof.
  intros Hn. apply filter_ext_in. intros [k' v'] Hin. unfold fresh. simpl.
  rewrite od_contains_set.
  destruct (String.eqb k k') eqn:E; [|reflexivity].
  apply String.eqb_eq in E. subst k'. exfalso. apply Hn.
  apply (in_map fst) in Hin. exact Hin.
Qed.

Lemma filter_fresh_cons k v d ps :
  filter (fresh d) ((k, v) :: ps)
  = if od_contains k d then filter (fresh d) ps else (k, v) :: filter (fresh d) ps.
Proof. simpl. unfold fresh at 1. simpl. destruct (od_contains k d); reflexivity. Qed.

(** Keys after an update: those of [d] in their order, then the new ones in
    the order of the pairs. *)
Lemma od_update_keys pairs :
  forall d,
    NoDup (od_keys pairs) ->
    od_keys (od_update d pairs) = od_keys d ++ od_keys (filter (fresh d) pairs).
Proof.
  unfold od_update.
  induction pairs as [|[k v] ps IH]; intros d Hnd.
  - simpl. rewrite app_nil_r. reflexivity.
  - simpl in Hnd. inversion Hnd as [|? ? Hnotin Hnd']; subst.
    simpl fold_left. rewrite (IH _ Hnd'), (fresh_after_set _ _ _ _ Hnotin).
    rewrite od_keys_set, filter_fresh_cons.
    destruct (od_contains k d); simpl; [reflexivity|].
    rewrite <- app_assoc. reflexivity.
Qed.

Lemma od_get_update_notin pairs :
  forall d k, ~ In k (od_keys pairs) -> od_get k (od_update d pairs) = od_get k d.
Proof.
  unfold od_update.
  induction pairs as [|[k0 v0] ps IH]; intros d k Hn; [reflexivity|].
  simpl in *. rewrite IH by tauto. apply od_get_set_other. intros ->. tauto.
Qed.

Lemma od_get_update_In pairs :
  forall d k v,
    NoDup (od_keys pairs) -> In (k, v) pairs ->
    od_get k (od_update d pairs) = Some v.
Proof.
  induction pairs as [|[k0 v0] ps IH]; intros d k v Hnd Hin; [destruct Hin|].
  simpl in Hnd. inversion Hnd as [|? ? Hnotin Hnd']; subst.
  destruct Hin as [Heq | Hin].
  - inversion Heq; subst k0 v0.
    change (od_update d ((k, v) :: ps)) with (od_update (od_set k v d) ps).
    rewrite od_get_update_notin by exact Hnotin. apply od_get_set_same.
  - change (od_update d ((k0, v0) :: ps)) with (od_update (od_set k0 v0 d) ps).
    apply IH; assumption.
Qed.

Lemma filter_od_set_old (new : string -> bool) k v d :
  new k = false ->
  filter (fun p => new (fst p)) (od_set k v d) = filter (fun p => new (fst p)) d.
Proof.
  intros Hk. induction d as [|[k' v'] d IH]; simpl.
  - rewrite Hk. reflexivity.
  - destruct (String.eqb k' k) eqn:E; simpl.
    + apply String.eqb_eq in E. subst k'. rewrite Hk. reflexivity.
    + rewrite IH. reflexivity.
Qed.

(** The part of an updated dictionary selected by [new], when the update
    replaces no value under a selected key. *)
Lemma filter_od_update (new : string -> bool) pairs :
  forall d,
    NoDup (od_keys pairs) ->
    (forall k, In k (od_keys d) -> new k = true -> ~ In k (od_keys pairs)) ->
    filter (fun p => new (fst p)) (od_update d pairs)
    = filter (fun p => new (fst p)) d
      ++ filter (fun p => new (fst p)) (filter (fresh d) pairs).
Proof.
  induction pairs as [|[k v] ps IH]; intros d Hnd Hold.
  - simpl. rewrite app_nil_r. reflexivity.
  - simpl in Hnd. inversion Hnd as [|? ? Hnotin Hnd']; subst.
    change (od_update d ((k, v) :: ps)) with (od_update (od_set k v d) ps).
    rewrite (IH _ Hnd').
    + rewrite (fresh_after_set _ _ _ _ Hnotin), filter_fresh_cons.
      destruct (od_contains k d) eqn:Hc.
      * rewrite filter_od_set_old; [reflexivity|].
        destruct (new k) eqn:Hk; [|reflexivity]. exfalso.
        apply (Hold k); [apply od_contains_In; exact Hc | exact Hk|].
        simpl. left. reflexivity.
      * rewrite (od_set_fresh _ _ _ Hc), filter_app. simpl.
        destruct (new k); simpl; rewrite <- app_assoc; reflexivity.
    + intros k' Hin Hk'. rewrite od_keys_set in Hin.
      destruct (od_contains k d) eqn:Hc.
      * intros Hps. apply (Hold k' Hin Hk'). simpl. right. exact Hps.
      * apply in_app_or in Hin. destruct Hin as [Hin | [<- | []]].
        -- intros Hps. apply (Hold k' Hin Hk'). simpl. right. exact Hps.
        -- exact Hnotin.
Qed.

(** Two dictionaries with the same keys in the same order and the same
    value under each key are equal. *)
Lemma od_ext d1 :
  forall d2,
    NoDup (od_keys d1) ->
    od_keys d1 = od_keys d2 ->
    (forall k, od_get k d1 = od_get k d2) ->
    d1 = d2.
Proof.
  induction d1 as [|[k v] d1 IH]; intros [|[k2 v2] d2] Hnd Hk Hg;
    try discriminate; [reflexivity|].
  simpl in Hk. inversion Hk as [[Hkk Hks]]. subst k2.
  simpl in Hnd. inversion Hnd as [|? ? Hnotin Hnd']; subst.
  pose proof (Hg k) as Hgk. simpl in Hgk. rewrite String.eqb_refl in Hgk.
  inversion Hgk; subst v2. f_equal. apply IH; [exact Hnd' | exact Hks|].
  intros k'. destruct (String.eqb k k') eqn:E.
  - apply String.eqb_eq in E. subst k'.
    assert (H1 : od_contains k d1 = false) by (apply od_contains_false; exact Hnotin).
    assert (H2 : od_contains k d2 = false).
    { apply od_contains_false. unfold od_keys in *. rewrite <- Hks. exact Hnotin. }
    unfold od_contains in H1, H2.
    destruct (od_get k d1), (od_get k d2); congruence.
  - pose proof (Hg k') as Hgk'. simpl in Hgk'. rewrite E in Hgk'. exact Hgk'.
Qed.

End WithValues.

End UpdateFacts.

(* ===================================================================== *)
(** ** Order of the registry under inheritance *)
(* ===================================================================== *)

Module RegistryClaims.
Import Fields ODict Registry Scenario ODictFacts SortFacts UpdateFacts.

Lemma select_fields_as_base (l : list (string * FieldRef)) :
  select_fields Field (map (fun p => (fst p, AttrField (snd p))) l) = l.
Proof.
  induction l as [|[n r] l IH]; simpl; [reflexivity|]. rewrite IH. reflexivity.
Qed.

Lemma select_fields_In attrs n r :
  In (n, r) (select_fields Field attrs) <-> In (n, AttrField r) attrs.
Proof.
  induction attrs as [|[n' [r'|]] attrs IH]; simpl.
  - tauto.
  - rewrite <- IH. split.
    + intros [H | H]; [left; congruence | right; exact H].
    + intros [H | H]; [left; congruence | right; exact H].
  - rewrite <- IH. split; [intros H; right; exact H|].
    intros [H | H]; [discriminate | exact H].
Qed.

Lemma select_fields_keys c attrs k :
  In k (od_keys (select_fields c attrs)) -> In k (map fst attrs).
Proof.
  induction attrs as [|[n [r|]] attrs IH]; simpl; [tauto| |].
  - destruct (isinstance (ref_class r) c); simpl; tauto.
  - tauto.
Qed.

Lemma select_fields_NoDup c attrs :
  NoDup (map fst attrs) -> NoDup (od_keys (select_fields c attrs)).
Proof.
  induction attrs as [|[n [r|]] attrs IH]; simpl; intros H.
  - constructor.
  - inversion H as [|? ? Hn Hnd]; subst.
    destruct (isinstance (ref_class r) c); simpl; [|apply IH; exact Hnd].
    constructor; [|apply IH; exact Hnd].
    intros Hin. apply Hn. eapply select_fields_keys. exact Hin.
  - inversion H; subst. apply IH. assumption.
Qed.

Lemma filter_fresh_self {V : Type} (d : list (string * V)) :
  filter (fresh d) d = [].
Proof.
  assert (H : forall l, (forall p, In p l -> In (fst p) (od_keys d)) ->
                        filter (fresh d) l = []).
  { induction l as [|p l IH]; intros Hl; [reflexivity|].
    simpl. unfold fresh at 1.
    assert (Hc : od_contains (fst p) d = true)
      by (apply od_contains_In; apply Hl; left; reflexivity).
    rewrite Hc. simpl. apply IH. intros p' Hp'. apply Hl. right. exact Hp'. }
  apply H. intros p Hp. apply in_map. exact Hp.
Qed.

Lemma filter_twice {B : Type} (p : B -> bool) l :
  filter p (filter p l) = filter p l.
Proof.
  induction l as [|x l IH]; [reflexivity|].
  simpl. destruct (p x) eqn:E; simpl; [rewrite E, IH; reflexivity | exact IH].
Qed.

Section Chain.
Variable st : Store.

(** The key of the sort in [_get_fields]. *)
Let idx (pair : string * FieldRef) : nat := _creation_index (st (snd pair)).

(** The class's own fields, in creation order. *)
Let own (attrs : list (string * Attr)) : list (string * FieldRef) :=
  fst (_get_fields st attrs Field false true).

Lemma own_eq attrs : own attrs = sort_by idx (select_fields Field attrs).
Proof. reflexivity. Qed.

Lemma own_NoDup attrs : NoDup (map fst attrs) -> NoDup (od_keys (own attrs)).
Proof.
  intros H. rewrite own_eq. apply sort_by_NoDup_map.
  apply select_fields_NoDup. exact H.
Qed.

(** Re-reading a registry in creation order, as a subclass does for a base,
    and setting its pairs over the inherited fields it was built from gives
    the registry back, order included. *)
Lemma registry_reread (inherited sorted_own : list (string * FieldRef)) :
  NoDup (od_keys sorted_own) ->
  StronglySorted (key_le idx) sorted_own ->
  let base := OrderedDict inherited in
  let registry := od_update base sorted_own in
  od_update base (sort_by idx registry) = registry.
Proof.
  intros Hnd Hs base registry.
  assert (Hbase : NoDup (od_keys base)) by apply OrderedDict_NoDup.
  assert (Hreg : NoDup (od_keys registry)) by (apply od_update_NoDup; exact Hbase).
  assert (Hsorted : NoDup (od_keys (sort_by idx registry)))
    by (apply sort_by_NoDup_map; exact Hreg).
  assert (Hkeys : od_keys registry
                  = od_keys base ++ od_keys (filter (fresh base) sorted_own))
    by (apply od_update_keys; exact Hnd).
  apply od_ext.
  - apply od_update_NoDup. exact Hbase.
  - assert (Hf : filter (fresh base) registry
                 = filter (fresh base) base
                   ++ filter (fresh base) (filter (fresh base) sorted_own)).
    { refine (filter_od_update (fun k => negb (od_contains k base))
                               sorted_own base Hnd _).
      intros k Hin Hnew. apply od_contains_In in Hin.
      rewrite Hin in Hnew. discriminate. }
    rewrite filter_fresh_self, filter_twice in Hf. simpl in Hf.
    rewrite (od_update_keys _ _ Hsorted), Hkeys. f_equal. f_equal.
    rewrite filter_sort_by, Hf.
    rewrite <- filter_sort_by, (sort_by_of_sorted idx _ Hs). reflexivity.
  - intros k. destruct (od_get k registry) as [r|] eqn:E.
    + apply od_get_update_In; [exact Hsorted|].
      apply sort_by_In. apply od_get_In. exact E.
    + assert (Hn : ~ In k (od_keys registry)).
      { apply od_contains_false. unfold od_contains. rewrite E. reflexivity. }
      rewrite od_get_update_notin.
      * assert (Hb : od_contains k base = false).
        { apply od_contains_false. intros Hin. apply Hn. rewrite Hkeys.
          apply in_or_app. left. exact Hin. }
        unfold od_contains in Hb. destruct (od_get k base); congruence.
      * intros Hin. apply Hn.
        unfold od_keys in *. apply in_map_iff in Hin.
        destruct Hin as [p [Hp Hin]]. apply sort_by_In in Hin.
        apply in_map_iff. exists p. tauto.
Qed.

(** The fields a direct subclass inherits: those its parent inherited, then
    the parent's registry in creation order. *)
Lemma inherited_of_subclass mro_tail attrsP attrsC :
  let parent := ConfigMeta_new st mro_tail attrsP in
  _get_fields_by_mro st (mkClass None attrsC :: as_base attrsP parent :: mro_tail)
                     Field true
  = _get_fields_by_mro st (mkClass None attrsP :: mro_tail) Field true
    ++ sort_by idx (_declared_fields parent).
Proof.
  intros parent. unfold _get_fields_by_mro. simpl tl. simpl rev.
  rewrite map_app, concat_app. f_equal.
  cbn [map concat]. rewrite app_nil_r. cbn [_get_fields fst].
  change (getattr_declared_fields (as_base attrsP parent))
    with (map (fun p => (fst p, AttrField (snd p))) (_declared_fields parent)).
  rewrite select_fields_as_base. reflexivity.
Qed.

(** The registry of a direct subclass is the registry of its parent updated
    with the subclass's own fields. *)
Lemma declared_fields_of_subclass mro_tail attrsP attrsC :
  NoDup (map fst attrsP) ->
  let parent := ConfigMeta_new st mro_tail attrsP in
  let child := ConfigMeta_new st (as_base attrsP parent :: mro_tail) attrsC in
  _declared_fields child = od_update (_declared_fields parent) (own attrsC).
Proof.
  intros HndP. cbv zeta.
  set (inherited := _get_fields_by_mro st (mkClass None attrsP :: mro_tail)
                                       Field true).
  assert (HP : _declared_fields (ConfigMeta_new st mro_tail attrsP)
               = od_update (OrderedDict inherited) (own attrsP))
    by apply od_update_app.
  change (_declared_fields
            (ConfigMeta_new st
               (as_base attrsP (ConfigMeta_new st mro_tail attrsP) :: mro_tail)
               attrsC))
    with (OrderedDict
            (_get_fields_by_mro st
               (mkClass None attrsC
                :: as_base attrsP (ConfigMeta_new st mro_tail attrsP) :: mro_tail)
               Field true
             ++ own attrsC)).
  rewrite inherited_of_subclass. fold inherited.
  unfold OrderedDict at 1. rewrite !od_update_app. f_equal.
  rewrite HP.
  apply (registry_reread inherited (own attrsP)).
  - apply own_NoDup. exact HndP.
  - rewrite own_eq. apply sort_by_sorted.
Qed.

End Chain.

(** Single inheritance. Let a class be built by the metaclass and a direct
    subclass be built from it, its method resolution order being the class
    followed by that of its parent. The registry of the subclass lists the names of the parent's
    registry in the parent's order (so, up the chain, the names of the
    most-base class first), then the names the subclass declares for the
    first time, in creation order of their fields; a name the subclass
    declares again stays at the position it has in the parent's registry and
    maps to the subclass's field object; a name it does not declare keeps the
    object of the parent's registry. *)
Theorem declared_fields_order :
  forall (st : Store) (mro_tail : list ClassObj)
         (attrsP attrsC : list (string * Attr)),
    NoDup (map fst attrsP) ->
    NoDup (map fst attrsC) ->
    let parent := ConfigMeta_new st mro_tail attrsP in
    let child := ConfigMeta_new st (as_base attrsP parent :: mro_tail) attrsC in
    let own := fst (_get_fields st attrsC Field false true) in
    od_keys (_declared_fields child)
    = od_keys (_declared_fields parent)
      ++ od_keys (filter (fresh (_declared_fields parent)) own)
    /\ StronglySorted
         (key_le (fun pair => _creation_index (st (snd pair)))) own
    /\ (forall name r, In (name, r) own <-> In (name, AttrField r) attrsC)
    /\ (forall i name,
          nth_error (od_keys (_declared_fields parent)) i = Some name ->
          nth_error (od_keys (_declared_fields child)) i = Some name)
    /\ (forall name r,
          In (name, AttrField r) attrsC ->
          od_get name (_declared_fields child) = Some r)
    /\ (forall name,
          ~ In name (od_keys own) ->
          od_get name (_declared_fields child)
          = od_get name (_declared_fields parent)).
Proof.
  intros st mro_tail attrsP attrsC HndP HndC parent child own.
  assert (Hchild : _declared_fields child
                   = od_update (_declared_fields parent) own)
    by (apply declared_fields_of_subclass; exact HndP).
  assert (Hown : NoDup (od_keys own)).
  { apply sort_by_NoDup_map. apply select_fields_NoDup. exact HndC. }
  assert (Hin : forall name r, In (name, r) own <-> In (name, AttrField r) attrsC).
  { intros name r. unfold own. cbn [_get_fields fst].
    rewrite sort_by_In. apply select_fields_In. }
  assert (Hkeys : od_keys (_declared_fields child)
                  = od_keys (_declared_fields parent)
                    ++ od_keys (filter (fresh (_declared_fields parent)) own)).
  { rewrite Hchild. apply od_update_keys. exact Hown. }
  split; [exact Hkeys|]. split; [apply sort_by_sorted|]. split; [exact Hin|].
  split; [|split].
  - intros i name Hi. rewrite Hkeys. rewrite nth_error_app1; [exact Hi|].
    apply nth_error_Some. congruence.
  - intros name r Hattr. rewrite Hchild.
    apply od_get_update_In; [exact Hown | apply Hin; exact Hattr].
  - intros name Hn. rewrite Hchild. apply od_get_update_notin. exact Hn.
Qed.

Lemma declared_fields_order_witness :
  NoDup (map fst demo_attrs)
  /\ NoDup (map fst regional_attrs)
  /\ od_keys (_declared_fields Demo) = ["project_name"; "password"; "owner"]
  /\ od_keys (_declared_fields Regional)
     = ["project_name"; "password"; "owner"; "region"]
  /\ od_get "project_name" (_declared_fields Regional) = Some project_name'.
Proof.
  assert (H1 : NoDup (map fst demo_attrs))
    by (simpl; repeat constructor; simpl; intuition discriminate).
  assert (H2 : NoDup (map fst regional_attrs))
    by (simpl; repeat constructor; simpl; intuition discriminate).
  destruct (declared_fields_order st_demo [BaseConfigClass_obj]
                                  demo_attrs regional_attrs H1 H2)
    as [Hkeys [_ [_ [_ [Hget _]]]]].
  repeat (split; [assumption|]).
  split; [reflexivity|]. split.
  - etransitivity; [exact Hkeys | reflexivity].
  - apply Hget. simpl. left. reflexivity.
Defined.

(** The registry of a class three levels down: the names of [Demo], then
    [region] from [Regional], then the new name, with [project_name] still
    first and bound to the object [Regional] declared. *)
Example declared_fields_three_levels :
  let regional_base := as_base regional_attrs Regional in
  let leaf :=
    ConfigMeta_new st_demo
                   [regional_base; as_base demo_attrs Demo; BaseConfigClass_obj]
                   [("token", AttrField token)] in
  _declared_fields leaf
  = [("project_name", project_name'); ("password", password); ("owner", owner);
     ("region", region); ("token", token)].
Proof. reflexivity. Qed.

End RegistryClaims.

(* ===================================================================== *)
(** ** Splitting, joining and right-stripping *)
(* ===================================================================== *)

Module TextFacts.
Import PyText TextRef.

Lemma append_empty_r (s : string) : (s ++ EmptyString)%string = s.
Proof. induction s as [|c s IH]; simpl; [reflexivity | rewrite IH; reflexivity]. Qed.

Lemma append_assoc (a b c : string) :
  ((a ++ b) ++ c)%string = (a ++ b ++ c)%string.
Proof. induction a as [|x a IH]; simpl; [reflexivity | rewrite IH; reflexivity]. Qed.

Lemma prefix_empty (s : string) : String.prefix EmptyString s = true.
Proof. destruct s; reflexivity. Qed.

(** A prefix can be cut off and put back. *)
Lemma prefix_split (p s : string) :
  String.prefix p s = true -> s = (p ++ drop (String.length p) s)%string.
Proof.
  revert s. induction p as [|a p IH]; intros s H; [reflexivity|].
  destruct s as [|b s]; [discriminate|]. simpl in H.
  destruct (ascii_dec a b) as [->|]; [|discriminate].
  simpl. f_equal. apply IH. exact H.
Qed.

Lemma prefix_append (p s : string) : String.prefix p (p ++ s) = true.
Proof.
  induction p as [|a p IH]; simpl; [apply prefix_empty|].
  destruct (ascii_dec a a); [exact IH | congruence].
Qed.

Lemma drop_empty n : drop n EmptyString = EmptyString.
Proof. destruct n; reflexivity. Qed.

(** Characters still to be passed over are dropped. *)
Lemma split_from_skip sep s :
  forall k cur, split_from sep k cur s = split_from sep 0 cur (drop k s).
Proof.
  induction s as [|c s IH]; intros k cur.
  - rewrite drop_empty. reflexivity.
  - destruct k as [|k]; [reflexivity|]. simpl. apply IH.
Qed.

Lemma split_from_nonempty sep s : forall k cur, split_from sep k cur s <> [].
Proof.
  induction s as [|c s IH]; intros k cur; cbn [split_from]; [discriminate|].
  destruct k; [|apply IH].
  destruct (String.prefix sep (String c s)); [discriminate | apply IH].
Qed.

(** [split] cuts at the first occurrence found by [find]. *)
Lemma split_from_find sep s :
  sep <> EmptyString ->
  forall cur,
    split_from sep 0 cur s =
    match find sep s with
    | None => [(cur ++ s)%string]
    | Some i =>
        (cur ++ take i s)%string
        :: split_from sep 0 EmptyString (drop (i + String.length sep) s)
    end.
Proof.
  intros Hsep. induction s as [|c s IH]; intros cur.
  - simpl. rewrite append_empty_r. destruct sep; [congruence | reflexivity].
  - cbn [split_from find].
    destruct (String.prefix sep (String c s)) eqn:E.
    + rewrite split_from_skip. cbn [take]. rewrite append_empty_r.
      destruct sep as [|a sep]; [congruence|]. simpl. rewrite Nat.sub_0_r.
      reflexivity.
    + rewrite IH. destruct (find sep s) as [i|]; simpl.
      * rewrite append_assoc. reflexivity.
      * rewrite append_assoc. reflexivity.
Qed.

Lemma join_cons sep x parts :
  parts <> [] -> join sep (x :: parts) = (x ++ sep ++ join sep parts)%string.
Proof. destruct parts; [congruence | reflexivity]. Qed.

(** [sep.join(s.split(sep))] gives [s] back. *)
Lemma join_split_from_skip sep s :
  sep <> EmptyString ->
  forall k cur, join sep (split_from sep k cur s) = (cur ++ drop k s)%string.
Proof.
  intros Hsep. induction s as [|c s IH]; intros k cur.
  - rewrite drop_empty. simpl. rewrite append_empty_r. reflexivity.
  - destruct k as [|k]; [|apply IH].
    cbn [split_from drop]. destruct (String.prefix sep (String c s)) eqn:E.
    + rewrite join_cons by apply split_from_nonempty. rewrite IH.
      pose proof (prefix_split _ _ E) as Hs.
      f_equal. symmetry. etransitivity; [exact Hs|].
      destruct sep as [|a sep]; [congruence|].
      cbn [String.length]. rewrite Nat.sub_succ, Nat.sub_0_r. reflexivity.
    + rewrite IH, append_assoc. reflexivity.
Qed.

Lemma join_split_from sep s :
  sep <> EmptyString -> join sep (split_from sep 0 EmptyString s) = s.
Proof. intros H. apply (join_split_from_skip sep s H 0 EmptyString). Qed.

(** The parts up to any index, joined, are the head of the whole. *)
Lemma join_firstn sep parts :
  forall n, exists t,
    join sep parts = (join sep (firstn (S n) parts) ++ t)%string.
Proof.
  induction parts as [|x xs IH]; intros n.
  - exists EmptyString. reflexivity.
  - destruct xs as [|y ys].
    + exists EmptyString. destruct n; simpl; rewrite append_empty_r; reflexivity.
    + destruct n as [|n].
      * exists (sep ++ join sep (y :: ys))%string. reflexivity.
      * destruct (IH n) as [t Ht].
        exists t.
        change (firstn (S (S n)) (x :: y :: ys))
          with (x :: firstn (S n) (y :: ys)).
        rewrite (join_cons sep x (y :: ys)) by discriminate.
        rewrite (join_cons sep x (firstn (S n) (y :: ys))) by discriminate.
        rewrite Ht at 1. rewrite !append_assoc. reflexivity.
Qed.

Lemma rstrip_head (s : string) : exists t, s = (rstrip s ++ t)%string.
Proof.
  induction s as [|c s [t Ht]].
  - exists EmptyString. reflexivity.
  - simpl. destruct (rstrip s) as [|a r] eqn:E.
    + destruct (is_space c).
      * exists (String c s). reflexivity.
      * exists t. simpl. simpl in Ht. rewrite <- Ht. reflexivity.
    + exists t. simpl. simpl in Ht. rewrite <- Ht. reflexivity.
Qed.

Lemma rstrip_idempotent (s : string) : rstrip (rstrip s) = rstrip s.
Proof.
  induction s as [|c s IH]; [reflexivity|].
  simpl. destruct (rstrip s) as [|a r] eqn:E.
  - destruct (is_space c) eqn:Ec; [reflexivity|]. simpl. rewrite Ec. reflexivity.
  - cbn [rstrip]. cbn [rstrip] in IH. rewrite IH. reflexivity.
Qed.

(** Without a double quote the pattern matches nowhere. *)
Lemma esc_groups_no_dquote (s : string) :
  (no_dquote s = true -> esc_groups_then_quote s = None)
  /\ (forall c, no_dquote (String c s) = true ->
                esc_groups_then_quote (String c s) = None).
Proof.
  induction s as [|c2 s [IH1 IH2]].
  - split; [reflexivity | intros c _; reflexivity].
  - split; [intros H; apply IH2; exact H|].
    intros c H. cbn [no_dquote] in H.
    apply andb_true_iff in H. destruct H as [_ H].
    pose proof H as H'. cbn [no_dquote] in H'.
    apply andb_true_iff in H'. destruct H' as [Hc2 Hs].
    cbn [esc_groups_then_quote].
    destruct (is_backslash c && (is_backslash c2 || is_dquote c2)); [|reflexivity].
    rewrite (IH1 Hs). destruct s as [|c3 s]; [reflexivity|].
    cbn [no_dquote] in Hs. apply andb_true_iff in Hs. destruct Hs as [Hc3 _].
    apply negb_true_iff in Hc3. rewrite Hc3. reflexivity.
Qed.

Lemma match_at_no_dquote b s : no_dquote s = true -> match_at b s = None.
Proof.
  intros H. destruct s as [|c s]; [reflexivity|].
  pose proof H as H'. cbn [no_dquote] in H'.
  apply andb_true_iff in H'. destruct H' as [Hc Hs].
  apply negb_true_iff in Hc. unfold match_at. rewrite Hc.
  destruct (is_backslash c).
  - apply (proj1 (esc_groups_no_dquote (String c s))). exact H.
  - destruct s as [|c2 s]; [reflexivity|].
    cbn [no_dquote] in Hs. apply andb_true_iff in Hs. destruct Hs as [Hc2 _].
    apply negb_true_iff in Hc2. rewrite Hc2. reflexivity.
Qed.

Lemma findall_count_no_dquote s :
  forall k b, no_dquote s = true -> findall_count_from k b s = 0.
Proof.
  induction s as [|c s IH]; intros k b H; [reflexivity|].
  pose proof H as H'. cbn [no_dquote] in H'.
  apply andb_true_iff in H'. destruct H' as [_ Hs].
  cbn [findall_count_from]. destruct k as [|k]; [|apply IH; exact Hs].
  rewrite (match_at_no_dquote b _ H). apply IH. exact Hs.
Qed.

End TextFacts.

(* ===================================================================== *)
(** ** What comment stripping does to a line and to a text *)
(* ===================================================================== *)

Module StripFacts.
Import PyText Comments TextRef TextFacts.

Lemma split_nonempty_sep sep s :
  sep <> EmptyString -> split sep s = Ok (split_from sep 0 EmptyString s).
Proof. destruct sep; [congruence | reflexivity]. Qed.

(** The result of the line function, from the parts of the line. *)
Lemma strip_line_result line start :
  start <> EmptyString ->
  exists out,
    strip_comment_line_with_symbol line start = Ok (rstrip out)
    /\ exists tail, line = (out ++ tail)%string.
Proof.
  intros H. unfold strip_comment_line_with_symbol.
  rewrite (split_nonempty_sep _ _ H). cbn [rbind].
  destruct (first_even_total 0 0 _) as [nr|].
  - eexists. split; [reflexivity|].
    rewrite Nat.add_1_r.
    destruct (join_firstn start (split_from start 0 EmptyString line) nr) as [t Ht].
    rewrite (join_split_from _ _ H) in Ht. exists t. exact Ht.
  - exists line. split; [reflexivity|]. exists EmptyString.
    rewrite append_empty_r. reflexivity.
Qed.

Lemma strip_line_head line start :
  start <> EmptyString ->
  exists out tail,
    strip_comment_line_with_symbol line start = Ok out
    /\ line = (out ++ tail)%string
    /\ rstrip out = out.
Proof.
  intros H. destruct (strip_line_result line start H) as [x [Hx [t Ht]]].
  destruct (rstrip_head x) as [t' Ht'].
  exists (rstrip x), (t' ++ t)%string. split; [exact Hx|]. split.
  - rewrite <- append_assoc, <- Ht'. exact Ht.
  - apply rstrip_idempotent.
Qed.

(** All the symbols applied to one line. *)
Lemma strip_line_symbols symbols :
  (forall s, In s symbols -> s <> EmptyString) ->
  forall line,
  exists out tail,
    strip_line symbols line = Ok out
    /\ line = (out ++ tail)%string
    /\ (symbols <> [] -> rstrip out = out).
Proof.
  induction symbols as [|s symbols IH]; intros Hne line.
  - exists line, EmptyString. split; [reflexivity|]. split.
    + rewrite append_empty_r. reflexivity.
    + congruence.
  - destruct (strip_line_head line s (Hne s (or_introl eq_refl)))
      as [o1 [t1 [H1 [Hl1 Hr1]]]].
    destruct (IH (fun x Hx => Hne x (or_intror Hx)) o1) as [o2 [t2 [H2 [Hl2 Hr2]]]].
    exists o2, (t2 ++ t1)%string. cbn [strip_line]. rewrite H1. cbn [rbind].
    split; [exact H2|]. split.
    + rewrite <- append_assoc, <- Hl2. exact Hl1.
    + intros _. destruct symbols as [|s' symbols'].
      * simpl in H2. inversion H2; subst o2. exact Hr1.
      * apply Hr2. discriminate.
Qed.

Lemma strip_lines_symbols symbols lines :
  (forall s, In s symbols -> s <> EmptyString) ->
  exists outs,
    strip_lines symbols lines = Ok outs
    /\ Forall2 (fun line out => exists tail, line = (out ++ tail)%string) lines outs
    /\ (symbols <> [] -> Forall (fun out => rstrip out = out) outs).
Proof.
  intros Hne. induction lines as [|l lines [outs [H [HF HR]]]].
  - exists []. split; [reflexivity|]. split; [constructor|]. intros _. constructor.
  - destruct (strip_line_symbols symbols Hne l) as [o [t [Ho [Hl Hr]]]].
    exists (o :: outs). cbn [strip_lines]. rewrite Ho, H. cbn [rbind].
    split; [reflexivity|]. split.
    + constructor; [exists t; exact Hl | exact HF].
    + intros Hs. constructor; [apply Hr; exact Hs | apply HR; exact Hs].
Qed.

(** With an empty symbol in the set, a line cannot be stripped. *)
Lemma strip_line_empty_symbol symbols :
  In EmptyString symbols ->
  forall line, strip_line symbols line = Raise ValueError.
Proof.
  induction symbols as [|s symbols IH]; intros Hin line; [destruct Hin|].
  cbn [strip_line]. destruct s as [|c s].
  - reflexivity.
  - destruct Hin as [Heq | Hin]; [discriminate|].
    destruct (strip_line_head line (String c s)) as [o [t [Ho _]]]; [discriminate|].
    rewrite Ho. cbn [rbind]. apply IH. exact Hin.
Qed.

Lemma splitlines_from_nonempty s :
  forall cur, cur <> EmptyString -> splitlines_from cur s <> [].
Proof.
  induction s as [|c s IH]; intros cur Hc.
  - simpl. destruct cur; [congruence | discriminate].
  - cbn [splitlines_from]. destruct (is_linebreak c).
    + destruct s as [|c2 s2]; [discriminate|].
      destruct (Ascii.eqb c CR && Ascii.eqb c2 LF); discriminate.
    + apply IH. destruct cur; discriminate.
Qed.

Lemma splitlines_nonempty text : text <> EmptyString -> splitlines text <> [].
Proof.
  destruct text as [|c s]; [congruence|]. intros _.
  unfold splitlines. cbn [splitlines_from]. destruct (is_linebreak c).
  - destruct s as [|c2 s2]; [discriminate|].
    destruct (Ascii.eqb c CR && Ascii.eqb c2 LF); discriminate.
  - apply splitlines_from_nonempty. discriminate.
Qed.

End StripFacts.

Module StripExtras.
Import PyText Comments TextRef TextFacts StripFacts Scenario.

(** X1. For a non-empty comment symbol: a line in which the symbol does not
    occur only loses its trailing whitespace; a line is cut at the first
    occurrence of the symbol, and right-stripped, when the quote pattern of
    the function finds an even number of matches in the text before that
    occurrence, and in particular when that text holds no double quote at
    all. The number of matches is [count_quotes], which is not always the
    number of double quotes: a quote that directly follows another one is
    not matched. *)
Theorem strip_line_at_first_occurrence :
  forall (line start : string),
    start <> EmptyString ->
    (find start line = None ->
     strip_comment_line_with_symbol line start = Ok (rstrip line))
    /\ (forall i,
          find start line = Some i ->
          Nat.even (count_quotes (take i line)) = true ->
          strip_comment_line_with_symbol line start = Ok (rstrip (take i line)))
    /\ (forall i,
          find start line = Some i ->
          no_dquote (take i line) = true ->
          strip_comment_line_with_symbol line start = Ok (rstrip (take i line))).
Proof.
  intros line start H.
  assert (Heven : forall i,
             find start line = Some i ->
             Nat.even (count_quotes (take i line)) = true ->
             strip_comment_line_with_symbol line start = Ok (rstrip (take i line))).
  { intros i Hf He. unfold strip_comment_line_with_symbol.
    rewrite (split_nonempty_sep _ _ H). cbn [rbind].
    rewrite (split_from_find _ _ H), Hf. cbn [append map first_even_total].
    rewrite Nat.add_0_l, He. reflexivity. }
  split; [|split; [exact Heven|]].
  - intros Hf. unfold strip_comment_line_with_symbol.
    rewrite (split_nonempty_sep _ _ H). cbn [rbind].
    rewrite (split_from_find _ _ H), Hf. cbn [append map first_even_total].
    destruct (Nat.even (0 + count_quotes line)); reflexivity.
  - intros i Hf Hq. apply (Heven i Hf).
    unfold count_quotes. rewrite findall_count_no_dquote by exact Hq. reflexivity.
Qed.

Lemma strip_line_at_first_occurrence_witness :
  ("//" : string) <> EmptyString
  /\ strip_comment_line_with_symbol "  x = 1   " "//" = Ok "  x = 1"
  /\ strip_comment_line_with_symbol "  x = 1  // one" "//" = Ok "  x = 1".
Proof.
  assert (H : ("//" : string) <> EmptyString) by discriminate.
  destruct (strip_line_at_first_occurrence "  x = 1   " "//" H) as [Hnone _].
  destruct (strip_line_at_first_occurrence "  x = 1  // one" "//" H)
    as [_ [_ Hcut]].
  split; [exact H|]. split.
  - apply Hnone. reflexivity.
  - apply (Hcut 9); reflexivity.
Defined.

(** X2. When no comment symbol is the empty text, [strip_comments] returns
    for every text; the result is the join, with a line feed, of as many
    lines as [splitlines] gives; each of them is a head of the line it comes
    from (stripping only removes the end of a line); and, if there is at
    least one symbol, none of them ends in whitespace. *)
Theorem strip_comments_line_by_line :
  forall (text : string) (comment_symbols : list string),
    (forall s, In s comment_symbols -> s <> EmptyString) ->
    exists outs,
      strip_comments text comment_symbols = Ok (join (chr1 LF) outs)
      /\ Forall2 (fun line out => exists tail, line = (out ++ tail)%string)
                 (splitlines text) outs
      /\ (comment_symbols <> [] -> Forall (fun out => rstrip out = out) outs).
Proof.
  intros text symbols Hne.
  destruct (strip_lines_symbols symbols (splitlines text) Hne) as [outs [H [HF HR]]].
  exists outs. unfold strip_comments. rewrite H. cbn [rbind].
  split; [reflexivity|]. split; assumption.
Qed.

Lemma strip_comments_line_by_line_witness :
  (forall s, In s default_symbols_hash_first -> s <> EmptyString)
  /\ exists outs,
      strip_comments ("a = 1 # x" ++ chr1 LF ++ "// y" ++ chr1 LF ++ "b  ")
                     default_symbols_hash_first
      = Ok (join (chr1 LF) outs)
      /\ List.length outs = 3.
Proof.
  assert (H : forall s, In s default_symbols_hash_first -> s <> EmptyString).
  { intros s [<- | [<- | []]]; discriminate. }
  split; [exact H|].
  destruct (strip_comments_line_by_line
              ("a = 1 # x" ++ chr1 LF ++ "// y" ++ chr1 LF ++ "b  ")
              default_symbols_hash_first H) as [outs [Ho [HF _]]].
  exists outs. split; [exact Ho|].
  apply Forall2_length in HF. rewrite <- HF. reflexivity.
Defined.

(** X3. An empty comment symbol makes [strip_comments] raise [ValueError]
    (the separator of [split] is empty) for every text that is not empty,
    wherever the empty symbol stands among the symbols; the empty text has
    no line and is returned as it is. *)
Theorem strip_comments_empty_symbol :
  forall (text : string) (comment_symbols : list string),
    In EmptyString comment_symbols ->
    (text <> EmptyString -> strip_comments text comment_symbols = Raise ValueError)
    /\ strip_comments EmptyString comment_symbols = Ok EmptyString.
Proof.
  intros text symbols Hin. split; [|reflexivity].
  intros Ht. unfold strip_comments.
  pose proof (splitlines_nonempty text Ht) as Hl.
  destruct (splitlines text) as [|l ls]; [congruence|].
  cbn [strip_lines]. rewrite (strip_line_empty_symbol symbols Hin). reflexivity.
Qed.

Lemma strip_comments_empty_symbol_witness :
  In EmptyString ["#"; EmptyString]
  /\ strip_comments "a # b" ["#"; EmptyString] = Raise ValueError.
Proof.
  assert (H : In EmptyString ["#"; EmptyString]) by (simpl; tauto).
  split; [exact H|].
  apply (strip_comments_empty_symbol "a # b" ["#"; EmptyString] H). discriminate.
Defined.

End StripExtras.

(* ===================================================================== *)
(** ** What [to_dict] returns *)
(* ===================================================================== *)

Module DumpFacts.
Import Fields ODict Registry Config Reference ConfigRef.
Import ODictFacts FieldFacts UpdateFacts DumpClaims.

(** The loop of [to_dict] started with a dictionary that has none of the
    keys to come. *)
Lemma to_dict_items_exact cdd cp st items :
  forall dct,
    NoDup (od_keys items) ->
    (forall k, In k (od_keys items) -> od_contains k dct = false) ->
    to_dict_items cdd cp st items dct =
    match first_failure cdd cp st items with
    | Some e => Raise e
    | None => Ok (dct ++ dumped cdd cp st items)
    end.
Proof.
  induction items as [|[a f] items IH]; intros dct Hnd Hfresh.
  - simpl. rewrite app_nil_r. reflexivity.
  - rewrite to_dict_items_cons. cbn [first_failure dumped].
    simpl in Hnd. inversion Hnd as [|? ? Hnotin Hnd']; subst.
    assert (Ha : od_contains a dct = false) by (apply Hfresh; left; reflexivity).
    destruct (get_value f cdd cp st) as [v|e].
    + rewrite IH; [|exact Hnd'|].
      * rewrite (od_set_fresh a v dct Ha), <- app_assoc. reflexivity.
      * intros k Hk. rewrite od_contains_set.
        rewrite (Hfresh k (or_intror Hk)), orb_false_r.
        apply String.eqb_neq. intros ->. contradiction.
    + destruct (is_DontDumpError e); [|reflexivity].
      apply IH; [exact Hnd'|]. intros k Hk. apply Hfresh. right. exact Hk.
Qed.

Lemma dumped_keys cdd cp st items k :
  In k (od_keys (dumped cdd cp st items)) -> In k (od_keys items).
Proof.
  induction items as [|[a f] items IH]; simpl; [tauto|].
  destruct (get_value f cdd cp st); simpl; tauto.
Qed.

Lemma dumped_NoDup cdd cp st items :
  NoDup (od_keys items) -> NoDup (od_keys (dumped cdd cp st items)).
Proof.
  induction items as [|[a f] items IH]; simpl; intros H; [constructor|].
  inversion H as [|? ? Hn Hnd]; subst.
  destruct (get_value f cdd cp st); simpl; [|apply IH; exact Hnd].
  constructor; [|apply IH; exact Hnd].
  intros Hin. apply Hn. eapply dumped_keys. exact Hin.
Qed.

Lemma dumped_In cdd cp st items name r v :
  In (name, r) items -> get_value r cdd cp st = Ok v ->
  In (name, v) (dumped cdd cp st items).
Proof.
  induction items as [|[a f] items IH]; intros Hin Hg; [destruct Hin|].
  simpl. destruct Hin as [Heq | Hin].
  - inversion Heq; subst a f. rewrite Hg. left. reflexivity.
  - destruct (get_value f cdd cp st); [right|]; apply IH; assumption.
Qed.

(** In a dump that completes, a field whose [get_value] returns [v] is
    found under its name with [v]. *)
Lemma to_dict_items_value cdd cp st items d name r v :
  NoDup (od_keys items) ->
  to_dict_items cdd cp st items [] = Ok d ->
  In (name, r) items ->
  get_value r cdd cp st = Ok v ->
  od_get name d = Some v.
Proof.
  intros Hnd H Hin Hg.
  rewrite (to_dict_items_exact cdd cp st items [] Hnd) in H
    by (intros; reflexivity).
  destruct (first_failure cdd cp st items); [discriminate|].
  inversion H; subst d. simpl.
  apply In_od_get; [apply dumped_NoDup; exact Hnd|].
  eapply dumped_In; eauto.
Qed.

(** In a dump that completes, no [get_value] raised anything but the
    suppression signal. *)
Lemma to_dict_items_no_failure cdd cp st items d name r :
  NoDup (od_keys items) ->
  to_dict_items cdd cp st items [] = Ok d ->
  In (name, r) items ->
  (exists v, get_value r cdd cp st = Ok v)
  \/ get_value r cdd cp st = Raise DontDumpError.
Proof.
  intros Hnd H Hin.
  destruct (get_value r cdd cp st) as [v|e] eqn:G; [left; eexists; reflexivity|].
  right. destruct (is_DontDumpError e) eqn:E.
  - apply is_DontDumpError_true in E. subst e. reflexivity.
  - apply is_DontDumpError_false in E.
    destruct (to_dict_items_abort cdd cp st items [] name r e Hin G E)
      as [e' [He' _]]. congruence.
Qed.

End DumpFacts.

Module DumpExtras.
Import Fields ODict Registry Config Reference ConfigRef Scenario.
Import ODictFacts FieldFacts DumpClaims DumpFacts.

(** X4. On a registry with distinct names, [to_dict] raises the first
    exception other than [DontDumpError] that a [get_value] raises, going
    through the registry in order; when there is none it returns exactly the
    fields whose [get_value] returns, each with that value, in the order of
    the registry. *)
Theorem to_dict_exact :
  forall (self : ConfigObj) (check_dont_dump check_printable : bool) (st : Store),
    NoDup (od_keys (_declared_fields (self_class self))) ->
    to_dict self check_dont_dump check_printable st =
    match first_failure check_dont_dump check_printable st
                        (_declared_fields (self_class self)) with
    | Some e => Raise e
    | None =>
        Ok (dumped check_dont_dump check_printable st
                   (_declared_fields (self_class self)))
    end.
Proof.
  intros self cdd cp st Hnd. unfold to_dict.
  rewrite (to_dict_items_exact cdd cp st _ [] Hnd) by (intros; reflexivity).
  reflexivity.
Qed.

Lemma to_dict_exact_witness :
  NoDup (od_keys (_declared_fields (self_class with_token1)))
  /\ to_dict with_token1 true false st_with_token1
     = Ok [("project_name", VNone); ("owner", VInt 1)]
  /\ to_dict with_token1 true false st_demo = Raise AttributeError.
Proof.
  assert (H : NoDup (od_keys (_declared_fields (self_class with_token1))))
    by (vm_compute; repeat constructor; simpl; intuition discriminate).
  split; [exact H|]. split.
  - rewrite (to_dict_exact with_token1 true false st_with_token1 H). reflexivity.
  - rewrite (to_dict_exact with_token1 true false st_demo H). reflexivity.
Defined.

(** X5. A field with [printable=False] that is bound reads as the marker
    [***HIDDEN***] under [check_printable=True], and its getter is not run;
    so in every dump made with [check_printable=True] that completes, the
    field stands with the marker, unless [check_dont_dump] is set and the
    field is marked [dont_dump], which comes first. *)
Theorem to_dict_hides_non_printable :
  forall (self : ConfigObj) (st : Store) (name : string) (r : FieldRef),
    NoDup (od_keys (_declared_fields (self_class self))) ->
    In (name, r) (_declared_fields (self_class self)) ->
    printable (st r) = false ->
    (forall c check_dont_dump,
        _config_object (st r) = Some c ->
        get_value r check_dont_dump true st =
        if check_dont_dump && dont_dump (st r) then Raise DontDumpError
        else Ok HIDDEN)
    /\ (forall check_dont_dump d,
          to_dict self check_dont_dump true st = Ok d ->
          check_dont_dump && dont_dump (st r) = false ->
          od_get name d = Some HIDDEN).
Proof.
  intros self st name r Hnd Hin Hp.
  assert (Hg : forall c cdd,
             _config_object (st r) = Some c ->
             get_value r cdd true st =
             if cdd && dont_dump (st r) then Raise DontDumpError else Ok HIDDEN).
  { intros c cdd Hc. unfold get_value. rewrite Hc, Hp.
    destruct (cdd && dont_dump (st r)); reflexivity. }
  split; [exact Hg|].
  intros cdd d Hd Hflag. unfold to_dict in Hd.
  eapply to_dict_items_value; [exact Hnd | exact Hd | exact Hin|].
  destruct (_config_object (st r)) as [c|] eqn:Hc.
  - rewrite (Hg c cdd eq_refl), Hflag. reflexivity.
  - exfalso.
    destruct (to_dict_items_no_failure cdd true st _ d name r Hnd Hd Hin)
      as [[v Hv] | Hv]; unfold get_value in Hv; rewrite Hc in Hv; discriminate.
Qed.

Lemma to_dict_hides_non_printable_witness :
  NoDup (od_keys (_declared_fields (self_class demo1)))
  /\ In ("password", password) (_declared_fields (self_class demo1))
  /\ printable (st_demo1_secret password) = false
  /\ to_dict demo1 false false st_demo1_secret
     = Ok [("project_name", VStr "app"); ("password", VStr "pw");
           ("owner", VInt 1)]
  /\ od_get "password"
       [("project_name", VStr "app"); ("password", HIDDEN); ("owner", VInt 1)]
     = Some HIDDEN.
Proof.
  assert (H1 : NoDup (od_keys (_declared_fields (self_class demo1))))
    by (vm_compute; repeat constructor; simpl; intuition discriminate).
  assert (H2 : In ("password", password) (_declared_fields (self_class demo1)))
    by (vm_compute; tauto).
  assert (H3 : printable (st_demo1_secret password) = false) by reflexivity.
  repeat (split; [assumption|]). split; [reflexivity|].
  destruct (to_dict_hides_non_printable demo1 st_demo1_secret "password"
                                        password H1 H2 H3) as [_ Hd].
  apply (Hd false); reflexivity.
Defined.

End DumpExtras.

(* ===================================================================== *)
(** ** More on construction, [from_dict] and [update] *)
(* ===================================================================== *)

Module InstanceMore.
Import Fields ODict Registry Config Reference ConfigRef.
Import ODictFacts FieldFacts KlassFacts InstanceFacts.

(** What the loop of [from_dict] and [update] leaves in a field: the last
    value written to it, if any. *)
Lemma apply_constants_last_write cf items r :
  forall st,
    apply_constants cf items st r =
    match last_write cf items r with
    | Some v => with_value (st r) v
    | None => st r
    end.
Proof.
  unfold apply_constants.
  induction items as [|[k v] items IH]; intros st; [reflexivity|].
  cbn [fold_left last_write fst snd]. rewrite IH.
  destruct (last_write cf items r) as [w|].
  - destruct (od_get k cf) as [f|]; [|reflexivity].
    destruct (FieldRef_eq_dec r f) as [-> | Hne].
    + rewrite store_set_same. reflexivity.
    + rewrite store_set_other; auto.
  - destruct (od_get k cf) as [f|]; [|reflexivity].
    destruct (FieldRef_eqb f r) eqn:E.
    + apply FieldRef_eqb_eq in E. subst f. rewrite store_set_same. reflexivity.
    + rewrite store_set_other; [reflexivity|].
      intros ->. rewrite FieldRef_eqb_refl in E. discriminate.
Qed.

Lemma last_write_None cf items r :
  (forall k w, In (k, w) items -> od_get k cf <> Some r) ->
  last_write cf items r = None.
Proof.
  induction items as [|[k v] items IH]; intros H; [reflexivity|].
  cbn [last_write]. rewrite IH.
  - destruct (od_get k cf) as [f|] eqn:E; [|reflexivity].
    destruct (FieldRef_eqb f r) eqn:E'; [|reflexivity].
    apply FieldRef_eqb_eq in E'. subst f. exfalso.
    apply (H k v); [left; reflexivity | exact E].
  - intros k' w Hin. apply (H k' w). right. exact Hin.
Qed.

Lemma last_write_single cf items key v r :
  NoDup (map fst items) ->
  In (key, v) items ->
  od_get key cf = Some r ->
  (forall k, od_get k cf = Some r -> k = key) ->
  last_write cf items r = Some v.
Proof.
  induction items as [|[k w] items IH]; intros Hnd Hin Hk Huniq; [destruct Hin|].
  simpl in Hnd. inversion Hnd as [|? ? Hnotin Hnd']; subst.
  cbn [last_write]. destruct Hin as [Heq | Hin].
  - inversion Heq; subst k w. rewrite last_write_None.
    + rewrite Hk, FieldRef_eqb_refl. reflexivity.
    + intros k' w' Hin' Hk'. apply Huniq in Hk'. subst k'.
      apply Hnotin. apply (in_map fst) in Hin'. exact Hin'.
  - rewrite (IH Hnd' Hin Hk Huniq). reflexivity.
Qed.

Lemma NoDup_snd_key {V : Type} (cf : list (string * V)) k k' r :
  NoDup (map snd cf) -> In (k, r) cf -> In (k', r) cf -> k = k'.
Proof.
  induction cf as [|[k0 r0] cf IH]; intros Hnd H1 H2; [destruct H1|].
  simpl in Hnd. inversion Hnd as [|? ? Hnotin Hnd']; subst.
  destruct H1 as [E1 | H1], H2 as [E2 | H2].
  - congruence.
  - inversion E1; subst. exfalso. apply Hnotin.
    apply (in_map snd) in H2. exact H2.
  - inversion E2; subst. exfalso. apply Hnotin.
    apply (in_map snd) in H1. exact H1.
  - apply IH; assumption.
Qed.

(** *** The constructor loop, piece by piece *)

Lemma init_fields_app self kwargs a b st :
  init_fields self kwargs (a ++ b) st =
  match init_fields self kwargs a st with
  | (Ok _, st1) => init_fields self kwargs b st1
  | (Raise e, st1) => (Raise e, st1)
  end.
Proof.
  revert st. induction a as [|[n f] a IH]; intros st; [reflexivity|].
  cbn [app init_fields]. unfold bind.
  destruct (od_get n kwargs) as [w|].
  - destruct (set_value_cases f w st) as [[_ ->] | [_ ->]]; [|reflexivity].
    unfold set_config_object. apply IH.
  - unfold ret, set_config_object. apply IH.
Qed.

Lemma init_fields_total self kwargs items :
  (forall n f w, In (n, f) items -> od_get n kwargs = Some w ->
                 ref_class f = Constant) ->
  forall st, exists st', init_fields self kwargs items st = (Ok tt, st').
Proof.
  induction items as [|[n f] items IH]; intros H st.
  - exists st. reflexivity.
  - cbn [init_fields]. unfold bind at 1. unfold bind at 1.
    destruct (od_get n kwargs) as [w|] eqn:E.
    + rewrite (set_value_Constant f w st (H n f w (or_introl eq_refl) E)).
      unfold set_config_object at 1.
      apply IH. intros n' f' w' Hin. apply (H n' f' w'). right. exact Hin.
    + unfold ret at 1. unfold set_config_object at 1.
      apply IH. intros n' f' w' Hin. apply (H n' f' w'). right. exact Hin.
Qed.

(** Only the keywords that name a listed field are looked at. *)
Lemma init_fields_ext self kw1 kw2 items :
  (forall n f, In (n, f) items -> od_get n kw1 = od_get n kw2) ->
  forall st, init_fields self kw1 items st = init_fields self kw2 items st.
Proof.
  induction items as [|[n f] items IH]; intros H st; [reflexivity|].
  cbn [init_fields]. unfold bind.
  rewrite (H n f (or_introl eq_refl)).
  assert (IH' : forall st, init_fields self kw1 items st
                           = init_fields self kw2 items st).
  { apply IH. intros n' f' Hin. apply (H n' f'). right. exact Hin. }
  destruct (od_get n kw2) as [w|].
  - destruct (set_value f w st) as [[[]|e] st1]; [|reflexivity].
    unfold set_config_object. apply IH'.
  - unfold ret, set_config_object. apply IH'.
Qed.

Lemma od_get_filter_known {V W : Type} (known : list (string * W))
    (kwargs : list (string * V)) n :
  od_contains n known = true ->
  od_get n (filter (fun kv => od_contains (fst kv) known) kwargs)
  = od_get n kwargs.
Proof.
  intros Hn. induction kwargs as [|[k w] kwargs IH]; [reflexivity|].
  cbn [filter fst]. destruct (od_contains k known) eqn:E.
  - cbn [od_get]. rewrite IH. reflexivity.
  - cbn [od_get]. rewrite IH.
    destruct (String.eqb k n) eqn:E'; [|reflexivity].
    apply String.eqb_eq in E'. congruence.
Qed.

End InstanceMore.

Module InstanceExtras.
Import Fields ODict Registry Config Reference ConfigRef Scenario.
Import ODictFacts FieldFacts KlassFacts InstanceFacts InstanceMore DumpFacts.

(** X6. Round trip through [from_dict] and [to_dict]. On a class built by
    the metaclass, for a mapping with distinct keys and a constant registry
    that holds each field object under one name: a key that names a constant
    field without getter leaves its value in that field, [get_value] returns
    it, and every dump made afterwards with both checks off that completes
    has the value under that key. *)
Theorem from_dict_then_to_dict :
  forall (st0 : Store) (mro_tail : list ClassObj) (attrs : list (string * Attr))
         (new_id : ObjId) (dct : list (string * PyVal)) (st : Store)
         (key : string) (r : FieldRef) (v : PyVal),
    let cls := ConfigMeta_new st0 mro_tail attrs in
    NoDup (map fst dct) ->
    NoDup (map snd (_constant_fields cls)) ->
    In (key, v) dct ->
    od_get key (_constant_fields cls) = Some r ->
    _getter_method (st r) = None ->
    exists st',
      from_dict cls new_id dct st = (Ok (mkConfig new_id cls), st')
      /\ value (st' r) = v
      /\ get_value r false false st' = Ok v
      /\ (forall d,
            to_dict (mkConfig new_id cls) false false st' = Ok d ->
            od_get key d = Some v).
Proof.
  intros st0 mro_tail attrs new_id dct st key r v cls Hdct Hrefs Hin Hkey Hget.
  assert (Hc : forall k f, od_get k (_constant_fields cls) = Some f ->
                           ref_class f = Constant).
  { intros k f H. apply (constant_fields_Constant st0 mro_tail attrs k f H). }
  pose proof (constant_fields_Constant st0 mro_tail attrs key r Hkey) as [Hdecl _].
  fold cls in Hdecl.
  eexists. split; [apply (from_dict_total cls new_id dct st Hc)|].
  set (bound := bind_all new_id (_declared_fields cls) st).
  assert (Hr : apply_constants (_constant_fields cls) dct bound r
               = with_value (bound r) v).
  { rewrite apply_constants_last_write.
    rewrite (last_write_single _ dct key v r Hdct Hin Hkey); [reflexivity|].
    intros k Hk. apply od_get_In in Hk. pose proof (od_get_In _ _ _ Hkey) as Hk'.
    apply (NoDup_snd_key _ k key r Hrefs Hk Hk'). }
  assert (Hv : get_value r false false
                 (apply_constants (_constant_fields cls) dct bound) = Ok v).
  { assert (Hcfg : _config_object (bound r) = Some new_id)
      by apply (bind_all_binds new_id _ key r st Hdecl).
    assert (Hgm : _getter_method (bound r) = None).
    { pose proof (bind_all_other_attrs new_id (_declared_fields cls) r st) as E.
      apply (f_equal _getter_method) in E. simpl in E. rewrite <- Hget. exact E. }
    unfold get_value. rewrite Hr.
    cbn [with_value _config_object dont_dump printable _getter_method value].
    rewrite Hcfg, Hgm. reflexivity. }
  split; [rewrite Hr; reflexivity|]. split; [exact Hv|].
  intros d Hd. unfold to_dict in Hd. cbn [self_class] in Hd.
  eapply to_dict_items_value; [|exact Hd | exact Hdecl | exact Hv].
  apply declared_fields_NoDup.
Qed.

Lemma from_dict_then_to_dict_witness :
  NoDup (map fst [("project_name", VStr "My App"); ("owner", VStr "x")])
  /\ NoDup (map snd (_constant_fields Demo))
  /\ od_get "project_name" (_constant_fields Demo) = Some project_name
  /\ _getter_method (st_demo project_name) = None
  /\ exists st',
      from_dict Demo 7 [("project_name", VStr "My App"); ("owner", VStr "x")] st_demo
      = (Ok (mkConfig 7 Demo), st')
      /\ get_value project_name false false st' = Ok (VStr "My App").
Proof.
  assert (H1 : NoDup (map fst [("project_name", VStr "My App"); ("owner", VStr "x")]))
    by (simpl; repeat constructor; simpl; intuition discriminate).
  assert (H2 : NoDup (map snd (_constant_fields Demo)))
    by (vm_compute; repeat constructor; simpl; intuition discriminate).
  assert (H3 : od_get "project_name" (_constant_fields Demo) = Some project_name)
    by reflexivity.
  assert (H4 : _getter_method (st_demo project_name) = None) by reflexivity.
  repeat (split; [assumption|]).
  destruct (from_dict_then_to_dict
              st_demo [BaseConfigClass_obj] demo_attrs 7
              [("project_name", VStr "My App"); ("owner", VStr "x")]
              st_demo "project_name" project_name (VStr "My App")
              H1 H2 (or_introl eq_refl) H3 H4) as [st' [Hf [_ [Hg _]]]].
  exists st'. split; [exact Hf | exact Hg].
Defined.

(** X7. On a class built by the metaclass [update] never raises; each field
    ends with the last value the mapping gives it through the constant
    registry, every other attribute, the binding included, and every other
    field being left as they were; and applying the same mapping a second
    time changes nothing. *)
Theorem update_last_value_wins :
  forall (st0 : Store) (mro_tail : list ClassObj) (attrs : list (string * Attr))
         (self_id : ObjId) (dct : list (string * PyVal)) (st : Store),
    let cls := ConfigMeta_new st0 mro_tail attrs in
    let self := mkConfig self_id cls in
    exists st1,
      update self dct st = (Ok tt, st1)
      /\ (forall r,
            st1 r = match last_write (_constant_fields cls) dct r with
                    | Some v => with_value (st r) v
                    | None => st r
                    end)
      /\ fst (update self dct st1) = Ok tt
      /\ (forall r, snd (update self dct st1) r = st1 r).
Proof.
  intros st0 mro_tail attrs self_id dct st cls self.
  assert (Hc : forall k f, od_get k (_constant_fields cls) = Some f ->
                           ref_class f = Constant).
  { intros k f H. apply (constant_fields_Constant st0 mro_tail attrs k f H). }
  assert (Hu : forall s, update self dct s
                         = (Ok tt, apply_constants (_constant_fields cls) dct s)).
  { intros s. unfold update. apply set_constants_total. exact Hc. }
  exists (apply_constants (_constant_fields cls) dct st).
  split; [apply Hu|]. split; [intros r; apply apply_constants_last_write|].
  rewrite Hu. split; [reflexivity|].
  intros r. cbn [snd]. rewrite !apply_constants_last_write.
  destruct (last_write (_constant_fields cls) dct r); reflexivity.
Qed.

(** X8. A construction that fails is not undone. If the first declared field
    that a keyword cannot set (it is not a [Constant]) comes after the
    fields [pre], the call raises [DeriableSetValueError] and the store is
    the one the loop had reached: every field of [pre] is bound to the
    instance that was never returned and, when no field object stands twice
    in [pre], holds its keyword value, and the fields outside [pre] are
    untouched. *)
Theorem construct_failure_is_partial :
  forall (cls : Klass) (new_id : ObjId) (kwargs : list (string * PyVal))
         (st : Store) (pre post : list (string * FieldRef)) (name : string)
         (d : FieldRef) (v : PyVal),
    _declared_fields cls = pre ++ (name, d) :: post ->
    ref_class d <> Constant ->
    od_get name kwargs = Some v ->
    (forall n f w, In (n, f) pre -> od_get n kwargs = Some w ->
                   ref_class f = Constant) ->
    exists st',
      construct cls new_id kwargs st = (Raise DeriableSetValueError, st')
      /\ init_fields new_id kwargs pre st = (Ok tt, st')
      /\ (forall n f, In (n, f) pre -> _config_object (st' f) = Some new_id)
      /\ (forall n f w,
            NoDup (map snd pre) -> In (n, f) pre -> od_get n kwargs = Some w ->
            value (st' f) = w)
      /\ (forall f, ~ In f (map snd pre) -> st' f = st f).
Proof.
  intros cls new_id kwargs st pre post name d v Hdecl Hd Hk Hpre.
  destruct (init_fields_total new_id kwargs pre Hpre st) as [st' Hinit].
  exists st'. split; [|split; [exact Hinit|split; [|split]]].
  - unfold construct, BaseConfigClass_init. cbn [self_id self_class].
    unfold bind at 1. rewrite Hdecl, init_fields_app, Hinit.
    cbn [init_fields]. unfold bind. rewrite Hk.
    rewrite (set_value_not_Constant d v st' Hd). reflexivity.
  - intros n f Hin. eapply init_fields_binds; eauto.
  - intros n f w Hnd Hin Hw. eapply init_fields_value; eauto.
  - intros f Hn. eapply init_fields_frame; eauto.
Qed.

Lemma construct_failure_is_partial_witness :
  _declared_fields Demo
  = [("project_name", project_name); ("password", password)]
    ++ ("owner", owner) :: []
  /\ ref_class owner <> Constant
  /\ exists st',
      construct Demo 9 [("project_name", VStr "x"); ("owner", VStr "me")] st_demo1
      = (Raise DeriableSetValueError, st')
      /\ value (st' project_name) = VStr "x"
      /\ _config_object (st' project_name) = Some 9.
Proof.
  assert (H1 : _declared_fields Demo
               = [("project_name", project_name); ("password", password)]
                 ++ ("owner", owner) :: []) by reflexivity.
  assert (H2 : ref_class owner <> Constant) by discriminate.
  split; [exact H1|]. split; [exact H2|].
  destruct (construct_failure_is_partial
              Demo 9 [("project_name", VStr "x"); ("owner", VStr "me")] st_demo1
              _ _ "owner" owner (VStr "me") H1 H2 eq_refl)
    as [st' [Hc [_ [Hb [Hv _]]]]].
  { intros n f w [E | [E | []]] _; inversion E; reflexivity. }
  exists st'. split; [exact Hc|]. split.
  - apply (Hv "project_name" project_name (VStr "x")).
    + simpl. repeat constructor; simpl; intuition discriminate.
    + left. reflexivity.
    + reflexivity.
  - apply (Hb "project_name"). left. reflexivity.
Defined.

(** X9. The constructor looks only at the keywords that name a declared
    field: the others are ignored without error, and the call returns
    whenever every declared field named by a keyword is a [Constant]. *)
Theorem construct_ignores_unknown_keywords :
  forall (cls : Klass) (new_id : ObjId) (kwargs : list (string * PyVal))
         (st : Store),
    (forall n f w, In (n, f) (_declared_fields cls) ->
                   od_get n kwargs = Some w -> ref_class f = Constant) ->
    construct cls new_id
              (filter (fun kv => od_contains (fst kv) (_declared_fields cls)) kwargs)
              st
    = construct cls new_id kwargs st
    /\ exists st', construct cls new_id kwargs st = (Ok (mkConfig new_id cls), st').
Proof.
  intros cls new_id kwargs st H. split.
  - unfold construct, BaseConfigClass_init. cbn [self_id self_class].
    unfold bind. rewrite (init_fields_ext new_id _ kwargs); [reflexivity|].
    intros n f Hin. apply od_get_filter_known.
    apply od_contains_In. apply (in_map fst) in Hin. exact Hin.
  - destruct (init_fields_total new_id kwargs _ H st) as [st' Hinit].
    exists st'. unfold construct, BaseConfigClass_init. cbn [self_id self_class].
    unfold bind. rewrite Hinit. reflexivity.
Qed.

Lemma construct_ignores_unknown_keywords_witness :
  (forall n f w, In (n, f) (_declared_fields Demo) ->
                 od_get n [("projct_name", VStr "typo"); ("password", VStr "pw")]
                 = Some w ->
                 ref_class f = Constant)
  /\ construct Demo 5 [("password", VStr "pw")] st_demo
     = construct Demo 5 [("projct_name", VStr "typo"); ("password", VStr "pw")]
                 st_demo.
Proof.
  assert (H : forall n f w, In (n, f) (_declared_fields Demo) ->
                 od_get n [("projct_name", VStr "typo"); ("password", VStr "pw")]
                 = Some w ->
                 ref_class f = Constant).
  { intros n f w [E | [E | [E | []]]] Hw; inversion E; subst; try reflexivity.
    discriminate. }
  split; [exact H|].
  exact (proj1 (construct_ignores_unknown_keywords
                  Demo 5 [("projct_name", VStr "typo"); ("password", VStr "pw")]
                  st_demo H)).
Defined.

End InstanceExtras.

(* ===================================================================== *)
(** ** More on [validate] and on the registries *)
(* ===================================================================== *)

Module ValidateExtras.
Import Fields ODict Registry Config Reference ConfigRef Scenario.
Import ODictFacts FieldFacts KlassFacts.

Lemma validate_constants_iff items st :
  (forall n r, In (n, r) items -> ref_class r = Constant) ->
  validate_constants items st = Ok tt
  <-> (forall n r, In (n, r) items -> checks_pass false st r).
Proof.
  induction items as [|[n f] items IH]; intros Hc.
  - split; [intros _ n r [] | reflexivity].
  - assert (Hc' : forall n r, In (n, r) items -> ref_class r = Constant)
      by (intros n' r' Hin; apply (Hc n' r'); right; exact Hin).
    cbn [validate_constants]. unfold call_validate0, Constant_validate.
    rewrite (Hc n f (or_introl eq_refl)). split.
    + intros H n' r' [Heq | Hin].
      * inversion Heq; subst n' r'. unfold checks_pass.
        destruct (get_value f false false st) as [v|e] eqn:G; [|discriminate].
        cbn [rbind] in H.
        destruct (_validate_method (st f) v) as [w|e] eqn:W; [|discriminate].
        exists v, w. split; [reflexivity | exact W].
      * destruct (get_value f false false st) as [v|e]; [|discriminate].
        cbn [rbind] in H.
        destruct (_validate_method (st f) v) as [w|e]; [|discriminate].
        cbn [rbind] in H. apply (proj1 (IH Hc') H n' r' Hin).
    + intros H. destruct (H n f (or_introl eq_refl)) as [v [w [Hv Hw]]].
      rewrite Hv. cbn [rbind]. rewrite Hw. cbn [rbind].
      apply IH; [exact Hc'|]. intros n' r' Hin. apply (H n' r'). right. exact Hin.
Qed.

Lemma validate_deriables_iff self items st :
  (forall n r, In (n, r) items -> ref_class r = Derivable) ->
  validate_deriables self items st = Ok tt
  <-> (forall n r, In (n, r) items -> checks_pass true st r).
Proof.
  induction items as [|[n f] items IH]; intros Hc.
  - split; [intros _ n r [] | reflexivity].
  - assert (Hc' : forall n r, In (n, r) items -> ref_class r = Derivable)
      by (intros n' r' Hin; apply (Hc n' r'); right; exact Hin).
    cbn [validate_deriables]. unfold call_validate1, Derivable_validate, truthy.
    rewrite (Hc n f (or_introl eq_refl)). split.
    + intros H n' r' [Heq | Hin].
      * inversion Heq; subst n' r'. unfold checks_pass.
        destruct (get_value f true false st) as [v|e] eqn:G; [|discriminate].
        cbn [rbind] in H.
        destruct (_validate_method (st f) v) as [w|e] eqn:W; [|discriminate].
        exists v, w. split; [reflexivity | exact W].
      * destruct (get_value f true false st) as [v|e]; [|discriminate].
        cbn [rbind] in H.
        destruct (_validate_method (st f) v) as [w|e]; [|discriminate].
        cbn [rbind] in H. apply (proj1 (IH Hc') H n' r' Hin).
    + intros H. destruct (H n f (or_introl eq_refl)) as [v [w [Hv Hw]]].
      rewrite Hv. cbn [rbind]. rewrite Hw. cbn [rbind].
      apply IH; [exact Hc'|]. intros n' r' Hin. apply (H n' r'). right. exact Hin.
Qed.

Lemma registry_In_class st0 mro_tail attrs c n r :
  In (n, r) (OrderedDict
               (fields_of_class c (_declared_fields (ConfigMeta_new st0 mro_tail attrs)))) ->
  isinstance (ref_class r) c = true.
Proof.
  intros H. apply In_OrderedDict in H. unfold fields_of_class in H.
  apply filter_In in H. tauto.
Qed.

(** X10. On a class built by the metaclass, [validate] returns exactly when,
    for every constant field and then every derivable field, [get_value]
    returns and the validator, given that value, returns: what the validator
    returns plays no part, so a validator that returns [False] rejects
    nothing; only an exception does. *)
Theorem validate_passes_iff_nothing_raises :
  forall (st0 : Store) (mro_tail : list ClassObj) (attrs : list (string * Attr))
         (obj : ObjId) (st : Store),
    let cls := ConfigMeta_new st0 mro_tail attrs in
    validate (mkConfig obj cls) st = Ok tt
    <-> ((forall n r, In (n, r) (_constant_fields cls) -> checks_pass false st r)
         /\ (forall n r, In (n, r) (_deriable_fields cls) -> checks_pass true st r)).
Proof.
  intros st0 mro_tail attrs obj st cls.
  assert (Hc : forall n r, In (n, r) (_constant_fields cls) -> ref_class r = Constant).
  { intros n r H. apply registry_In_class in H. apply FieldClass_eqb_eq. exact H. }
  assert (Hd : forall n r, In (n, r) (_deriable_fields cls) -> ref_class r = Derivable).
  { intros n r H. apply registry_In_class in H. apply FieldClass_eqb_eq. exact H. }
  unfold validate. cbn [self_class self_id].
  rewrite <- (validate_constants_iff _ st Hc).
  rewrite <- (validate_deriables_iff obj _ st Hd).
  destruct (validate_constants (_constant_fields cls) st) as [[]|e]; cbn [rbind].
  - tauto.
  - split; [discriminate | intros [H _]; discriminate].
Qed.

Example validate_return_value_ignored :
  _validate_method (st_demo1_returning_false project_name) (VStr "app")
  = Ok (VBool false)
  /\ validate demo1 st_demo1_returning_false = Ok tt
  /\ validate demo1 st_demo1_raising = Raise (UserError "invalid").
Proof. repeat split. Qed.

End ValidateExtras.

Module RegistryFacts.
Import Fields ODict Registry Reference ConfigRef.
Import ODictFacts SortFacts UpdateFacts RegistryClaims.

Section WithValues.
Context {V : Type}.
Implicit Types (d l : list (string * V)).

Lemma od_update_disjoint l :
  forall d, NoDup (od_keys (d ++ l)) -> od_update d l = d ++ l.
Proof.
  induction l as [|[k v] l IH]; intros d H.
  - rewrite app_nil_r. reflexivity.
  - change (od_update d ((k, v) :: l)) with (od_update (od_set k v d) l).
    assert (Hk : od_contains k d = false).
    { apply od_contains_false. intros Hin.
      unfold od_keys in H. rewrite map_app in H. simpl in H.
      apply NoDup_remove_2 in H. apply H. apply in_or_app. left. exact Hin. }
    rewrite (od_set_fresh k v d Hk), IH.
    + rewrite <- app_assoc. reflexivity.
    + rewrite <- app_assoc. exact H.
Qed.

(** An [OrderedDict] made from pairs with distinct keys is those pairs. *)
Lemma OrderedDict_id l : NoDup (od_keys l) -> OrderedDict l = l.
Proof. intros H. apply (od_update_disjoint l []). exact H. Qed.

Lemma filter_keys_In (p : string * V -> bool) l k :
  In k (od_keys (filter p l)) -> In k (od_keys l).
Proof.
  unfold od_keys. intros H. apply in_map_iff in H. destruct H as [x [Hx Hin]].
  apply filter_In in Hin. apply in_map_iff. exists x. tauto.
Qed.

Lemma filter_keys_NoDup (p : string * V -> bool) l :
  NoDup (od_keys l) -> NoDup (od_keys (filter p l)).
Proof.
  induction l as [|[k v] l IH]; simpl; intros H; [constructor|].
  inversion H as [|? ? Hn Hnd]; subst.
  destruct (p (k, v)); simpl; [|apply IH; exact Hnd].
  constructor; [|apply IH; exact Hnd].
  intros Hin. apply Hn. eapply filter_keys_In. exact Hin.
Qed.

Lemma od_get_filter (p : string * V -> bool) l k :
  NoDup (od_keys l) ->
  od_get k (filter p l) =
  match od_get k l with
  | Some v => if p (k, v) then Some v else None
  | None => None
  end.
Proof.
  induction l as [|[k' v'] l IH]; simpl; intros H; [reflexivity|].
  inversion H as [|? ? Hn Hnd]; subst.
  destruct (String.eqb k' k) eqn:E.
  - apply String.eqb_eq in E. subst k'.
    destruct (p (k, v')) eqn:P; simpl.
    + rewrite String.eqb_refl. reflexivity.
    + assert (Hk : od_contains k (filter p l) = false).
      { apply od_contains_false. intros Hin. apply Hn.
        eapply filter_keys_In. exact Hin. }
      unfold od_contains in Hk. destruct (od_get k (filter p l)); congruence.
  - destruct (p (k', v')); simpl; [rewrite E|]; apply IH; exact Hnd.
Qed.

(** Under distinct keys a lookup does not depend on the order of the
    pairs. *)
Lemma od_get_Permutation l l' k :
  NoDup (od_keys l) -> Permutation l l' -> od_get k l = od_get k l'.
Proof.
  intros Hnd Hp.
  assert (Hnd' : NoDup (od_keys l')).
  { unfold od_keys. eapply Permutation_NoDup; [|exact Hnd].
    apply Permutation_map. exact Hp. }
  destruct (od_get k l) as [v|] eqn:E.
  - symmetry. apply In_od_get; [exact Hnd'|].
    eapply Permutation_in; [exact Hp|]. apply od_get_In. exact E.
  - destruct (od_get k l') as [v|] eqn:E'; [|reflexivity].
    apply od_get_In in E'. apply Permutation_sym in Hp.
    apply (Permutation_in _ Hp) in E'.
    apply (In_od_get _ _ _ Hnd) in E'. congruence.
Qed.

End WithValues.

(** A list sorted by a key, in the wide sense, that is a rearrangement of a
    list sorted in the strict sense, is that list. *)
Lemma sorted_Permutation_eq {A : Type} (key : A -> nat) (l1 : list A) :
  forall l2,
    StronglySorted (key_le key) l1 ->
    StronglySorted (fun x y => key x < key y) l2 ->
    Permutation l1 l2 ->
    l1 = l2.
Proof.
  induction l1 as [|a l1 IH]; intros l2 H1 H2 Hp.
  - apply Permutation_nil in Hp. subst. reflexivity.
  - destruct l2 as [|b l2].
    + apply Permutation_sym, Permutation_nil in Hp. discriminate.
    + inversion H1 as [|? ? Hs1 Hf1]; subst.
      inversion H2 as [|? ? Hs2 Hf2]; subst.
      assert (Hab : a = b).
      { assert (Ha : In a (b :: l2))
          by (eapply Permutation_in; [exact Hp | left; reflexivity]).
        assert (Hb : In b (a :: l1))
          by (eapply Permutation_in; [apply Permutation_sym; exact Hp
                                     | left; reflexivity]).
        destruct Ha as [Ha | Ha]; [congruence|].
        destruct Hb as [Hb | Hb]; [congruence|].
        rewrite Forall_forall in Hf1, Hf2.
        pose proof (Hf1 b Hb) as L1. pose proof (Hf2 a Ha) as L2.
        unfold key_le in L1. lia. }
      subst b. f_equal. apply IH; [exact Hs1 | exact Hs2|].
      eapply Permutation_cons_inv. exact Hp.
Qed.

End RegistryFacts.

Module RegistryExtras.
Import Fields ODict Registry Reference ConfigRef Scenario.
Import ODictFacts SortFacts UpdateFacts RegistryClaims RegistryFacts KlassFacts.

(** X11. On a class built by the metaclass the constant and the derivable
    registries are the declared registry restricted to the fields of each
    class, names in the same order; a declared name is in the constant
    registry exactly when its field is a [Constant], in the derivable one
    exactly when it is a [Derivable], with the same field object. *)
Theorem registries_partition_declared_fields :
  forall (st : Store) (mro_tail : list ClassObj) (attrs : list (string * Attr)),
    let cls := ConfigMeta_new st mro_tail attrs in
    _constant_fields cls = fields_of_class Constant (_declared_fields cls)
    /\ _deriable_fields cls = fields_of_class Derivable (_declared_fields cls)
    /\ (forall name,
          od_get name (_constant_fields cls) =
          match od_get name (_declared_fields cls) with
          | Some r => if FieldClass_eqb (ref_class r) Constant then Some r else None
          | None => None
          end)
    /\ (forall name,
          od_get name (_deriable_fields cls) =
          match od_get name (_declared_fields cls) with
          | Some r => if FieldClass_eqb (ref_class r) Derivable then Some r else None
          | None => None
          end).
Proof.
  intros st mro_tail attrs cls.
  pose proof (declared_fields_NoDup st mro_tail attrs) as Hnd. fold cls in Hnd.
  assert (Hreg : forall c,
             OrderedDict (fields_of_class c (_declared_fields cls))
             = fields_of_class c (_declared_fields cls)).
  { intros c. apply OrderedDict_id. apply filter_keys_NoDup. exact Hnd. }
  assert (Hc : _constant_fields cls = fields_of_class Constant (_declared_fields cls))
    by apply Hreg.
  assert (Hd : _deriable_fields cls = fields_of_class Derivable (_declared_fields cls))
    by apply Hreg.
  split; [exact Hc|]. split; [exact Hd|]. split.
  - intros name. rewrite Hc. unfold fields_of_class.
    rewrite (od_get_filter _ _ name Hnd). reflexivity.
  - intros name. rewrite Hd. unfold fields_of_class.
    rewrite (od_get_filter _ _ name Hnd). reflexivity.
Qed.

Section Resolution.
Variable st : Store.

Let own_of (attrs : list (string * Attr)) : list (string * FieldRef) :=
  fst (_get_fields st attrs Field false true).

Lemma own_of_get attrs name :
  NoDup (map fst attrs) ->
  od_get name (own_of attrs) = od_get name (select_fields Field attrs).
Proof.
  intros H. symmetry. apply od_get_Permutation.
  - apply select_fields_NoDup. exact H.
  - apply Permutation_sym. apply sort_by_perm.
Qed.

Lemma own_of_NoDup attrs : NoDup (map fst attrs) -> NoDup (od_keys (own_of attrs)).
Proof.
  intros H. apply sort_by_NoDup_map. apply select_fields_NoDup. exact H.
Qed.

(** Setting pairs with distinct keys: their values win, the other keys keep
    theirs. *)
Lemma od_get_update_pairs (d pairs : list (string * FieldRef)) name :
  NoDup (od_keys pairs) ->
  od_get name (od_update d pairs) =
  match od_get name pairs with
  | Some r => Some r
  | None => od_get name d
  end.
Proof.
  intros H. destruct (od_get name pairs) as [r|] eqn:E.
  - apply od_get_update_In; [exact H | apply od_get_In; exact E].
  - apply od_get_update_notin. apply od_contains_false.
    unfold od_contains. rewrite E. reflexivity.
Qed.

Lemma od_get_inherited name (bases : list ClassObj) :
  (forall base, In base bases -> NoDup (map fst (getattr_declared_fields base))) ->
  forall d,
    od_get name
      (od_update d
         (concat (map (fun base => own_of (getattr_declared_fields base))
                      (rev bases))))
    = match lookup_mro name bases with
      | Some r => Some r
      | None => od_get name d
      end.
Proof.
  induction bases as [|base bases IH]; intros Hnd d; [reflexivity|].
  cbn [rev lookup_mro]. rewrite map_app, concat_app, od_update_app.
  cbn [map concat]. rewrite app_nil_r.
  rewrite od_get_update_pairs
    by (apply own_of_NoDup; apply Hnd; left; reflexivity).
  rewrite own_of_get by (apply Hnd; left; reflexivity).
  destruct (od_get name (select_fields Field (getattr_declared_fields base)));
    [reflexivity|].
  apply IH. intros b Hb. apply Hnd. right. exact Hb.
Qed.

Lemma declared_fields_lookup mro_tail attrs name :
  NoDup (map fst attrs) ->
  (forall base, In base mro_tail ->
                NoDup (map fst (getattr_declared_fields base))) ->
  od_get name (_declared_fields (ConfigMeta_new st mro_tail attrs)) =
  match od_get name (select_fields Field attrs) with
  | Some r => Some r
  | None => lookup_mro name mro_tail
  end.
Proof.
  intros Ha Hb.
  change (_declared_fields (ConfigMeta_new st mro_tail attrs))
    with (OrderedDict
            (concat (map (fun base => own_of (getattr_declared_fields base))
                         (rev mro_tail))
             ++ own_of attrs)).
  unfold OrderedDict. rewrite od_update_app.
  rewrite od_get_update_pairs by (apply own_of_NoDup; exact Ha).
  rewrite own_of_get by exact Ha.
  destruct (od_get name (select_fields Field attrs)); [reflexivity|].
  rewrite (od_get_inherited name mro_tail Hb []).
  destruct (lookup_mro name mro_tail); reflexivity.
Qed.

End Resolution.

(** X12. With any bases, a name of the declared registry maps to the field
    the class body itself gives it, and otherwise to the field found under
    that name in the first base, in method resolution order, whose own
    registry has the name ([_declared_fields] of the base when it has one,
    inherited names included, its [__dict__] otherwise). This is the
    registry's own rule and not the lookup of the attribute: a base that
    inherited the name answers with the object it inherited, before a later
    base that declares the name itself. (Class bodies and registries have
    distinct names.) *)
Theorem declared_field_follows_mro :
  forall (st : Store) (mro_tail : list ClassObj) (attrs : list (string * Attr))
         (name : string),
    NoDup (map fst attrs) ->
    (forall base, In base mro_tail ->
                  NoDup (map fst (getattr_declared_fields base))) ->
    od_get name (_declared_fields (ConfigMeta_new st mro_tail attrs)) =
    match od_get name (select_fields Field attrs) with
    | Some r => Some r
    | None => lookup_mro name mro_tail
    end.
Proof. intros st mro_tail attrs name. apply declared_fields_lookup. Qed.

Lemma declared_field_follows_mro_witness :
  NoDup (map fst (@nil (string * Attr)))
  /\ (forall base, In base both_mro_tail ->
                   NoDup (map fst (getattr_declared_fields base)))
  /\ od_get "region" (_declared_fields Both) = Some region
  /\ od_get "zone" (_declared_fields Both) = Some token
  /\ od_keys (_declared_fields Both)
     = ["zone"; "region"; "project_name"; "password"; "owner"].
Proof.
  assert (H1 : NoDup (map fst (@nil (string * Attr)))) by constructor.
  assert (H2 : forall base, In base both_mro_tail ->
                            NoDup (map fst (getattr_declared_fields base))).
  { intros base [<- | [<- | [<- | [<- | []]]]]; vm_compute;
      repeat constructor; simpl; intuition discriminate. }
  split; [exact H1|]. split; [exact H2|]. split; [|split; [|reflexivity]].
  - etransitivity;
      [exact (declared_field_follows_mro st_demo both_mro_tail [] "region" H1 H2)|].
    reflexivity.
  - etransitivity;
      [exact (declared_field_follows_mro st_demo both_mro_tail [] "zone" H1 H2)|].
    reflexivity.
Defined.

(** X13. The fields of a class body come out of [_get_fields] in the order
    of their creation, whatever the order in which the body yields its
    attributes: if [decl] lists them by strictly increasing creation index,
    the ordered result is [decl]; and when no base contributes a field, the
    declared registry of the class is [decl]. *)
Theorem own_fields_in_creation_order :
  forall (st : Store) (mro_tail : list ClassObj) (attrs : list (string * Attr))
         (decl : list (string * FieldRef)),
    Permutation (select_fields Field attrs) decl ->
    StronglySorted
      (fun p q => creation_index_of st p < creation_index_of st q) decl ->
    fst (_get_fields st attrs Field false true) = decl
    /\ (NoDup (od_keys decl) ->
        (forall base, In base mro_tail ->
                      select_fields Field (getattr_declared_fields base) = []) ->
        _declared_fields (ConfigMeta_new st mro_tail attrs) = decl).
Proof.
  intros st mro_tail attrs decl Hp Hs.
  assert (Hown : fst (_get_fields st attrs Field false true) = decl).
  { cbn [_get_fields fst].
    apply (sorted_Permutation_eq (fun pair => _creation_index (st (snd pair)))).
    - apply sort_by_sorted.
    - exact Hs.
    - rewrite sort_by_perm. exact Hp. }
  split; [exact Hown|].
  intros Hnd Hbases.
  change (_declared_fields (ConfigMeta_new st mro_tail attrs))
    with (OrderedDict
            (_get_fields_by_mro st (mkClass None attrs :: mro_tail) Field true
             ++ fst (_get_fields st attrs Field false true))).
  rewrite Hown.
  assert (Hinh : _get_fields_by_mro st (mkClass None attrs :: mro_tail) Field true
                 = []).
  { unfold _get_fields_by_mro. cbn [tl].
    assert (G : forall bases,
               (forall base, In base bases ->
                  select_fields Field (getattr_declared_fields base) = []) ->
               concat
                 (map (fun base =>
                         fst (_get_fields st (getattr_declared_fields base)
                                          Field false true)) bases) = []).
    { induction bases as [|b bases IH]; intros Hb; [reflexivity|].
      cbn [map concat _get_fields fst].
      rewrite (Hb b (or_introl eq_refl)). cbn [sort_by app].
      apply IH. intros b' Hb'. apply Hb. right. exact Hb'. }
    apply G. intros base Hin. apply Hbases. apply in_rev. exact Hin. }
  rewrite Hinh. cbn [app]. apply OrderedDict_id. exact Hnd.
Qed.

Lemma own_fields_in_creation_order_witness :
  Permutation (select_fields Field demo_attrs_shuffled)
              [("project_name", project_name); ("password", password);
               ("owner", owner)]
  /\ fst (_get_fields st_demo demo_attrs_shuffled Field false false)
     = [("owner", owner); ("project_name", project_name); ("password", password)]
  /\ fst (_get_fields st_demo demo_attrs_shuffled Field false true)
     = [("project_name", project_name); ("password", password); ("owner", owner)].
Proof.
  assert (H1 : Permutation (select_fields Field demo_attrs_shuffled)
                 [("project_name", project_name); ("password", password);
                  ("owner", owner)]).
  { apply (Permutation_cons_append
             [("project_name", project_name); ("password", password)]
             ("owner", owner)). }
  assert (H2 : StronglySorted
                 (fun p q => creation_index_of st_demo p < creation_index_of st_demo q)
                 [("project_name", project_name); ("password", password);
                  ("owner", owner)]).
  { repeat constructor; vm_compute; repeat constructor. }
  split; [exact H1|]. split; [reflexivity|].
  exact (proj1 (own_fields_in_creation_order
                  st_demo [BaseConfigClass_obj] demo_attrs_shuffled _ H1 H2)).
Defined.

End RegistryExtras.

(* ===================================================================== *)
(** ** The command-line scripts *)
(* ===================================================================== *)

Module GlueFacts.
Import PyText TextRef ODict Glue.

Lemma obind_assoc {A B C : Type} (o : Outcome A) (f : A -> Outcome B)
    (g : B -> Outcome C) :
  obind (obind o f) g = obind o (fun a => obind (f a) g).
Proof. destruct o; reflexivity. Qed.

Lemma prefix_cons (a b : ascii) (p s : string) :
  String.prefix (String a p) (String b s)
  = if ascii_dec a b then String.prefix p s else false.
Proof. reflexivity. Qed.

Lemma split_from_dot_cons (c : ascii) (cur s : string) :
  split_from "." 0 cur (String c s)
  = if ascii_dec "." c then cur :: split_from "." 0 EmptyString s
    else split_from "." 0 (cur ++ chr1 c) s.
Proof.
  cbn [split_from]. rewrite prefix_cons, TextFacts.prefix_empty.
  destruct (ascii_dec "." c); reflexivity.
Qed.

(** Cutting at dots: the pieces of [a.b] are those of [a], then those of
    [b]. *)
Lemma split_dot_app (a b : string) :
  forall cur,
    split_from "." 0 cur (a ++ "." ++ b)%string
    = (split_from "." 0 cur a ++ split_from "." 0 EmptyString b)%list.
Proof.
  induction a as [|c a IH]; intros cur.
  - change (EmptyString ++ "." ++ b)%string with (String "." b).
    rewrite split_from_dot_cons.
    destruct (ascii_dec "." "."); [reflexivity | congruence].
  - change (String c a ++ "." ++ b)%string with (String c (a ++ "." ++ b)).
    rewrite !split_from_dot_cons.
    destruct (ascii_dec "." c) as [E|E].
    + rewrite IH. reflexivity.
    + apply IH.
Qed.

(** One loop over the parts of two paths is one loop after the other. *)
Lemma descend_app (l1 l2 : list string) :
  forall value,
    descend (l1 ++ l2)%list value = obind (descend l1 value) (descend l2).
Proof.
  induction l1 as [|part l1 IH]; intros value; [reflexivity|].
  cbn [app descend].
  destruct (py_contains part value) as [[|]|e]; [|reflexivity|reflexivity].
  destruct (py_getitem value part) as [v|e]; [|reflexivity].
  cbn [obind]. apply IH.
Qed.

Lemma find_at_head (p s : string) :
  p <> EmptyString -> String.prefix p s = true -> find p s = Some 0.
Proof.
  intros Hp H. destruct s as [|c s].
  - destruct p; [congruence | discriminate].
  - cbn [find]. rewrite H. reflexivity.
Qed.

Lemma fix_json_path_dollar (p : string) :
  fix_json_path ("$." ++ p)%string = p.
Proof.
  unfold fix_json_path, startswith, replace_first.
  rewrite TextFacts.prefix_append.
  rewrite find_at_head by (try discriminate; apply TextFacts.prefix_append).
  reflexivity.
Qed.

Lemma fix_json_path_plain (p : string) :
  startswith p "$." = false -> fix_json_path p = p.
Proof. unfold fix_json_path. intros ->. reflexivity. Qed.

Lemma fix_json_path_app (p1 p2 : string) :
  p1 <> "$" ->
  fix_json_path (p1 ++ "." ++ p2)%string = (fix_json_path p1 ++ "." ++ p2)%string.
Proof.
  intros Hne. unfold fix_json_path, startswith.
  destruct p1 as [|c [|d r]].
  - reflexivity.
  - change (String c EmptyString ++ "." ++ p2)%string with (String c (String "." p2)).
    rewrite !prefix_cons. destruct (ascii_dec "$" c) as [E|E]; [|reflexivity].
    subst c. congruence.
  - change (String c (String d r) ++ "." ++ p2)%string
      with (String c (String d (r ++ "." ++ p2))).
    rewrite !prefix_cons. destruct (ascii_dec "$" c) as [E|E]; [|reflexivity].
    destruct (ascii_dec "." d) as [E'|E']; [|reflexivity].
    subst c d. rewrite !TextFacts.prefix_empty.
    change (String "$" (String "." (r ++ "." ++ p2)))
      with ("$." ++ (r ++ "." ++ p2))%string.
    change (String "$" (String "." r)) with ("$." ++ r)%string.
    unfold replace_first.
    rewrite !find_at_head by (try discriminate; apply TextFacts.prefix_append).
    reflexivity.
Qed.

(** The loop never fails with a [KeyError]: the key is tested first. *)
Lemma descend_failure (parts : list string) :
  forall value e,
    descend parts value = Fail e ->
    e = Builtin ValueError \/ e = Builtin TypeError.
Proof.
  induction parts as [|part parts IH]; intros value e H; [discriminate|].
  cbn [descend] in H.
  destruct value as [| b | n | s | l | items]; cbn in H;
    try (injection H as <-; right; reflexivity).
  - destruct (is_substring part s); injection H as <-; [right|left]; reflexivity.
  - destruct (existsb (is_JStr part) l); injection H as <-;
      [right|left]; reflexivity.
  - unfold od_contains in H.
    destruct (od_get part items) as [v|] eqn:E.
    + cbn in H. exact (IH _ _ H).
    + injection H as <-. left. reflexivity.
Qed.

(** Below anything but an object the loop fails at once. *)
Lemma descend_not_object (part : string) (parts : list string) (value : Json) :
  (forall items, value <> JDict items) ->
  descend (part :: parts) value = Fail (Builtin ValueError)
  \/ descend (part :: parts) value = Fail (Builtin TypeError).
Proof.
  intros Hno. cbn [descend].
  destruct value as [| b | n | s | l | items]; cbn;
    try (right; reflexivity).
  - destruct (is_substring part s); [right|left]; reflexivity.
  - destruct (existsb (is_JStr part) l); [right|left]; reflexivity.
  - destruct (Hno items eq_refl).
Qed.

Section Collect.
Variable c : list (string * Json).

(** With every key at hand the loop sets them one by one. *)
Lemma collect_parameters_present (keys : list string) :
  forall acc,
    NoDup keys ->
    (forall k, In k keys -> od_contains k acc = false) ->
    (forall k, In k keys -> od_contains k c = true) ->
    exists params,
      collect_parameters keys (JDict c) acc = Done params
      /\ od_keys params = (od_keys acc ++ keys)%list
      /\ (forall k, ~ In k keys -> od_get k params = od_get k acc)
      /\ (forall k, In k keys -> od_get k params = od_get k c).
Proof.
  induction keys as [|key keys IH]; intros acc Hnd Hfresh Hall.
  - exists acc. split; [reflexivity|]. split; [symmetry; apply app_nil_r|].
    split; [reflexivity|]. intros k [].
  - cbn [collect_parameters py_contains py_getitem].
    pose proof (Hall key (in_eq _ _)) as Hk.
    rewrite Hk. unfold od_contains in Hk.
    destruct (od_get key c) as [v|] eqn:Ev; [|discriminate].
    cbn [obind]. inversion Hnd as [|? ? Hnotin Hnd']; subst.
    destruct (IH (od_set key v acc) Hnd') as (params & Hrun & Hkeys & Hout & Hin).
    { intros k Hin. rewrite ODictFacts.od_contains_set_other.
      - apply Hfresh. right. exact Hin.
      - intros ->. exact (Hnotin Hin). }
    { intros k Hin. apply Hall. right. exact Hin. }
    exists params. split; [exact Hrun|]. split; [|split].
    + rewrite Hkeys, ODictFacts.od_keys_set, (Hfresh key (in_eq _ _)).
      rewrite <- app_assoc. reflexivity.
    + intros k Hk'. rewrite Hout by (intros H; apply Hk'; right; exact H).
      apply ODictFacts.od_get_set_other. intros ->. apply Hk'. left. reflexivity.
    + intros k [<- | Hk'].
      * rewrite Hout by exact Hnotin. rewrite ODictFacts.od_get_set_same.
        symmetry. exact Ev.
      * apply Hin. exact Hk'.
Qed.

(** A missing key stops the loop with a [ValueError], whatever was found
    before it. *)
Lemma collect_parameters_missing (keys : list string) :
  forall acc k,
    In k keys -> od_contains k c = false ->
    collect_parameters keys (JDict c) acc = Fail (Builtin ValueError).
Proof.
  induction keys as [|key keys IH]; intros acc k Hin Hk; [destruct Hin|].
  cbn [collect_parameters py_contains py_getitem].
  destruct (od_contains key c) eqn:Ek.
  - destruct Hin as [-> | Hin]; [congruence|].
    unfold od_contains in Ek.
    destruct (od_get key c) as [v|]; [|discriminate]. cbn [obind].
    exact (IH _ k Hin Hk).
  - reflexivity.
Qed.

End Collect.

End GlueFacts.

Module GlueExtras.
Import PyText TextRef ODict Glue GlueFacts.

Section Files.
Variable read_json_data : string -> Outcome Json.

(** X14. [get_json_value]: the [$.] in front of a path is optional. A path
    that does not itself begin with [$.] gives the same outcome with and
    without it; only one [$.] is ever removed, which is why the condition is
    needed. *)
Theorem get_json_value_dollar_prefix_optional (file_path json_path : string) :
  startswith json_path "$." = false ->
  get_json_value read_json_data file_path ("$." ++ json_path)
  = get_json_value read_json_data file_path json_path.
Proof.
  intros H. unfold get_json_value.
  rewrite fix_json_path_dollar, (fix_json_path_plain _ H). reflexivity.
Qed.

(** X15. [get_json_value]: a dotted path is followed piece by piece. Reading
    [p1.p2] is reading [p1] and then running the same loop over the parts of
    [p2] from the value found, failures of the first stage included. The one
    exception is [p1] being a lone dollar sign, since [$.p2] is taken as
    [p2]. *)
Theorem get_json_value_path_composes (file_path p1 p2 : string) :
  p1 <> "$" ->
  get_json_value read_json_data file_path (p1 ++ "." ++ p2)
  = obind (get_json_value read_json_data file_path p1)
          (descend (split_from "." 0 EmptyString p2)).
Proof.
  intros H. unfold get_json_value.
  rewrite (fix_json_path_app _ _ H), split_dot_app, obind_assoc.
  destruct (read_json_data file_path) as [data|e]; [|reflexivity].
  cbn [obind]. apply descend_app.
Qed.

(** X16. [get_json_value]: once the file is read, the only failures are the
    [ValueError] of a part that is not found and the [TypeError] of a value
    that cannot be searched or indexed by a text. A [KeyError] never comes
    out, the key being tested before it is used. *)
Theorem get_json_value_failures (file_path json_path : string) (data : Json)
    (e : GlueExc) :
  read_json_data file_path = Done data ->
  get_json_value read_json_data file_path json_path = Fail e ->
  e = Builtin ValueError \/ e = Builtin TypeError.
Proof.
  unfold get_json_value. intros -> H. cbn [obind] in H.
  exact (descend_failure _ _ _ H).
Qed.

(** X17. [get_json_value]: only objects are walked. When the document read
    is not an object (a list, a text, a number, a boolean, null), every path
    fails, the empty path too, since splitting always gives at least one
    part. *)
Theorem get_json_value_needs_object (file_path json_path : string) (data : Json) :
  read_json_data file_path = Done data ->
  (forall items, data <> JDict items) ->
  get_json_value read_json_data file_path json_path = Fail (Builtin ValueError)
  \/ get_json_value read_json_data file_path json_path = Fail (Builtin TypeError).
Proof.
  unfold get_json_value. intros -> Hno. cbn [obind].
  destruct (split_from "." 0 EmptyString (fix_json_path json_path))
    as [|part parts] eqn:E.
  - destruct (TextFacts.split_from_nonempty _ _ _ _ E).
  - exact (descend_not_object part parts data Hno).
Qed.

(** X18. [get_parameters_data]: when every parameter the template declares
    is a key of the configuration, the result holds exactly the declared
    parameters, in the template's order, each with the configuration's value.
    Other keys of the configuration are left out; a template with no
    [Parameters] section gives the empty result. *)
Theorem get_parameters_data_selects (template_path json_file : string)
    (t ps c : list (string * Json)) :
  read_json_data template_path = Done (JDict t) ->
  od_get "Parameters" t = Some (JDict ps)
    \/ (od_get "Parameters" t = None /\ ps = []) ->
  read_json_data json_file = Done (JDict c) ->
  NoDup (od_keys ps) ->
  (forall k, In k (od_keys ps) -> od_contains k c = true) ->
  exists parameters,
    get_parameters_data read_json_data template_path json_file = Done parameters
    /\ od_keys parameters = od_keys ps
    /\ (forall k, In k (od_keys ps) -> od_get k parameters = od_get k c).
Proof.
  intros Ht Hps Hc Hnd Hall. unfold get_parameters_data.
  rewrite Ht. cbn [obind py_get].
  assert (Hget : match od_get "Parameters" t with
                 | Some v => Done v
                 | None => Done (JDict [])
                 end = Done (JDict ps)).
  { destruct Hps as [-> | [-> ->]]; reflexivity. }
  rewrite Hget. cbn [obind py_keys]. rewrite Hc. cbn [obind].
  destruct (collect_parameters_present c (od_keys ps) [] Hnd)
    as (parameters & Hrun & Hkeys & _ & Hin).
  - intros k _. reflexivity.
  - exact Hall.
  - exists parameters. split; [exact Hrun|]. split; [exact Hkeys | exact Hin].
Qed.

(** X19. [get_parameters_data]: one declared parameter that is not a key of
    the configuration makes the call fail with a [ValueError], and nothing is
    returned for the parameters that were found. *)
Theorem get_parameters_data_missing (template_path json_file : string)
    (t ps c : list (string * Json)) (k : string) :
  read_json_data template_path = Done (JDict t) ->
  od_get "Parameters" t = Some (JDict ps) ->
  read_json_data json_file = Done (JDict c) ->
  In k (od_keys ps) ->
  od_contains k c = false ->
  get_parameters_data read_json_data template_path json_file
  = Fail (Builtin ValueError).
Proof.
  intros Ht Hps Hc Hin Hk. unfold get_parameters_data.
  rewrite Ht. cbn [obind py_get]. rewrite Hps. cbn [obind py_keys].
  rewrite Hc. cbn [obind].
  exact (collect_parameters_missing c (od_keys ps) [] k Hin Hk).
Qed.

End Files.

Lemma get_json_value_dollar_prefix_optional_witness :
  startswith "profile.age" "$." = false
  /\ get_json_value example_files "config.json" "$.profile.age"
     = get_json_value example_files "config.json" "profile.age".
Proof.
  split; [reflexivity|].
  apply (get_json_value_dollar_prefix_optional example_files "config.json"
           "profile.age").
  reflexivity.
Defined.

Lemma get_json_value_path_composes_witness :
  get_json_value example_files "config.json" "profile.age"
  = obind (get_json_value example_files "config.json" "profile")
          (descend ["age"]).
Proof.
  apply (get_json_value_path_composes example_files "config.json"
           "profile" "age").
  discriminate.
Defined.

Lemma get_json_value_failures_witness :
  get_json_value example_files "config.json" "profile.age.x"
  = Fail (Builtin TypeError)
  /\ (Builtin TypeError = Builtin ValueError
      \/ Builtin TypeError = Builtin TypeError).
Proof.
  split; [reflexivity|].
  apply (get_json_value_failures example_files "config.json" "profile.age.x"
           example_config); reflexivity.
Defined.

Lemma get_json_value_needs_object_witness :
  get_json_value (fun _ => Done (JList [JStr "Stage"])) "list.json" "Stage"
  = Fail (Builtin ValueError)
  \/ get_json_value (fun _ => Done (JList [JStr "Stage"])) "list.json" "Stage"
     = Fail (Builtin TypeError).
Proof.
  apply (get_json_value_needs_object (fun _ => Done (JList [JStr "Stage"]))
           "list.json" "Stage" (JList [JStr "Stage"])).
  - reflexivity.
  - intros items H. discriminate H.
Defined.

Lemma get_parameters_data_selects_witness :
  exists parameters,
    get_parameters_data example_files "master-tier.json" "config.json"
    = Done parameters
    /\ od_keys parameters = ["ProjectName"; "Stage"]
    /\ (forall k, In k ["ProjectName"; "Stage"] ->
                  od_get k parameters
                  = od_get k [("Stage", JStr "dev");
                              ("ProjectName", JStr "config_lib");
                              ("profile",
                               JDict [("first name", JStr "obama");
                                      ("age", JNum "58")])]).
Proof.
  apply (get_parameters_data_selects example_files "master-tier.json"
           "config.json"
           [("AWSTemplateFormatVersion", JStr "2010-09-09");
            ("Parameters",
             JDict [("ProjectName", JDict [("Type", JStr "String")]);
                    ("Stage", JDict [("Type", JStr "String")])])]
           [("ProjectName", JDict [("Type", JStr "String")]);
            ("Stage", JDict [("Type", JStr "String")])]).
  - reflexivity.
  - left. reflexivity.
  - reflexivity.
  - repeat constructor; simpl; intuition discriminate.
  - intros k [<- | [<- | []]]; reflexivity.
Defined.

Lemma get_parameters_data_missing_witness :
  get_parameters_data example_files "master-tier.json" "master-tier.json"
  = Fail (Builtin ValueError).
Proof.
  apply (get_parameters_data_missing example_files "master-tier.json"
           "master-tier.json"
           [("AWSTemplateFormatVersion", JStr "2010-09-09");
            ("Parameters",
             JDict [("ProjectName", JDict [("Type", JStr "String")]);
                    ("Stage", JDict [("Type", JStr "String")])])]
           [("ProjectName", JDict [("Type", JStr "String")]);
            ("Stage", JDict [("Type", JStr "String")])]
           [("AWSTemplateFormatVersion", JStr "2010-09-09");
            ("Parameters",
             JDict [("ProjectName", JDict [("Type", JStr "String")]);
                    ("Stage", JDict [("Type", JStr "String")])])]
           "Stage").
  - reflexivity.
  - reflexivity.
  - reflexivity.
  - right. left. reflexivity.
  - reflexivity.
Defined.

End GlueExtras.

(* ===================================================================== *)
(** ** Placeholders *)
(* ===================================================================== *)

Module InjectFacts.
Import PyText TextRef ODict Glue GlueFacts Inject.

Lemma lacks_cons (c a : ascii) (s : string) :
  lacks c (String a s) = true <-> a <> c /\ lacks c s = true.
Proof.
  cbn [lacks]. rewrite andb_true_iff, negb_true_iff, Ascii.eqb_neq. tauto.
Qed.

Lemma lacks_app (c : ascii) (s t : string) :
  lacks c (s ++ t) = true <-> lacks c s = true /\ lacks c t = true.
Proof.
  induction s as [|a s IH].
  - cbn. tauto.
  - change (String a s ++ t)%string with (String a (s ++ t)).
    rewrite !lacks_cons, IH. tauto.
Qed.

Lemma drop_length_app (a b : string) : drop (String.length a) (a ++ b) = b.
Proof. induction a as [|c a IH]; [destruct b; reflexivity | exact IH]. Qed.

Lemma prefix_other_head (a b : ascii) (p s : string) :
  b <> a -> String.prefix (String a p) (String b s) = false.
Proof.
  intros H. rewrite prefix_cons. destruct (ascii_dec a b); [congruence|reflexivity].
Qed.

Lemma match_here_other_head (c : ascii) (s : string) :
  c <> lbrace -> match_here (String c s) = None.
Proof.
  intros H. unfold match_here.
  rewrite (prefix_other_head "{" c "{" s H). reflexivity.
Qed.

Lemma findall_from_skip (s : string) :
  forall k, findall_from k s = findall_from 0 (drop k s).
Proof.
  induction s as [|c s IH]; intros k.
  - rewrite TextFacts.drop_empty. reflexivity.
  - destruct k; [reflexivity|]. cbn [findall_from drop]. apply IH.
Qed.

Lemma replace_from_skip (old new s : string) :
  forall k, replace_from old new k s = replace_from old new 0 (drop k s).
Proof.
  induction s as [|c s IH]; intros k.
  - rewrite TextFacts.drop_empty. reflexivity.
  - destruct k; [reflexivity|]. cbn [replace_from drop]. apply IH.
Qed.

Lemma findall_from_cons (c : ascii) (rest : string) :
  findall_from 0 (String c rest)
  = match match_here (String c rest) with
    | Some g => g :: findall_from (String.length g + 3) rest
    | None => findall_from 0 rest
    end.
Proof. reflexivity. Qed.

Lemma replace_from_cons (old new : string) (c : ascii) (rest : string) :
  replace_from old new 0 (String c rest)
  = if String.prefix old (String c rest)
    then (new ++ replace_from old new (String.length old - 1) rest)%string
    else String c (replace_from old new 0 rest).
Proof. reflexivity. Qed.

(** No match begins where there are no two opening braces. *)
Lemma findall_no_double_brace (s : string) :
  find "{{" s = None -> findall s = [].
Proof.
  unfold findall. induction s as [|c s IH]; intros H; [reflexivity|].
  cbn [find] in H. cbn [findall_from]. unfold match_here.
  destruct (String.prefix "{{" (String c s)); [discriminate|].
  apply IH. destruct (find "{{" s); [discriminate | reflexivity].
Qed.

Lemma lacks_lbrace_find (s : string) :
  lacks lbrace s = true -> find "{{" s = None.
Proof.
  induction s as [|c s IH]; intros H; [reflexivity|].
  apply lacks_cons in H. destruct H as [Hc Hs].
  cbn [find]. rewrite (prefix_other_head "{" c "{" s Hc), (IH Hs). reflexivity.
Qed.

Lemma findall_lacks (s : string) : lacks lbrace s = true -> findall s = [].
Proof. intros H. apply findall_no_double_brace, lacks_lbrace_find, H. Qed.

(** The search passes over a head without opening brace. *)
Lemma findall_from_head (pre t : string) :
  lacks lbrace pre = true -> findall_from 0 (pre ++ t) = findall_from 0 t.
Proof.
  induction pre as [|c pre IH]; intros H; [reflexivity|].
  apply lacks_cons in H. destruct H as [Hc Hs].
  change (String c pre ++ t)%string with (String c (pre ++ t)).
  cbn [findall_from]. rewrite (match_here_other_head c _ Hc). exact (IH Hs).
Qed.

Lemma replace_from_head (old' new pre t : string) :
  lacks lbrace pre = true ->
  replace_from (String lbrace old') new 0 (pre ++ t)
  = (pre ++ replace_from (String lbrace old') new 0 t)%string.
Proof.
  induction pre as [|c pre IH]; intros H; [reflexivity|].
  apply lacks_cons in H. destruct H as [Hc Hs].
  change (String c pre ++ t)%string with (String c (pre ++ t)).
  cbn [replace_from]. rewrite (prefix_other_head lbrace c old' _ Hc).
  rewrite (IH Hs). reflexivity.
Qed.

Lemma replace_from_lacks (old' new s : string) :
  lacks lbrace s = true -> replace_from (String lbrace old') new 0 s = s.
Proof.
  intros H. rewrite <- (TextFacts.append_empty_r s) at 1.
  rewrite (replace_from_head old' new s EmptyString H).
  apply TextFacts.append_empty_r.
Qed.

Lemma replace_from_at_head (c : ascii) (old' new post : string) :
  replace_from (String c old') new 0 (String c old' ++ post)
  = (new ++ replace_from (String c old') new 0 post)%string.
Proof.
  change (String c old' ++ post)%string with (String c (old' ++ post)).
  rewrite replace_from_cons.
  change (String c (old' ++ post)) with (String c old' ++ post)%string.
  rewrite TextFacts.prefix_append. f_equal.
  rewrite (replace_from_skip _ _ _ (String.length (String c old') - 1)).
  f_equal.
  change (String.length (String c old') - 1) with (String.length old' - 0).
  rewrite Nat.sub_0_r. apply drop_length_app.
Qed.

(** A well-formed name is what the group takes. *)
Lemma lazy_group_name (name post : string) :
  name <> EmptyString ->
  lacks rparen name = true -> lacks rbrace name = true ->
  forall acc,
    lazy_group acc (name ++ "}}" ++ post) = Some (acc ++ name)%string.
Proof.
  induction name as [|c name IH]; intros Hne Hp Hb acc; [congruence|].
  apply lacks_cons in Hp. destruct Hp as [Hc Hp].
  apply lacks_cons in Hb. destruct Hb as [Hc' Hb].
  change (String c name ++ "}}" ++ post)%string
    with (String c (name ++ "}}" ++ post)).
  cbn [lazy_group].
  apply Ascii.eqb_neq in Hc. rewrite Hc.
  destruct name as [|d name].
  - change (EmptyString ++ "}}" ++ post)%string with ("}}" ++ post)%string.
    rewrite TextFacts.prefix_append. reflexivity.
  - change (String d name ++ "}}" ++ post)%string
      with (String d (name ++ "}}" ++ post)).
    apply lacks_cons in Hb. destruct Hb as [Hd Hb].
    rewrite (prefix_other_head rbrace d "}" _ Hd).
    change (String d (name ++ "}}" ++ post))
      with (String d name ++ "}}" ++ post)%string.
    rewrite IH.
    + unfold chr1. rewrite TextFacts.append_assoc. reflexivity.
    + discriminate.
    + exact Hp.
    + apply lacks_cons. tauto.
Qed.

(** A run that meets a closing parenthesis before any closing brace is no
    group. *)
Lemma lazy_group_paren (a post : string) :
  lacks rbrace a = true ->
  forall acc, lazy_group acc (a ++ ")" ++ post) = None.
Proof.
  induction a as [|c a IH]; intros Hb acc; [reflexivity|].
  apply lacks_cons in Hb. destruct Hb as [Hc Hb].
  change (String c a ++ ")" ++ post)%string with (String c (a ++ ")" ++ post)).
  cbn [lazy_group].
  destruct (Ascii.eqb c rparen); [reflexivity|].
  assert (Hpre : String.prefix "}}" (a ++ ")" ++ post) = false).
  { destruct a as [|d a].
    - reflexivity.
    - apply lacks_cons in Hb.
      exact (prefix_other_head rbrace d "}" _ (proj1 Hb)). }
  rewrite Hpre. apply IH. exact Hb.
Qed.

Section Placeholder.
Variables name post : string.
Hypothesis name_nonempty : name <> EmptyString.
Hypothesis name_no_rparen : lacks rparen name = true.
Hypothesis name_no_rbrace : lacks rbrace name = true.

Lemma match_here_name :
  match_here ("{{" ++ name ++ "}}" ++ post) = Some name.
Proof.
  unfold match_here. rewrite TextFacts.prefix_append.
  change 2 with (String.length "{{"). rewrite drop_length_app.
  exact (lazy_group_name name post name_nonempty name_no_rparen
           name_no_rbrace EmptyString).
Qed.

Lemma findall_from_name :
  findall_from 0 ("{{" ++ name ++ "}}" ++ post) = name :: findall_from 0 post.
Proof.
  pose proof match_here_name as Hm.
  change ("{{" ++ name ++ "}}" ++ post)%string
    with (String lbrace (String lbrace (name ++ "}}" ++ post))) in *.
  rewrite findall_from_cons, Hm. f_equal.
  rewrite (findall_from_skip _ (String.length name + 3)). f_equal.
  replace (String.length name + 3) with (S (String.length name + 2))
    by lia.
  cbn [drop].
  rewrite <- (TextFacts.append_assoc name "}}" post).
  replace (String.length name + 2) with (String.length (name ++ "}}")).
  - apply drop_length_app.
  - clear. induction name as [|c n IH]; [reflexivity|]. cbn. rewrite IH.
    reflexivity.
Qed.

Lemma replace_name (value : string) :
  replace ("{{" ++ name ++ "}}") value ("{{" ++ name ++ "}}" ++ post)
  = (value ++ replace_from ("{{" ++ name ++ "}}") value 0 post)%string.
Proof.
  rewrite <- (TextFacts.append_assoc name "}}" post).
  exact (replace_from_at_head lbrace (String lbrace (name ++ "}}")) value post).
Qed.

End Placeholder.

End InjectFacts.

Module InjectExtras.
Import PyText TextRef ODict Glue GlueFacts Inject InjectFacts.

(** What the text becomes when its one placeholder is replaced. *)
Lemma replace_single (pre name post value : string) :
  lacks lbrace pre = true -> lacks lbrace post = true ->
  replace ("{{" ++ name ++ "}}") value (pre ++ "{{" ++ name ++ "}}" ++ post)
  = (pre ++ value ++ post)%string.
Proof.
  intros Hpre Hpost.
  change (replace ("{{" ++ name ++ "}}") value
            (pre ++ "{{" ++ name ++ "}}" ++ post))
    with (replace_from (String lbrace (String lbrace (name ++ "}}"))) value 0
            (pre ++ "{{" ++ name ++ "}}" ++ post)).
  rewrite (replace_from_head _ value pre _ Hpre). f_equal.
  rewrite <- (TextFacts.append_assoc name "}}" post).
  change ("{{" ++ (name ++ "}}") ++ post)%string
    with (String lbrace (String lbrace (name ++ "}}")) ++ post)%string.
  rewrite replace_from_at_head. f_equal.
  apply replace_from_lacks. exact Hpost.
Qed.

Lemma findall_first (pre name post : string) :
  lacks lbrace pre = true ->
  name <> EmptyString ->
  lacks rparen name = true -> lacks rbrace name = true ->
  findall (pre ++ "{{" ++ name ++ "}}" ++ post) = name :: findall post.
Proof.
  intros Hpre Hne Hp Hb. unfold findall.
  rewrite (findall_from_head pre _ Hpre).
  exact (findall_from_name name post Hne Hp Hb).
Qed.

(** X20. [inject_variable]: a text in which two opening braces never follow
    each other has no placeholder and comes back unchanged, whatever the
    data. *)
Theorem inject_variable_without_placeholder (text : string)
    (data : list (string * Json)) :
  is_substring "{{" text = false ->
  inject_variable text data = Done text.
Proof.
  unfold is_substring. intros H.
  assert (Hf : findall text = []).
  { apply findall_no_double_brace.
    destruct (find "{{" text); [discriminate | reflexivity]. }
  unfold inject_variable. rewrite Hf. cbn [substitute obind]. rewrite Hf.
  reflexivity.
Qed.

(** X21. [inject_variable]: a single placeholder is replaced by the text
    that the data holds under the placeholder's name with the blanks around
    it removed. The name is any non-empty run without closing parenthesis or
    closing brace; the surrounding text and the value hold no opening
    brace. *)
Theorem inject_variable_single (pre name post value : string)
    (data : list (string * Json)) :
  lacks lbrace pre = true ->
  name <> EmptyString ->
  lacks rparen name = true -> lacks rbrace name = true ->
  lacks lbrace post = true ->
  od_get (strip name) data = Some (JStr value) ->
  lacks lbrace value = true ->
  inject_variable (pre ++ "{{" ++ name ++ "}}" ++ post) data
  = Done (pre ++ value ++ post)%string.
Proof.
  intros Hpre Hne Hp Hb Hpost Hget Hval. unfold inject_variable.
  rewrite (findall_first pre name post Hpre Hne Hp Hb).
  rewrite (findall_lacks post Hpost).
  cbn [substitute]. unfold od_contains. rewrite Hget. cbn [negb].
  rewrite (replace_single pre name post value Hpre Hpost). cbn [obind].
  rewrite findall_lacks; [reflexivity|].
  apply lacks_app. split; [exact Hpre|].
  apply lacks_app. split; [exact Hval | exact Hpost].
Qed.

(** X22. [inject_variable]: when the name of the first placeholder, blanks
    removed, is not a key of the data, the call fails with a [ValueError],
    whatever follows the placeholder. *)
Theorem inject_variable_unknown_name (pre name post : string)
    (data : list (string * Json)) :
  lacks lbrace pre = true ->
  name <> EmptyString ->
  lacks rparen name = true -> lacks rbrace name = true ->
  od_contains (strip name) data = false ->
  inject_variable (pre ++ "{{" ++ name ++ "}}" ++ post) data
  = Fail (Builtin ValueError).
Proof.
  intros Hpre Hne Hp Hb Hmiss. unfold inject_variable.
  rewrite (findall_first pre name post Hpre Hne Hp Hb).
  cbn [substitute]. rewrite Hmiss. reflexivity.
Qed.

(** X23. [inject_variable]: a placeholder whose content reaches a closing
    parenthesis before its closing braces is not seen by the pattern. It is
    left in the text, and the call succeeds. (The text has no other opening
    brace, before, inside or after the placeholder, and no closing brace
    before the parenthesis.) *)
Theorem inject_variable_parenthesis (pre a post : string)
    (data : list (string * Json)) :
  lacks lbrace pre = true ->
  lacks lbrace a = true -> lacks rbrace a = true ->
  lacks lbrace post = true ->
  inject_variable (pre ++ "{{" ++ a ++ ")" ++ post) data
  = Done (pre ++ "{{" ++ a ++ ")" ++ post)%string.
Proof.
  intros Hpre Ha Hb Hpost.
  assert (Hf : findall (pre ++ "{{" ++ a ++ ")" ++ post) = []).
  { unfold findall. rewrite (findall_from_head pre _ Hpre).
    assert (Htail : lacks lbrace (a ++ ")" ++ post) = true).
    { apply lacks_app. split; [exact Ha|].
      apply lacks_cons. split; [discriminate | exact Hpost]. }
    change ("{{" ++ a ++ ")" ++ post)%string
      with (String lbrace (String lbrace (a ++ ")" ++ post))).
    rewrite findall_from_cons. unfold match_here at 1.
    change (String.prefix "{{" (String lbrace (String lbrace (a ++ ")" ++ post))))
      with (String.prefix EmptyString (a ++ ")" ++ post)).
    rewrite TextFacts.prefix_empty.
    change (drop 2 (String lbrace (String lbrace (a ++ ")" ++ post))))
      with (a ++ ")" ++ post)%string.
    rewrite (lazy_group_paren a post Hb).
    rewrite findall_from_cons. unfold match_here.
    assert (Hpre2 : String.prefix "{{" (String lbrace (a ++ ")" ++ post)) = false).
    { rewrite prefix_cons. destruct (ascii_dec "{" lbrace); [|reflexivity].
      destruct a as [|c a'].
      - reflexivity.
      - apply lacks_cons in Ha.
        exact (prefix_other_head lbrace c EmptyString _ (proj1 Ha)). }
    rewrite Hpre2. exact (findall_lacks _ Htail). }
  unfold inject_variable. rewrite Hf. cbn [substitute obind]. rewrite Hf.
  reflexivity.
Qed.

(** X24. [inject_variable]: a value that is not a text cannot be injected.
    When the data holds a number, a boolean, null, a list or an object under
    the name of the first placeholder, the call fails with a [TypeError]. *)
Theorem inject_variable_value_not_text (pre name post : string)
    (data : list (string * Json)) (value : Json) :
  lacks lbrace pre = true ->
  name <> EmptyString ->
  lacks rparen name = true -> lacks rbrace name = true ->
  od_get (strip name) data = Some value ->
  (forall s, value <> JStr s) ->
  inject_variable (pre ++ "{{" ++ name ++ "}}" ++ post) data
  = Fail (Builtin TypeError).
Proof.
  intros Hpre Hne Hp Hb Hget Hno. unfold inject_variable.
  rewrite (findall_first pre name post Hpre Hne Hp Hb).
  cbn [substitute]. unfold od_contains. rewrite Hget. cbn [negb].
  destruct value; try reflexivity. destruct (Hno s eq_refl).
Qed.

Lemma inject_variable_without_placeholder_witness :
  inject_variable "{ CidrBlock: 10.0.0.1/16 }" [] = Done "{ CidrBlock: 10.0.0.1/16 }".
Proof.
  apply (inject_variable_without_placeholder "{ CidrBlock: 10.0.0.1/16 }" []).
  reflexivity.
Defined.

Lemma inject_variable_single_witness :
  inject_variable "Name: {{ FIRST_NAME }}!" [("FIRST_NAME", JStr "Obama")]
  = Done "Name: Obama!".
Proof.
  apply (inject_variable_single "Name: " " FIRST_NAME " "!" "Obama"
           [("FIRST_NAME", JStr "Obama")]);
    first [reflexivity | discriminate].
Defined.

Lemma inject_variable_unknown_name_witness :
  inject_variable "{{ FIRST_NAME }} {{ LAST_NAME }}" [("LAST_NAME", JStr "Obama")]
  = Fail (Builtin ValueError).
Proof.
  apply (inject_variable_unknown_name EmptyString " FIRST_NAME "
           " {{ LAST_NAME }}" [("LAST_NAME", JStr "Obama")]);
    first [reflexivity | discriminate].
Defined.

Lemma inject_variable_parenthesis_witness :
  inject_variable "port = {{ f(x) }};" [] = Done "port = {{ f(x) }};".
Proof.
  apply (inject_variable_parenthesis "port = " " f(x" " }};" []); reflexivity.
Defined.

Lemma inject_variable_value_not_text_witness :
  inject_variable "port = {{ PORT }}" [("PORT", JNum "8080")]
  = Fail (Builtin TypeError).
Proof.
  apply (inject_variable_value_not_text "port = " " PORT " EmptyString
           [("PORT", JNum "8080")] (JNum "8080"));
    first [reflexivity | discriminate | intros s H; discriminate H].
Defined.

End InjectExtras.

(* ===================================================================== *)
(** ** Common tags *)
(* ===================================================================== *)

Module TagFacts.
Import PyText TextRef ODict Glue GlueFacts Tags.

Section Dict.
Context {V : Type}.
Implicit Types (d : list (string * V)).

Lemma od_set_set_same k (v w : V) d : od_set k v (od_set k w d) = od_set k v d.
Proof.
  induction d as [|[k' v'] d IH]; cbn [od_set].
  - rewrite String.eqb_refl. reflexivity.
  - destruct (String.eqb k' k) eqn:E; cbn [od_set]; rewrite E; [reflexivity|].
    rewrite IH. reflexivity.
Qed.

Lemma od_set_get_same k (v : V) d : od_get k d = Some v -> od_set k v d = d.
Proof.
  induction d as [|[k' v'] d IH]; cbn [od_get od_set]; [discriminate|].
  destruct (String.eqb k' k).
  - intros H. injection H as ->. reflexivity.
  - intros H. rewrite (IH H). reflexivity.
Qed.

Lemma od_keys_set_present k (v : V) d :
  od_keys (od_set k v d) = if od_contains k d then od_keys d else od_keys d ++ [k].
Proof. apply ODictFacts.od_keys_set. Qed.

End Dict.

Lemma existsb_app_l {A : Type} (f : A -> bool) (l1 l2 : list A) :
  existsb f l1 = true -> existsb f (l1 ++ l2) = true.
Proof. intros H. rewrite existsb_app, H. reflexivity. Qed.

(** A common tag in the template answers for its [Key] as the tag does. *)
Lemma tag_json_key (dct : Tag) :
  py_getitem (tag_json dct) "Key"
  = match od_get "Key" dct with
    | Some k => Done (JStr k)
    | None => Fail KeyError
    end.
Proof.
  unfold tag_json. cbn [py_getitem].
  assert (H : od_get "Key" (map (fun kv => (fst kv, JStr (snd kv))) dct)
              = option_map JStr (od_get "Key" dct)).
  { induction dct as [|[k v] dct IH]; [reflexivity|].
    cbn [map od_get fst snd]. destruct (String.eqb k "Key"); [reflexivity|].
    exact IH. }
  rewrite H. destruct (od_get "Key" dct); reflexivity.
Qed.

Lemma tag_keys_app (l1 l2 : list Json) :
  tag_keys (l1 ++ l2)
  = obind (tag_keys l1) (fun a => obind (tag_keys l2) (fun b => Done (a ++ b))).
Proof.
  induction l1 as [|x l1 IH].
  - cbn. destruct (tag_keys l2); reflexivity.
  - cbn [app tag_keys]. destruct (py_getitem x "Key") as [k|e]; [|reflexivity].
    cbn [obind]. destruct (is_hashable k); [|reflexivity].
    rewrite IH. destruct (tag_keys l1) as [a|e]; [|reflexivity].
    cbn [obind]. destruct (tag_keys l2) as [b|e]; reflexivity.
Qed.

(** The keys of common tags that are in the template: all there. *)
Lemma tag_keys_common (cs : list Tag) :
  forallb has_key cs = true ->
  exists ks,
    tag_keys (map tag_json cs) = Done ks
    /\ (forall dct k, In dct cs -> od_get "Key" dct = Some k ->
                      existsb (is_JStr k) ks = true).
Proof.
  induction cs as [|c cs IH]; intros H.
  - exists []. split; [reflexivity|]. intros dct k [].
  - cbn [forallb] in H. apply andb_true_iff in H. destruct H as [Hc Hcs].
    destruct (IH Hcs) as (ks & Hks & Hin).
    unfold has_key, od_contains in Hc.
    destruct (od_get "Key" c) as [kc|] eqn:Ec; [|discriminate].
    exists (JStr kc :: ks). split.
    + cbn [map tag_keys]. rewrite tag_json_key, Ec. cbn [obind is_hashable].
      rewrite Hks. reflexivity.
    + intros dct k [<- | Hd] Hk.
      * rewrite Ec in Hk. injection Hk as <-.
        cbn [existsb is_JStr]. rewrite String.eqb_refl. reflexivity.
      * cbn [existsb]. rewrite (Hin dct k Hd Hk). apply orb_true_r.
Qed.

(** Nothing is appended when every key is known. *)
Lemma append_missing_known (common : list Tag) (existing : list Json)
    (tags : Json) :
  (forall dct, In dct common ->
     exists k, od_get "Key" dct = Some k
               /\ existsb (is_JStr k) existing = true) ->
  append_missing common existing tags = (tags, None).
Proof.
  induction common as [|c cs IH]; intros H; [reflexivity|].
  cbn [append_missing].
  destruct (H c (in_eq _ _)) as (k & Hk & Hin). rewrite Hk, Hin.
  apply IH. intros dct Hd. apply H. right. exact Hd.
Qed.

(** On a list the loop appends the new tags, in their order. *)
Lemma append_missing_list (common : list Tag) (existing : list Json) :
  forallb has_key common = true ->
  forall items,
    append_missing common existing (JList items)
    = (JList (items ++ map tag_json (filter (is_new_tag existing) common)), None).
Proof.
  induction common as [|c cs IH]; intros H items.
  - cbn. rewrite app_nil_r. reflexivity.
  - cbn [forallb] in H. apply andb_true_iff in H. destruct H as [Hc Hcs].
    unfold has_key, od_contains in Hc.
    destruct (od_get "Key" c) as [k|] eqn:Ek; [|discriminate].
    cbn [append_missing filter]. unfold is_new_tag at 1. rewrite Ek.
    destruct (existsb (is_JStr k) existing); cbn [negb].
    + apply IH. exact Hcs.
    + rewrite (IH Hcs). cbn [map]. rewrite <- app_assoc. reflexivity.
Qed.

(** A loop that was not left by an exception met a [Key] in every common
    tag, and on anything but a list it found nothing to append. *)
Lemma append_missing_success (common : list Tag) (existing : list Json) :
  forall tags tags',
    append_missing common existing tags = (tags', None) ->
    forallb has_key common = true
    /\ ((forall items, tags <> JList items) ->
        tags' = tags /\ filter (is_new_tag existing) common = []).
Proof.
  induction common as [|c cs IH]; intros tags tags' H.
  - cbn in H. injection H as <-. split; [reflexivity|]. intros _. split; reflexivity.
  - cbn [append_missing] in H. cbn [forallb filter].
    unfold has_key at 1, od_contains, is_new_tag at 1.
    destruct (od_get "Key" c) as [k|] eqn:Ek; [|discriminate].
    destruct (existsb (is_JStr k) existing) eqn:Ex; cbn [negb andb].
    + exact (IH _ _ H).
    + destruct tags as [| b | n | s | items | d]; try discriminate.
      destruct (IH _ _ H) as [Hk _]. split; [exact Hk|].
      intros Hno. destruct (Hno items eq_refl).
Qed.

Section Resource.
Variable common_tags : list Tag.
Variable resources_with_common_tags : list string.

(** A resource whose type is not listed is left alone. *)
Lemma tag_resource_unlisted (r_data type : Json) :
  py_getitem r_data "Type" = Done type ->
  in_text_set type resources_with_common_tags = Done false ->
  tag_resource common_tags resources_with_common_tags r_data = (r_data, None).
Proof. unfold tag_resource. intros -> ->. reflexivity. Qed.

(** A listed resource with tags: the loop decides. *)
Lemma tag_resource_tagged (d p : list (string * Json)) (type tags tags' : Json)
    (elements existing : list Json) (exc : option GlueExc) :
  od_get "Type" d = Some type ->
  in_text_set type resources_with_common_tags = Done true ->
  od_get "Properties" d = Some (JDict p) ->
  od_get "Tags" p = Some tags ->
  py_iter tags = Done elements ->
  tag_keys elements = Done existing ->
  append_missing common_tags existing tags = (tags', exc) ->
  tag_resource common_tags resources_with_common_tags (JDict d)
  = (JDict (od_set "Properties" (JDict (od_set "Tags" tags' p)) d), exc).
Proof.
  intros Ht Hl Hp Hg Hi Hk Ha. unfold tag_resource.
  cbn [py_getitem]. rewrite Ht, Hl, Hp. cbn [py_contains py_getitem].
  unfold od_contains. rewrite Hg, Hi. cbn [obind]. rewrite Hk, Ha.
  reflexivity.
Qed.

(** A listed resource without tags gets the common tags. *)
Lemma tag_resource_untagged (d p : list (string * Json)) (type : Json) :
  od_get "Type" d = Some type ->
  in_text_set type resources_with_common_tags = Done true ->
  od_get "Properties" d = Some (JDict p) ->
  od_get "Tags" p = None ->
  tag_resource common_tags resources_with_common_tags (JDict d)
  = (JDict (od_set "Properties"
              (JDict (od_set "Tags" (JList (map tag_json common_tags)) p)) d),
     None).
Proof.
  intros Ht Hl Hp Hg. unfold tag_resource.
  cbn [py_getitem]. rewrite Ht, Hl, Hp. cbn [py_contains].
  unfold od_contains. rewrite Hg. reflexivity.
Qed.

(** What a call that raised nothing went through. *)
Lemma tag_resource_success (r_data r_data' : Json) :
  tag_resource common_tags resources_with_common_tags r_data = (r_data', None) ->
  exists d type,
    r_data = JDict d /\ od_get "Type" d = Some type
    /\ ((in_text_set type resources_with_common_tags = Done false
         /\ r_data' = r_data)
        \/ (in_text_set type resources_with_common_tags = Done true
            /\ exists p,
                od_get "Properties" d = Some (JDict p)
                /\ ((od_get "Tags" p = None
                     /\ r_data' =
                        JDict (od_set "Properties"
                                 (JDict (od_set "Tags"
                                           (JList (map tag_json common_tags)) p))
                                 d))
                    \/ (exists tags elements existing tags',
                          od_get "Tags" p = Some tags
                          /\ py_iter tags = Done elements
                          /\ tag_keys elements = Done existing
                          /\ append_missing common_tags existing tags
                             = (tags', None)
                          /\ r_data' =
                             JDict (od_set "Properties"
                                      (JDict (od_set "Tags" tags' p)) d))))).
Proof.
  unfold tag_resource. intros H.
  destruct r_data as [| b | n | s | l | d]; try discriminate.
  cbn [py_getitem] in H.
  destruct (od_get "Type" d) as [type|] eqn:Ht; [|discriminate].
  exists d, type. split; [reflexivity|]. split; [exact Ht|].
  destruct (in_text_set type resources_with_common_tags) as [[|]|e] eqn:Hl;
    [| |discriminate].
  2:{ left. injection H as <-. split; reflexivity. }
  right. split; [reflexivity|].
  destruct (od_get "Properties" d) as [r_properties|] eqn:Hp; [|discriminate].
  destruct (py_contains "Tags" r_properties) as [[|]|e] eqn:Hc; [| |discriminate].
  - destruct (py_getitem r_properties "Tags") as [tags|e] eqn:Hg; [|discriminate].
    destruct r_properties as [| b | n | s | l | p]; try discriminate.
    exists p. split; [reflexivity|]. right.
    cbn [py_getitem] in Hg.
    destruct (od_get "Tags" p) as [tags0|] eqn:Hg0; [|discriminate].
    injection Hg as ->.
    destruct (py_iter tags) as [elements|e] eqn:Hi; [|discriminate].
    cbn [obind] in H.
    destruct (tag_keys elements) as [existing|e] eqn:Hk; [|discriminate].
    destruct (append_missing common_tags existing tags) as [tags' exc] eqn:Ha.
    injection H as <- ->.
    exists tags, elements, existing, tags'. repeat split; assumption || reflexivity.
  - destruct r_properties as [| b | n | s | l | p]; try discriminate.
    exists p. split; [reflexivity|]. left.
    cbn [py_contains] in Hc. injection Hc as Hc. unfold od_contains in Hc.
    destruct (od_get "Tags" p) eqn:Hg; [discriminate|].
    injection H as <-. split; reflexivity.
Qed.

(** Tagging a resource that was tagged changes nothing. *)
Lemma tag_resource_again (r_data r_data' : Json) :
  forallb has_key common_tags = true ->
  tag_resource common_tags resources_with_common_tags r_data = (r_data', None) ->
  tag_resource common_tags resources_with_common_tags r_data' = (r_data', None).
Proof.
  intros Hkeys H.
  destruct (tag_resource_success _ _ H)
    as (d & type & -> & Ht & [[Hl ->] | [Hl (p & Hp & Hcase)]]).
  - exact H.
  - assert (Ht' : forall x, od_get "Type" (od_set "Properties" x d) = Some type).
    { intros x. rewrite ODictFacts.od_get_set_other by discriminate. exact Ht. }
    destruct Hcase as [[Hg ->] | (tags & elements & existing & tags' & Hg & Hi
                                  & Hk & Ha & ->)].
    + destruct (tag_keys_common common_tags Hkeys) as (ks & Hks & Hin).
      rewrite (tag_resource_tagged _ (od_set "Tags" (JList (map tag_json common_tags)) p)
                 type (JList (map tag_json common_tags))
                 (JList (map tag_json common_tags))
                 (map tag_json common_tags) ks None (Ht' _) Hl).
      * rewrite !od_set_set_same. reflexivity.
      * apply ODictFacts.od_get_set_same.
      * apply ODictFacts.od_get_set_same.
      * reflexivity.
      * exact Hks.
      * apply append_missing_known. intros dct Hd.
        pose proof Hkeys as Hall. rewrite forallb_forall in Hall.
        specialize (Hall dct Hd). unfold has_key, od_contains in Hall.
        destruct (od_get "Key" dct) as [k|] eqn:Ek; [|discriminate].
        exists k. split; [reflexivity|]. exact (Hin dct k Hd Ek).
    + destruct (append_missing_success _ _ _ _ Ha) as [Hall Hnl].
      assert (Hnext : exists elements' existing',
                 py_iter tags' = Done elements'
                 /\ tag_keys elements' = Done existing'
                 /\ forall dct, In dct common_tags ->
                      exists k, od_get "Key" dct = Some k
                                /\ existsb (is_JStr k) existing' = true).
      { assert (Hknown : forall dct k,
                   In dct common_tags -> od_get "Key" dct = Some k ->
                   is_new_tag existing dct = false ->
                   existsb (is_JStr k) existing = true).
        { intros dct k _ Ek Hn. unfold is_new_tag in Hn. rewrite Ek in Hn.
          apply negb_false_iff in Hn. exact Hn. }
        assert (Hhas : forall dct, In dct common_tags ->
                         exists k, od_get "Key" dct = Some k).
        { intros dct Hd. rewrite forallb_forall in Hall.
          specialize (Hall dct Hd). unfold has_key, od_contains in Hall.
          destruct (od_get "Key" dct) as [k|]; [|discriminate].
          exists k. reflexivity. }
        destruct tags as [| b | n | s | items | dd].
        5:{ rewrite (append_missing_list _ existing Hall items) in Ha.
            injection Ha as <-.
            set (new := filter (is_new_tag existing) common_tags).
            assert (Hnew : forallb has_key new = true).
            { apply forallb_forall. intros dct Hd. unfold new in Hd.
              apply filter_In in Hd. rewrite forallb_forall in Hall.
              apply Hall. tauto. }
            destruct (tag_keys_common new Hnew) as (ks & Hks & Hin).
            exists (items ++ map tag_json new), (existing ++ ks).
            split; [reflexivity|]. split.
            - cbn [py_iter] in Hi. injection Hi as <-.
              rewrite tag_keys_app, Hk. cbn [obind]. rewrite Hks. reflexivity.
            - intros dct Hd. destruct (Hhas dct Hd) as [k Ek].
              exists k. split; [exact Ek|].
              destruct (is_new_tag existing dct) eqn:En.
              + rewrite existsb_app. rewrite (Hin dct k); [apply orb_true_r| |exact Ek].
                unfold new. apply filter_In. tauto.
              + apply existsb_app_l. exact (Hknown dct k Hd Ek En). }
        all: match type of Ha with
             | append_missing _ _ ?t = _ =>
                 destruct (Hnl (fun items (E : t = JList items) =>
                                  ltac:(discriminate E))) as [-> Hnone]
             end;
             exists elements, existing; (split; [exact Hi|]);
             (split; [exact Hk|]);
             intros dct Hd; destruct (Hhas dct Hd) as [k Ek];
             exists k; (split; [exact Ek|]);
             apply (Hknown dct k Hd Ek);
             destruct (is_new_tag existing dct) eqn:En; [|reflexivity];
             assert (Hf : In dct (filter (is_new_tag existing) common_tags))
               by (apply filter_In; tauto);
             rewrite Hnone in Hf; destruct Hf. }
      destruct Hnext as (elements' & existing' & Hi' & Hk' & Hknown').
      rewrite (tag_resource_tagged _ (od_set "Tags" tags' p) type tags' tags'
                 elements' existing' None (Ht' _) Hl).
      * rewrite !od_set_set_same. reflexivity.
      * apply ODictFacts.od_get_set_same.
      * apply ODictFacts.od_get_set_same.
      * exact Hi'.
      * exact Hk'.
      * apply append_missing_known. exact Hknown'.
Qed.

(** The loop over the resources keeps their names and their order, whether
    it ends or fails. *)
Lemma tag_resources_keys (resources : list (string * Json)) :
  od_keys (fst (tag_resources common_tags resources_with_common_tags resources))
  = od_keys resources.
Proof.
  induction resources as [|[r_name r_data] rest IH]; [reflexivity|].
  cbn [tag_resources].
  destruct (tag_resource common_tags resources_with_common_tags r_data) as [r_data' [e|]]; [reflexivity|].
  destruct (tag_resources common_tags resources_with_common_tags rest)
    as [rest' exc].
  cbn [fst] in *. unfold od_keys in *. cbn [map fst]. rewrite IH. reflexivity.
Qed.

Lemma tag_resources_unlisted (resources : list (string * Json)) :
  forall r_name r_data type,
    In (r_name, r_data) resources ->
    py_getitem r_data "Type" = Done type ->
    in_text_set type resources_with_common_tags = Done false ->
    In (r_name, r_data)
       (fst (tag_resources common_tags resources_with_common_tags resources)).
Proof.
  induction resources as [|[n r] rest IH]; intros r_name r_data type Hin Ht Hl;
    [destruct Hin|].
  cbn [tag_resources].
  destruct Hin as [E | Hin].
  - injection E as -> ->.
    rewrite (tag_resource_unlisted _ _ Ht Hl).
    destruct (tag_resources common_tags resources_with_common_tags rest).
    left. reflexivity.
  - destruct (tag_resource common_tags resources_with_common_tags r) as [r' [e|]].
    + right. exact Hin.
    + pose proof (IH r_name r_data type Hin Ht Hl) as H.
      destruct (tag_resources common_tags resources_with_common_tags rest).
      right. exact H.
Qed.

Lemma tag_resources_again (resources : list (string * Json)) :
  forallb has_key common_tags = true ->
  forall resources',
    tag_resources common_tags resources_with_common_tags resources
    = (resources', None) ->
    tag_resources common_tags resources_with_common_tags resources'
    = (resources', None).
Proof.
  intros Hkeys.
  induction resources as [|[n r] rest IH]; intros resources' H.
  - cbn in H. injection H as <-. reflexivity.
  - cbn [tag_resources] in H.
    destruct (tag_resource common_tags resources_with_common_tags r) as [r' [e|]] eqn:Er; [discriminate|].
    destruct (tag_resources common_tags resources_with_common_tags rest)
      as [rest' exc] eqn:Erest.
    injection H as <- ->.
    cbn [tag_resources].
    rewrite (tag_resource_again r r' Hkeys Er), (IH rest' eq_refl).
    reflexivity.
Qed.

End Resource.

End TagFacts.

Module TagExtras.
Import PyText TextRef ODict Glue GlueFacts Tags TagFacts.

(** X25. [apply_common_tag]: applying the same common tags a second time
    changes nothing. When every common tag has a [Key] and a first call ended
    without exception, a second call on the template it left ends without
    exception too and leaves the same template: tags set or appended by the
    first call are found by the second. *)
Theorem apply_common_tag_twice (json_data json_data' : Json)
    (common_tags : list Tag) (resources_with_common_tags : list string) :
  forallb has_key common_tags = true ->
  apply_common_tag json_data common_tags resources_with_common_tags
  = (json_data', None) ->
  apply_common_tag json_data' common_tags resources_with_common_tags
  = (json_data', None).
Proof.
  intros Hkeys H. unfold apply_common_tag in H.
  destruct json_data as [| b | n | s | l | items]; try discriminate.
  destruct (od_get "Resources" items) as [resources|] eqn:Hr.
  - destruct resources as [| b | n | s | l | resources]; try discriminate.
    destruct (tag_resources common_tags resources_with_common_tags resources)
      as [resources' exc] eqn:Ht.
    injection H as <- ->.
    unfold apply_common_tag. rewrite ODictFacts.od_get_set_same.
    rewrite (tag_resources_again _ _ resources Hkeys resources' Ht).
    rewrite od_set_set_same. reflexivity.
  - injection H as <-. unfold apply_common_tag. rewrite Hr. reflexivity.
Qed.

(** X26. [apply_common_tag]: whether the call ends or fails, the template
    keeps its entries with only the resources rewritten, the resources keep
    their names and their order, and a resource whose [Type] is not among the
    listed types is left exactly as it was. *)
Theorem apply_common_tag_keeps_resources (items resources : list (string * Json))
    (common_tags : list Tag) (resources_with_common_tags : list string) :
  od_get "Resources" items = Some (JDict resources) ->
  exists resources',
    fst (apply_common_tag (JDict items) common_tags resources_with_common_tags)
    = JDict (od_set "Resources" (JDict resources') items)
    /\ od_keys resources' = od_keys resources
    /\ (forall r_name r_data type,
          In (r_name, r_data) resources ->
          py_getitem r_data "Type" = Done type ->
          in_text_set type resources_with_common_tags = Done false ->
          In (r_name, r_data) resources').
Proof.
  intros Hr. unfold apply_common_tag. rewrite Hr.
  pose proof (tag_resources_keys common_tags resources_with_common_tags
                resources) as Hk.
  pose proof (tag_resources_unlisted common_tags resources_with_common_tags
                resources) as Hu.
  destruct (tag_resources common_tags resources_with_common_tags resources)
    as [resources' exc].
  exists resources'. split; [reflexivity|]. split; [exact Hk | exact Hu].
Qed.

(** X27. [apply_common_tag], for one resource of a listed type whose
    [Properties] hold a list of tags: the tags of the template stay, in their
    order, and after them come the common tags whose [Key] none of them has,
    in the order of the common tags. A common tag whose key the resource
    already has is dropped: the tag written in the template wins. *)
Theorem tag_resource_explicit_tags_win (d p : list (string * Json))
    (type : string) (tags existing : list Json)
    (common_tags : list Tag) (resources_with_common_tags : list string) :
  od_get "Type" d = Some (JStr type) ->
  In type resources_with_common_tags ->
  od_get "Properties" d = Some (JDict p) ->
  od_get "Tags" p = Some (JList tags) ->
  tag_keys tags = Done existing ->
  forallb has_key common_tags = true ->
  tag_resource common_tags resources_with_common_tags (JDict d)
  = (JDict (od_set "Properties"
              (JDict (od_set "Tags"
                        (JList (tags ++ map tag_json
                                          (filter (is_new_tag existing)
                                                  common_tags)))
                        p))
              d),
     None).
Proof.
  intros Ht Hin Hp Hg Hk Hkeys.
  apply (tag_resource_tagged common_tags resources_with_common_tags d p
           (JStr type) (JList tags) _ tags existing None Ht).
  - cbn [in_text_set]. f_equal. apply existsb_exists.
    exists type. split; [exact Hin | apply String.eqb_refl].
  - exact Hp.
  - exact Hg.
  - reflexivity.
  - exact Hk.
  - apply append_missing_list. exact Hkeys.
Qed.

Lemma apply_common_tag_twice_witness :
  apply_common_tag
    (fst (apply_common_tag vpc_template test_common_tags
            test_resources_with_common_tags))
    test_common_tags test_resources_with_common_tags
  = (fst (apply_common_tag vpc_template test_common_tags
            test_resources_with_common_tags),
     None).
Proof.
  apply (apply_common_tag_twice vpc_template
           (fst (apply_common_tag vpc_template test_common_tags
                   test_resources_with_common_tags))
           test_common_tags test_resources_with_common_tags);
    reflexivity.
Defined.

Lemma apply_common_tag_keeps_resources_witness :
  exists resources',
    fst (apply_common_tag
           (JDict [("Resources",
                    JDict [("Topic", JDict [("Type", JStr "AWS::SNS::Topic")]);
                           ("VPC", JDict [("Type", JStr "AWS::EC2::VPC")])])])
           test_common_tags test_resources_with_common_tags)
    = JDict (od_set "Resources" (JDict resources')
               [("Resources",
                 JDict [("Topic", JDict [("Type", JStr "AWS::SNS::Topic")]);
                        ("VPC", JDict [("Type", JStr "AWS::EC2::VPC")])])])
    /\ od_keys resources' = ["Topic"; "VPC"]
    /\ (forall r_name r_data type,
          In (r_name, r_data)
             [("Topic", JDict [("Type", JStr "AWS::SNS::Topic")]);
              ("VPC", JDict [("Type", JStr "AWS::EC2::VPC")])] ->
          py_getitem r_data "Type" = Done type ->
          in_text_set type test_resources_with_common_tags = Done false ->
          In (r_name, r_data) resources').
Proof.
  apply (apply_common_tag_keeps_resources
           [("Resources",
             JDict [("Topic", JDict [("Type", JStr "AWS::SNS::Topic")]);
                    ("VPC", JDict [("Type", JStr "AWS::EC2::VPC")])])]
           [("Topic", JDict [("Type", JStr "AWS::SNS::Topic")]);
            ("VPC", JDict [("Type", JStr "AWS::EC2::VPC")])]
           test_common_tags test_resources_with_common_tags).
  reflexivity.
Defined.

Lemma tag_resource_explicit_tags_win_witness :
  tag_resource test_common_tags test_resources_with_common_tags
    (JDict [("Type", JStr "AWS::EC2::Subnet");
            ("Properties",
             JDict [("Tags",
                     JList [JDict [("Key", JStr "Name");
                                   ("Value", JStr "public")]])])])
  = (JDict [("Type", JStr "AWS::EC2::Subnet");
            ("Properties",
             JDict [("Tags",
                     JList [JDict [("Key", JStr "Name");
                                   ("Value", JStr "public")];
                            JDict [("Key", JStr "Stage");
                                   ("Value", JStr "dev")]])])],
     None).
Proof.
  apply (tag_resource_explicit_tags_win
           [("Type", JStr "AWS::EC2::Subnet");
            ("Properties",
             JDict [("Tags",
                     JList [JDict [("Key", JStr "Name");
                                   ("Value", JStr "public")]])])]
           [("Tags",
             JList [JDict [("Key", JStr "Name"); ("Value", JStr "public")]])]
           "AWS::EC2::Subnet"
           [JDict [("Key", JStr "Name"); ("Value", JStr "public")]]
           [JStr "Name"]
           test_common_tags test_resources_with_common_tags).
  - reflexivity.
  - right. left. reflexivity.
  - reflexivity.
  - reflexivity.
  - reflexivity.
  - reflexivity.
Defined.

End TagExtras.

(* ===================================================================== *)
(** ** What construction, [from_dict] and [update] leave in the store *)
(* ===================================================================== *)

Module StoreFacts.
Import Fields ODict Registry Config Reference ConfigRef.
Import ODictFacts FieldFacts KlassFacts InstanceFacts InstanceMore.

Lemma written_with_config_object w o c :
  written w (with_config_object o c) = with_config_object (written w o) c.
Proof. destruct w; reflexivity. Qed.

Lemma is_declared_cons n f items r :
  is_declared ((n, f) :: items) r = FieldRef_eqb r f || is_declared items r.
Proof. reflexivity. Qed.

Lemma is_declared_In items r :
  is_declared items r = true <-> In r (map snd items).
Proof.
  unfold is_declared. rewrite existsb_exists. split.
  - intros [x [Hin Hx]]. apply FieldRef_eqb_eq in Hx. subst. exact Hin.
  - intros Hin. exists r. split; [exact Hin | apply FieldRef_eqb_refl].
Qed.

Lemma bound_to_head n f items self o :
  bound_to ((n, f) :: items) self f o = with_config_object o (Some self).
Proof.
  unfold bound_to. rewrite is_declared_cons, FieldRef_eqb_refl. reflexivity.
Qed.

Lemma bound_to_other n f items self r o :
  r <> f -> bound_to ((n, f) :: items) self r o = bound_to items self r o.
Proof.
  intros Hne. unfold bound_to. rewrite is_declared_cons.
  destruct (FieldRef_eqb r f) eqn:E; [|reflexivity].
  apply FieldRef_eqb_eq in E. congruence.
Qed.

Lemma bound_to_bound items self r o :
  bound_to items self r (with_config_object o (Some self))
  = with_config_object o (Some self).
Proof. unfold bound_to. destruct (is_declared items r); reflexivity. Qed.

(** The constructor loop that returns: each field of the registry is bound,
    and holds what the last keyword naming it wrote. *)
Lemma init_fields_exact self kwargs items :
  forall st st',
    init_fields self kwargs items st = (Ok tt, st') ->
    forall r,
      st' r = bound_to items self r
                (written (last_keyword items kwargs r) (st r)).
Proof.
  induction items as [|[n f] items IH]; intros st st' H r.
  - cbn in H. injection H as <-. reflexivity.
  - cbn [init_fields] in H. unfold bind at 1 in H. unfold bind at 1 in H.
    cbn [last_keyword].
    destruct (od_get n kwargs) as [w|] eqn:Ek.
    + destruct (set_value_cases f w st) as [[_ Hs] | [_ Hs]];
        rewrite Hs in H; [|discriminate].
      unfold set_config_object at 1 in H.
      rewrite (IH _ _ H r).
      destruct (FieldRef_eq_dec r f) as [-> | Hne].
      * rewrite !store_set_same, FieldRef_eqb_refl, bound_to_head.
        rewrite written_with_config_object, bound_to_bound.
        destruct (last_keyword items kwargs f); reflexivity.
      * rewrite !store_set_other by exact Hne.
        rewrite (bound_to_other _ _ _ _ _ _ Hne).
        assert (E : FieldRef_eqb f r = false).
        { destruct (FieldRef_eqb f r) eqn:E; [|reflexivity].
          apply FieldRef_eqb_eq in E. congruence. }
        rewrite E. destruct (last_keyword items kwargs r); reflexivity.
    + unfold ret at 1 in H. unfold set_config_object at 1 in H.
      rewrite (IH _ _ H r).
      destruct (FieldRef_eq_dec r f) as [-> | Hne].
      * rewrite !store_set_same, FieldRef_eqb_refl, bound_to_head.
        rewrite written_with_config_object, bound_to_bound.
        destruct (last_keyword items kwargs f); reflexivity.
      * rewrite !store_set_other by exact Hne.
        rewrite (bound_to_other _ _ _ _ _ _ Hne).
        assert (E : FieldRef_eqb f r = false).
        { destruct (FieldRef_eqb f r) eqn:E; [|reflexivity].
          apply FieldRef_eqb_eq in E. congruence. }
        rewrite E. destruct (last_keyword items kwargs r); reflexivity.
Qed.

Lemma last_keyword_no_keywords items r : last_keyword items [] r = None.
Proof.
  induction items as [|[n f] items IH]; [reflexivity|].
  cbn [last_keyword]. rewrite IH. destruct (FieldRef_eqb f r); reflexivity.
Qed.

Lemma bind_all_exact self items st r :
  bind_all self items st r = bound_to items self r (st r).
Proof.
  pose proof (init_fields_no_keywords self items st) as H.
  rewrite (init_fields_exact self [] items st _ H r).
  rewrite last_keyword_no_keywords. reflexivity.
Qed.

(** The loop of [from_dict] and [update] that returns has stored every
    value. *)
Lemma set_constants_Ok cf items :
  forall st st',
    set_constants cf items st = (Ok tt, st') ->
    st' = apply_constants cf items st.
Proof.
  unfold apply_constants.
  induction items as [|[k v] items IH]; intros st st' H.
  - cbn in H. injection H as <-. reflexivity.
  - cbn [set_constants] in H. unfold bind at 1 in H.
    cbn [fold_left fst snd].
    destruct (od_get k cf) as [f|].
    + destruct (set_value_cases f v st) as [[_ Hs] | [_ Hs]];
        rewrite Hs in H; [|discriminate].
      exact (IH _ _ H).
    + unfold ret at 1 in H. exact (IH _ _ H).
Qed.

Lemma set_constants_exact cf items st st' :
  set_constants cf items st = (Ok tt, st') ->
  forall r, st' r = written (last_write cf items r) (st r).
Proof.
  intros H r. rewrite (set_constants_Ok _ _ _ _ H).
  apply apply_constants_last_write.
Qed.

(** [from_dict]: the construction without keywords, then the loop. *)
Lemma from_dict_unfold cls new_id dct st :
  from_dict cls new_id dct st
  = match set_constants (_constant_fields cls) dct
            (bind_all new_id (_declared_fields cls) st) with
    | (Ok _, st') => (Ok (mkConfig new_id cls), st')
    | (Raise e, st') => (Raise e, st')
    end.
Proof.
  unfold from_dict, construct, BaseConfigClass_init. cbn [self_id self_class].
  unfold bind at 1. unfold bind at 1.
  rewrite init_fields_no_keywords. unfold ret at 1. cbn [self_class].
  unfold bind.
  destruct (set_constants (_constant_fields cls) dct
              (bind_all new_id (_declared_fields cls) st)) as [[[]|e] st1];
    reflexivity.
Qed.

Lemma from_dict_exact cls new_id dct st c st' :
  from_dict cls new_id dct st = (Ok c, st') ->
  c = mkConfig new_id cls
  /\ forall r,
       st' r = bound_to (_declared_fields cls) new_id r
                 (written (last_write (_constant_fields cls) dct r) (st r)).
Proof.
  rewrite from_dict_unfold.
  destruct (set_constants (_constant_fields cls) dct
              (bind_all new_id (_declared_fields cls) st)) as [[[]|e] st1] eqn:E;
    intros H; [|discriminate].
  injection H as <- <-. split; [reflexivity|]. intros r.
  rewrite (set_constants_exact _ _ _ _ E r), bind_all_exact.
  unfold bound_to. destruct (is_declared (_declared_fields cls) r);
    [apply written_with_config_object | reflexivity].
Qed.

(** A field bound to an object is read on that object. *)
Lemma get_value_bound r c cdd cp st :
  _config_object (st r) = Some c ->
  get_value r cdd cp st = read_field (st r) c cdd cp (values_of st).
Proof. unfold get_value, read_field. intros ->. reflexivity. Qed.

Lemma bound_to_declared items self name r o :
  In (name, r) items -> bound_to items self r o = with_config_object o (Some self).
Proof.
  intros Hin. unfold bound_to.
  assert (H : is_declared items r = true).
  { apply is_declared_In. apply (in_map snd) in Hin. exact Hin. }
  rewrite H. reflexivity.
Qed.

End StoreFacts.

Module SharingClaims.
Import Fields ODict Registry Config Reference Scenario ConfigRef.
Import ODictFacts FieldFacts KlassFacts InstanceFacts InstanceMore StoreFacts.

(** C1, as the code has it. The instances of a class own no copy of its
    fields: the registry an instance [a] reads is the registry of the class,
    and construction, [from_dict] and [update] write the field objects of
    that registry themselves. After [cls(kw=...)] has returned the instance
    [b], each field object of the registry of [a] is bound to [b] and holds
    the value of the last keyword, in registry order, that names it, every
    other attribute and every other field object being as before; reading
    such a field runs the flag checks and then the getter on [b]. After
    [from_dict] has returned [b] the same holds with the last item of the
    mapping that names the field in the constant registry. After
    [b.update(dct)] the field objects hold the last value the mapping gives
    them and are otherwise as before. *)
Theorem instances_share_declared_fields :
  forall (cls : Klass) (a_id b_id : ObjId) (st : Store),
    let a := mkConfig a_id cls in
    let b := mkConfig b_id cls in
    (forall kwargs st',
        construct cls b_id kwargs st = (Ok b, st') ->
        (forall r,
            st' r = bound_to (_declared_fields (self_class a)) b_id r
                      (written (last_keyword (_declared_fields (self_class a))
                                             kwargs r)
                               (st r)))
        /\ (forall name r cdd cp,
              In (name, r) (_declared_fields (self_class a)) ->
              get_value r cdd cp st'
              = read_field (st' r) b_id cdd cp (values_of st')))
    /\ (forall dct st',
          from_dict cls b_id dct st = (Ok b, st') ->
          (forall r,
              st' r = bound_to (_declared_fields (self_class a)) b_id r
                        (written (last_write (_constant_fields (self_class a))
                                             dct r)
                                 (st r)))
          /\ (forall name r cdd cp,
                In (name, r) (_declared_fields (self_class a)) ->
                get_value r cdd cp st'
                = read_field (st' r) b_id cdd cp (values_of st')))
    /\ (forall dct st',
          update b dct st = (Ok tt, st') ->
          forall r,
            st' r = written (last_write (_constant_fields (self_class a)) dct r)
                            (st r)).
Proof.
  intros cls a_id b_id st a b. cbn [self_class a].
  split; [|split].
  - intros kwargs st' H. apply construct_Ok in H. destruct H as [_ H].
    pose proof (init_fields_exact _ _ _ _ _ H) as Hst.
    split; [exact Hst|].
    intros name r cdd cp Hin. apply get_value_bound.
    rewrite Hst, (bound_to_declared _ _ name _ _ Hin). reflexivity.
  - intros dct st' H. apply from_dict_exact in H. destruct H as [_ Hst].
    split; [exact Hst|].
    intros name r cdd cp Hin. apply get_value_bound.
    rewrite Hst, (bound_to_declared _ _ name _ _ Hin). reflexivity.
  - intros dct st' H. unfold update in H. cbn [self_class b] in H.
    exact (set_constants_exact _ _ _ _ H).
Qed.

Lemma instances_share_declared_fields_witness :
  construct Demo 2 [("project_name", VStr "web")] st_demo1 = (Ok demo2, st_demo2)
  /\ value (st_demo2 project_name) = VStr "web"
  /\ get_value project_name false false st_demo2 = Ok (VStr "web")
  /\ get_value owner false false st_demo2 = Ok (VInt 2).
Proof.
  assert (H : construct Demo 2 [("project_name", VStr "web")] st_demo1
              = (Ok demo2, st_demo2)) by reflexivity.
  destruct (instances_share_declared_fields Demo 1 2 st_demo1) as [Hc _].
  destruct (Hc _ _ H) as [Hst Hread].
  split; [exact H|]. split; [|split].
  - rewrite Hst. reflexivity.
  - rewrite (Hread "project_name" project_name false false); [reflexivity|].
    left. reflexivity.
  - rewrite (Hread "owner" owner false false); [reflexivity|].
    right. right. left. reflexivity.
Defined.

(** C7. On a class built by the metaclass [from_dict] returns an instance
    for every mapping. Every declared field is bound to it; a field holds
    the value of the last item of the mapping whose key names it in the
    constant registry, and its former value when there is none; nothing else
    is changed. Hence the outcome is that of the mapping restricted to the
    keys of the constant registry, an item whose key is not one of them is
    ignored wherever it stands, the name of a derivable field is such a key
    and its field is only bound, and a key of the constant registry that the
    mapping has once, for a field it alone names, leaves its value there. *)
Theorem from_dict_ignores_other_keys :
  forall (st0 : Store) (mro_tail : list ClassObj) (attrs : list (string * Attr))
         (new_id : ObjId) (dct : list (string * PyVal)) (st : Store),
    let cls := ConfigMeta_new st0 mro_tail attrs in
    exists st',
      from_dict cls new_id dct st = (Ok (mkConfig new_id cls), st')
      /\ (forall r,
            st' r = bound_to (_declared_fields cls) new_id r
                      (written (last_write (_constant_fields cls) dct r) (st r)))
      /\ from_dict cls new_id
                   (filter (fun kv => od_contains (fst kv) (_constant_fields cls)) dct)
                   st
         = (Ok (mkConfig new_id cls), st')
      /\ (forall key v pre post,
            od_get key (_constant_fields cls) = None ->
            dct = pre ++ post ->
            from_dict cls new_id (pre ++ (key, v) :: post) st
            = (Ok (mkConfig new_id cls), st'))
      /\ (forall key r,
            od_get key (_deriable_fields cls) = Some r ->
            od_get key (_constant_fields cls) = None
            /\ st' r = with_config_object (st r) (Some new_id))
      /\ (forall key v r,
            NoDup (map fst dct) ->
            In (key, v) dct ->
            od_get key (_constant_fields cls) = Some r ->
            (forall k, od_get k (_constant_fields cls) = Some r -> k = key) ->
            value (st' r) = v).
Proof.
  intros st0 mro_tail attrs new_id dct st cls.
  assert (Hc : forall k f, od_get k (_constant_fields cls) = Some f ->
                           ref_class f = Constant).
  { intros k f H. apply (constant_fields_Constant st0 mro_tail attrs k f H). }
  pose proof (from_dict_total cls new_id dct st Hc) as Hrun.
  destruct (from_dict_exact _ _ _ _ _ _ Hrun) as [_ Hst].
  eexists. split; [exact Hrun|]. split; [exact Hst|].
  split; [|split; [|split]].
  - rewrite (from_dict_total cls new_id _ st Hc), apply_constants_filter.
    reflexivity.
  - intros key v pre post Hnone ->.
    rewrite (from_dict_total cls new_id _ st Hc), apply_constants_skip; auto.
  - intros key r Hkey.
    pose proof (deriable_fields_Derivable st0 mro_tail attrs key r Hkey)
      as [Hin Hd].
    pose proof (deriable_name_not_constant st0 mro_tail attrs key r Hkey)
      as Hnone.
    fold cls in Hin, Hnone. split; [exact Hnone|].
    rewrite Hst, (bound_to_declared _ _ key _ _ Hin), last_write_None;
      [reflexivity|].
    intros k w _ Hk. apply Hc in Hk. congruence.
  - intros key v r Hnd Hin Hk Huniq.
    rewrite Hst, (last_write_single _ _ key v r Hnd Hin Hk Huniq).
    unfold bound_to. destruct (is_declared (_declared_fields cls) r);
      reflexivity.
Qed.

Lemma from_dict_ignores_other_keys_witness :
  fst (from_dict Demo 7 [("owner", VStr "me"); ("project_name", VStr "My App");
                         ("unknown", VInt 0)] st_demo)
  = Ok (mkConfig 7 Demo)
  /\ value (snd (from_dict Demo 7
                   [("owner", VStr "me"); ("project_name", VStr "My App");
                    ("unknown", VInt 0)] st_demo) project_name)
     = VStr "My App"
  /\ snd (from_dict Demo 7
            [("owner", VStr "me"); ("project_name", VStr "My App");
             ("unknown", VInt 0)] st_demo) owner
     = with_config_object (st_demo owner) (Some 7).
Proof.
  destruct (from_dict_ignores_other_keys
              st_demo [BaseConfigClass_obj] demo_attrs 7
              [("owner", VStr "me"); ("project_name", VStr "My App");
               ("unknown", VInt 0)] st_demo)
    as (st' & Hrun & _ & _ & _ & Hder & Hval).
  change (ConfigMeta_new st_demo [BaseConfigClass_obj] demo_attrs) with Demo
    in Hrun, Hder, Hval.
  rewrite Hrun. cbn [fst snd]. split; [reflexivity|]. split.
  - apply (Hval "project_name" (VStr "My App") project_name).
    + repeat constructor; simpl; intuition discriminate.
    + right. left. reflexivity.
    + reflexivity.
    + intros k Hk.
      change (_constant_fields Demo)
        with [("project_name", project_name); ("password", password)] in Hk.
      cbn [od_get] in Hk.
      destruct (String.eqb "project_name" k) eqn:E1.
      { apply String.eqb_eq in E1. symmetry. exact E1. }
      destruct (String.eqb "password" k); discriminate.
  - apply (Hder "owner" owner). reflexivity.
Defined.

End SharingClaims.

(* ===================================================================== *)
(** ** The registry under two bases that share a base *)
(* ===================================================================== *)

Module DiamondClaims.
Import Fields ODict Registry Config Scenario ConfigRef Diamond.

(** C3 fails when a class has two bases that share a base. [C] declares [x]
    again and its own registry maps [x] to its object, at the place [x] has
    in the registry of [A]. [D(B, C)] inherits from [C], and the attribute
    [D.x] is the object of [C], the method resolution order being [D, B, C,
    A, ...]; but the registry of [D] maps [x] to the object of [A], which the
    registry of [B], read after that of [C], writes back. The constructor of
    [D] then binds the object of [A] and leaves [D.x] unbound, so that
    reading [D.x] on the instance raises [AttributeError]. *)
Theorem diamond_registry_keeps_ancestor_field :
  _declared_fields A = [("a", A_a); ("x", A_x)]
  /\ _declared_fields C = [("a", A_a); ("x", C_x); ("c", C_c)]
  /\ _declared_fields B = [("a", A_a); ("x", A_x); ("b", B_b)]
  /\ class_getattr "x" (D_obj :: D_mro_tail) = Some (AttrField C_x)
  /\ _declared_fields D = [("a", A_a); ("x", A_x); ("c", C_c); ("b", B_b)]
  /\ A_x <> C_x
  /\ construct D 1 [] st_diamond = (Ok (mkConfig 1 D), st_D1)
  /\ _config_object (st_D1 A_x) = Some 1
  /\ get_value C_x false false st_D1 = Raise AttributeError.
Proof.
  repeat (split; [reflexivity|]).
  split; [discriminate|].
  repeat (split; [reflexivity|]). reflexivity.
Qed.

End DiamondClaims.
